(** * COVID-19 ICU risk analysis: the table pipeline of [analysis.py]

    A shallow embedding of [load_data], [preprocess_data],
    [aggregate_patient_level] and [plot_dashboard], together with the part
    of the pandas and requests behaviour these four functions rely on, and
    of the driver [main] of [main.py].

    - Cells and column labels are Python objects: ints, floats (binary64,
      [nan] doubling as pandas' missing value) and strings.  Strings are
      sequences of code points below 256, which is where the regular
      expression class [\d] coincides with the ASCII digits.
    - A [DataFrame] is an ordered list of labelled columns.  The frames
      read here carry pairwise different labels ([frame_ok]); selecting a
      repeated label is outside the model.
    - [preprocess_data] mutates a copy of its argument, so frames live in a
      store and are passed by reference.
    - Floats are read and printed as Python does: [float] rounds a decimal
      to the nearest binary64, [repr] prints the shortest decimal that reads
      back.
    - The network and the spreadsheet parser are the environment of
      [load_data]; they are section variables. *)

From Stdlib Require Import QArith Qcanon.
From Stdlib Require Import Floats.SpecFloat.
From Stdlib Require Import Strings.Ascii Strings.String.
From stdpp Require Import base tactics option list numbers strings pretty gmap sorting.

Set Warnings "-clear-no-such-hyp".

Local Open Scope string_scope.
Local Open Scope Z_scope.

(** ** Python objects *)

Definition float64 := spec_float.

Definition prec64 : Z := 53.
Definition emax64 : Z := 1024.

Definition nan : float64 := S754_nan.

(** Conversion of a Python int to binary64, rounding to nearest even. *)
Definition float_of_Z (n : Z) : float64 := binary_normalize prec64 emax64 n 0 false.

Inductive value :=
  | VInt (n : Z)
  | VFloat (x : float64)
  | VStr (s : string).

Global Instance float64_eq_dec : EqDecision float64.
Proof. solve_decision. Defined.

Global Instance value_eq_dec : EqDecision value.
Proof. solve_decision. Defined.

Inductive exn :=
  | KeyError (key : value)
  | ValueError (text : string)
  | TypeError
  | AttributeError
  | ReferenceError
  | HTTPError (status : Z)
  | ConnectionError.

Global Instance exn_eq_dec : EqDecision exn.
Proof. solve_decision. Defined.

(** pandas' [isna] on a cell. *)
Definition isna (v : value) : bool :=
  match v with
  | VFloat S754_nan => true
  | _ => false
  end.

(** ** Comparison of Python objects

    Python compares ints and floats by their exact numerical value, and
    strings code point by code point.  [sort_key] is that value; [nan] has
    none.  The constructors are listed in increasing order, numbers before
    strings, which is the order pandas gives to the keys of a group-by. *)

Inductive sort_key :=
  | KNegInf
  | KNum (q : Qc)
  | KPosInf
  | KStr (s : string).

Global Instance sort_key_eq_dec : EqDecision sort_key.
Proof. solve_decision. Defined.

Definition Qc_of_dyadic (s : bool) (m : positive) (e : Z) : Qc :=
  let q :=
    match e with
    | Z0 => Zpos m # 1
    | Zpos p => (Zpos m * 2 ^ Zpos p) # 1
    | Zneg p => Zpos m # (2 ^ p)%positive
    end in
  Q2Qc (if s then Qopp q else q).

Definition key_of (v : value) : option sort_key :=
  match v with
  | VInt n => Some (KNum (Qc_of_Z n))
  | VFloat (S754_zero _) => Some (KNum (Qc_of_Z 0))
  | VFloat (S754_infinity s) => Some (if s then KNegInf else KPosInf)
  | VFloat S754_nan => None
  | VFloat (S754_finite s m e) => Some (KNum (Qc_of_dyadic s m e))
  | VStr s => Some (KStr s)
  end.

(** [a == b] *)
Definition py_eqb (a b : value) : bool :=
  match key_of a, key_of b with
  | Some ka, Some kb => bool_decide (ka = kb)
  | _, _ => false
  end.

Definition key_le (a b : sort_key) : Prop :=
  match a, b with
  | KNegInf, _ => True
  | KNum _, KNegInf => False
  | KNum p, KNum q => (p ≤ q)%Qc
  | KNum _, _ => True
  | KPosInf, (KNegInf | KNum _) => False
  | KPosInf, _ => True
  | KStr s, KStr t => String.le s t
  | KStr _, _ => False
  end.

Global Instance key_le_dec : RelDecision key_le.
Proof. intros [] []; simpl; apply _. Defined.

Definition key_lt (a b : sort_key) : Prop := key_le a b ∧ a ≠ b.

Global Instance key_lt_dec : RelDecision key_lt.
Proof. intros a b; unfold key_lt; apply _. Defined.

(** Results of code that may raise. *)
Definition result (A : Type) : Type := exn + A.

Global Instance result_ret : MRet result := λ A x, inr x.
Global Instance result_bind : MBind result := λ A B f m,
  match m with
  | inl e => inl e
  | inr x => f x
  end.
Global Instance result_fmap : FMap result := λ A B f m,
  match m with
  | inl e => inl e
  | inr x => inr (f x)
  end.

Definition is_str (v : value) : bool :=
  match v with
  | VStr _ => true
  | _ => false
  end.

(** [a < b]: ordering a number against a string raises [TypeError], and
    every comparison with [nan] is false. *)
Definition py_lt (a b : value) : result bool :=
  if bool_decide (is_str a = is_str b) then
    match key_of a, key_of b with
    | Some ka, Some kb => inr (bool_decide (key_lt ka kb))
    | _, _ => inr false
    end
  else inl TypeError.

(** ** Floats from decimals

    Reading a decimal and printing a float both go through the float
    nearest to a decimal. *)

(** The decimal [m / 10^k] rounded to the nearest binary64, ties to even;
    values beyond the largest finite float become [inf]. *)
Definition round_decimal (m : Z) (k : N) : float64 :=
  match m with
  | Z0 => S754_zero false
  | Zpos _ =>
      let '(q, e, l) := SFdiv_core_binary prec64 emax64 m 0 (10 ^ Z.of_N k) 0 in
      binary_round_aux prec64 emax64 false q e l
  | Zneg _ => S754_nan
  end.

(** ** Printing floats *)

(** The exact value of a finite float, as a fraction. *)
Definition fraction_of (m : positive) (e : Z) : Z * Z :=
  match e with
  | Z0 => (Zpos m, 1)
  | Zpos p => (Zpos m * 2 ^ Zpos p, 1)
  | Zneg p => (Zpos m, 2 ^ Zpos p)
  end.

(** The fraction divided by [10^j]. *)
Definition scale10 (ab : Z * Z) (j : Z) : Z * Z :=
  match j with
  | Z0 => ab
  | Zpos _ => (ab.1, ab.2 * 10 ^ j)
  | Zneg p => (ab.1 * 10 ^ Zpos p, ab.2)
  end.

(** The number of decimal digits of a positive integer. *)
Definition digits10 (n : Z) : Z := Z.of_nat (String.length (pretty n)).

(** The position of the decimal point: the [k] with [10^(k-1) <= a/b < 10^k]. *)
Definition decimal_point (ab : Z * Z) : Z :=
  let k := digits10 ab.1 - digits10 ab.2 in
  let '(a, b) := scale10 ab k in
  if b <=? a then k + 1 else k.

(** The float nearest to [d * 10^j]. *)
Definition read_back (d j : Z) : float64 :=
  match j with
  | Zneg p => round_decimal d (Npos p)
  | _ => round_decimal (d * 10 ^ j) 0
  end.

(** The integer of [n] digits (at most) nearest to [x / 10^j], among those
    that read back as [x], if there is one. *)
Definition nearest_digits (x : float64) (ab : Z * Z) (j : Z) : option Z :=
  let '(a, b) := scale10 ab j in
  let lo := a / b in
  let r := a mod b in
  let hi := lo + 1 in
  let ok_lo := bool_decide (read_back lo j = x) in
  let ok_hi := bool_decide (read_back hi j = x) in
  match ok_lo, ok_hi with
  | true, true =>
      match 2 * r ?= b with
      | Lt => Some lo
      | Gt => Some hi
      | Eq => Some (if Z.even lo then lo else hi)
      end
  | true, false => Some lo
  | false, true => Some hi
  | false, false => None
  end.

(** The shortest digits that read back as [x], tried from [n] digits on. *)
Fixpoint shortest_digits (fuel : nat) (x : float64) (ab : Z * Z) (point n : Z) : Z * Z :=
  match nearest_digits x ab (point - n) with
  | Some d => (d, point - n)
  | None =>
      match fuel with
      | O => ((scale10 ab (point - n)).1 / (scale10 ab (point - n)).2, point - n)
      | S fuel' => shortest_digits fuel' x ab point (n + 1)
      end
  end.

Fixpoint strip_zeros (fuel : nat) (d j : Z) : Z * Z :=
  match fuel with
  | O => (d, j)
  | S fuel' => if (d mod 10 =? 0) && (0 <? d) then strip_zeros fuel' (d / 10) (j + 1) else (d, j)
  end.

Definition zeros (n : Z) : string := string_of_list_ascii (replicate (Z.to_nat n) "0"%char).

(** [repr] of a finite float other than zero. *)
Definition repr_finite (s : bool) (m : positive) (e : Z) : string :=
  match binary_normalize prec64 emax64 (Zpos m) e false with
  | S754_finite _ m' e' =>
      let ab := fraction_of m' e' in
      let point := decimal_point ab in
      let '(d, j) := shortest_digits 17 (S754_finite false m' e') ab point 1 in
      let '(d, j) := strip_zeros 20 d j in
      let ds := pretty d in
      let n := Z.of_nat (String.length ds) in
      let point := n + j in
      (if s then "-" else "") ++
      (if (point <? -3) || (16 <? point) then
         let ex := point - 1 in
         substring 0 1 ds ++
         (if 1 <? n then "." ++ substring 1 (Z.to_nat (n - 1)) ds else "") ++
         "e" ++ (if ex <? 0 then "-" else "+") ++
         (if Z.abs ex <? 10 then "0" else "") ++ pretty (Z.abs ex)
       else if point <=? 0 then "0." ++ zeros (- point) ++ ds
       else if n <=? point then ds ++ zeros (point - n) ++ ".0"
       else substring 0 (Z.to_nat point) ds ++ "." ++
            substring (Z.to_nat point) (Z.to_nat (n - point)) ds)
  | S754_infinity _ => if s then "-inf" else "inf"
  | _ => if s then "-0.0" else "0.0"
  end.

(** The format [.2%]: the float times 100, with two decimals. *)
Definition format_percent (x : float64) : string :=
  match SFmul prec64 emax64 x (float_of_Z 100) with
  | S754_nan => "nan%"
  | S754_infinity s => if s then "-inf%" else "inf%"
  | S754_zero s => if s then "-0.00%" else "0.00%"
  | S754_finite s m e =>
      let '(a, b) := scale10 (fraction_of m e) (-2) in
      let q := a / b in
      let r := a mod b in
      let q := match 2 * r ?= b with
               | Lt => q
               | Gt => q + 1
               | Eq => if Z.even q then q else q + 1
               end in
      let cents := pretty (q mod 100) in
      (if s then "-" else "") ++ pretty (q / 100) ++ "." ++
      (if q mod 100 <? 10 then "0" else "") ++ cents ++ "%"
  end.

(** ** Text: [str], [re.sub] and [float] *)

(** [str(x)] *)
Definition py_str (v : value) : string :=
  match v with
  | VInt n => pretty n
  | VFloat (S754_zero s) => if s then "-0.0" else "0.0"
  | VFloat (S754_infinity s) => if s then "-inf" else "inf"
  | VFloat S754_nan => "nan"
  | VFloat (S754_finite s m e) => repr_finite s m e
  | VStr s => s
  end.

(** The items of a bracketed character class: [\d] and literal characters. *)
Inductive class_item :=
  | ClassDigit
  | ClassChar (c : ascii).

Definition is_digit (c : ascii) : bool :=
  let n := N_of_ascii c in ((48 <=? n) && (n <=? 57))%N.

Definition item_matches (c : ascii) (i : class_item) : bool :=
  match i with
  | ClassDigit => is_digit c
  | ClassChar d => bool_decide (c = d)
  end.

(** [re.sub("[^items]", repl, s)]: every character outside the class is a
    match of length one and is replaced by [repl]. *)
Fixpoint re_sub_negated_class (items : list class_item) (repl s : string) : string :=
  match s with
  | EmptyString => EmptyString
  | String c s' =>
      if existsb (item_matches c) items
      then String c (re_sub_negated_class items repl s')
      else repl ++ re_sub_negated_class items repl s'
  end.

(** The pattern [[^\d.]] of [preprocess_data]. *)
Definition non_digit_or_dot : list class_item := [ClassDigit; ClassChar "."%char].

(** Scanner state of [float] over a text of digits and points: the digits
    read so far as an integer, how many of them follow the point, whether
    the point has been seen, whether any digit has been seen. *)
Record scan := { mantissa : Z; fraction : N; seen_point : bool; seen_digit : bool }.

Definition scan_char (st : scan) (c : ascii) : option scan :=
  if is_digit c then
    Some {| mantissa := 10 * mantissa st + (Z.of_N (N_of_ascii c) - 48);
            fraction := if seen_point st then N.succ (fraction st) else fraction st;
            seen_point := seen_point st;
            seen_digit := true |}
  else if bool_decide (c = "."%char) then
    if seen_point st then None
    else Some {| mantissa := mantissa st; fraction := fraction st;
                 seen_point := true; seen_digit := seen_digit st |}
  else None.

Fixpoint scan_string (st : scan) (s : string) : option scan :=
  match s with
  | EmptyString => Some st
  | String c s' =>
      match scan_char st c with
      | Some st' => scan_string st' s'
      | None => None
      end
  end.

(** [float(s)] for a text [s] over the digits and the point, the only
    texts [preprocess_data] passes.  Such a text is a number when it has at
    least one digit and at most one point; otherwise [float] raises
    [ValueError]. *)
Definition py_float (s : string) : result float64 :=
  match scan_string {| mantissa := 0; fraction := 0; seen_point := false; seen_digit := false |} s with
  | Some st =>
      if seen_digit st then inr (round_decimal (mantissa st) (fraction st))
      else inl (ValueError s)
  | None => inl (ValueError s)
  end.

(** [s.endswith(suffixes)] for a tuple of suffixes. *)
Definition ends_with (s suffix : string) : bool :=
  let n := String.length s in
  let k := String.length suffix in
  bool_decide (k ≤ n)%nat && bool_decide (substring (n - k) k s = suffix).

Definition endswith (s : string) (suffixes : list string) : bool :=
  existsb (ends_with s) suffixes.

Arguments endswith : simpl never.

(** A list comprehension [[x for x in l if p(x)]] whose condition may raise. *)
Fixpoint comprehension {A} (p : A → result bool) (l : list A) : result (list A) :=
  match l with
  | [] => inr []
  | x :: l' =>
      b ← p x;
      r ← comprehension p l';
      mret (if b : bool then x :: r else r)
  end.

(** A list comprehension [[f(x) for x in l]] whose body may raise. *)
Fixpoint traverse {A B} (f : A → result B) (l : list A) : result (list B) :=
  match l with
  | [] => inr []
  | x :: l' =>
      y ← f x;
      r ← traverse f l';
      mret (y :: r)
  end.

(** ** Series and frames *)

Abbreviation Series := (list value).

Record DataFrame := { nrows : nat; columns : list (value * Series) }.

Global Instance DataFrame_eq_dec : EqDecision DataFrame.
Proof. solve_decision. Defined.

Definition labels (df : DataFrame) : list value := (columns df).*1.

(** Equality of labels in an index: [==], with [nan] matching [nan]. *)
Definition label_eqb (a b : value) : bool := py_eqb a b || (isna a && isna b).

Definition label_in (a : value) (l : list value) : bool := existsb (label_eqb a) l.

Fixpoint unique_labels (l : list value) : bool :=
  match l with
  | [] => true
  | a :: l' => negb (label_in a l') && unique_labels l'
  end.

(** The frames of the model: no label occurs twice and every column has
    one cell per row. *)
Definition frame_ok (df : DataFrame) : bool :=
  unique_labels (labels df) &&
  forallb (λ c, bool_decide (length c.2 = nrows df)) (columns df).

Arguments frame_ok : simpl never.

(** [Series.map(d)] for a dict [d]: cells that are no key of [d] become
    missing. *)
Fixpoint dict_get (d : list (value * value)) (k : value) : option value :=
  match d with
  | [] => None
  | (k', v) :: d' => if py_eqb k k' then Some v else dict_get d' k
  end.

Definition Series_map (s : Series) (d : list (value * value)) : Series :=
  (λ v, default (VFloat nan) (dict_get d v)) <$> s.

(** [Series.apply(f)] *)
Fixpoint Series_apply (s : Series) (f : value → result value) : result Series :=
  match s with
  | [] => inr []
  | v :: s' =>
      w ← f v;
      r ← Series_apply s' f;
      mret (w :: r)
  end.

(** [df[key]] *)
Fixpoint lookup_label (key : value) (cols : list (value * Series)) : option Series :=
  match cols with
  | [] => None
  | (l, s) :: cols' => if label_eqb key l then Some s else lookup_label key cols'
  end.

Definition frame_getitem (df : DataFrame) (key : value) : result Series :=
  match lookup_label key (columns df) with
  | Some s => inr s
  | None => inl (KeyError key)
  end.

(** [df[key] = s]: an existing column keeps its place and takes the new
    cells; a new label is appended as the last column. *)
Definition frame_setitem (df : DataFrame) (key : value) (s : Series) : DataFrame :=
  {| nrows := nrows df;
     columns :=
       if label_in key (labels df)
       then (λ c, if label_eqb key c.1 then (c.1, s) else c) <$> columns df
       else columns df ++ [(key, s)] |}.

(** [df.drop(columns=names, errors="ignore")] *)
Definition frame_drop (df : DataFrame) (names : list value) : DataFrame :=
  {| nrows := nrows df;
     columns := filter (λ c, label_in c.1 names = false) (columns df) |}.

Arguments frame_getitem : simpl never.
Arguments frame_setitem : simpl never.
Arguments frame_drop : simpl never.

(** ** State

    Code with effects is a function of the state that returns its result,
    or the exception it raised, and the state it leaves. *)

Definition state (S A : Type) : Type := S → result A * S.

Global Instance state_ret {S} : MRet (state S) := λ A x σ, (inr x, σ).
Global Instance state_bind {S} : MBind (state S) := λ A B f m σ,
  match m σ with
  | (inl e, σ') => (inl e, σ')
  | (inr x, σ') => f x σ'
  end.

Definition lift {S A} (r : result A) : state S A := λ σ, (r, σ).

(** [try: body except Exception: handler] *)
Definition try_except {S A} (body handler : state S A) : state S A := λ σ,
  match body σ with
  | (inl _, σ') => handler σ'
  | (inr x, σ') => (inr x, σ')
  end.

(** ** The store

    Frames are objects reached through references. *)

Definition ref := nat.

Abbreviation store := (gmap ref DataFrame).

Abbreviation M := (state store).

(** Reading the object behind a reference. *)
Definition deref (r : ref) : M DataFrame := λ σ,
  match σ !! r with
  | Some df => (inr df, σ)
  | None => (inl ReferenceError, σ)
  end.

(** Updating the object behind a reference in place. *)
Definition assign (r : ref) (df : DataFrame) : M unit := λ σ, (inr (), <[r := df]> σ).

(** A new object, at a reference not in use. *)
Definition alloc (df : DataFrame) : M ref := λ σ,
  let r := fresh (dom σ) in (inr r, <[r := df]> σ).

(** [df.copy()]: a new object with the same cells. *)
Definition DataFrame_copy (r : ref) : M ref :=
  df ← deref r; alloc df.

(** [df.columns] *)
Definition DataFrame_columns (r : ref) : M (list value) :=
  df ← deref r; mret (labels df).

(** [df.drop(columns=names, errors="ignore", inplace=True)] *)
Definition DataFrame_drop (r : ref) (names : list value) : M unit :=
  df ← deref r; assign r (frame_drop df names).

(** [df[key]] *)
Definition DataFrame_getitem (r : ref) (key : value) : M Series :=
  df ← deref r; lift (frame_getitem df key).

(** [df[key] = s] *)
Definition DataFrame_setitem (r : ref) (key : value) (s : Series) : M unit :=
  df ← deref r; assign r (frame_setitem df key s).

(** ** [preprocess_data] *)

Definition remove_patterns : list string := ["_DIFF"; "_MIN"; "_MAX"; "_MEDIAN"].

(** [col.endswith(remove_patterns)]; a label that is no string has no such
    method. *)
Definition col_endswith (col : value) : result bool :=
  match col with
  | VStr s => inr (endswith s remove_patterns)
  | _ => inl AttributeError
  end.

Definition age_group_dict : list (value * value) :=
  [(VInt 1, VStr "+65"); (VInt 0, VStr "<65")].

(** The label ends in one of the four reserved suffixes. *)
Definition reserved (l : value) : bool :=
  match l with
  | VStr s => endswith s remove_patterns
  | _ => false
  end.

(** The label is that of a derived column. *)
Definition derived (l : value) : bool := label_in l [VStr "age_group"; VStr "age"].

(** The text that is left of [s] once every character other than a digit
    or the decimal point is removed. *)
Fixpoint digits_and_points (s : string) : string :=
  match s with
  | EmptyString => EmptyString
  | String c s' =>
      if is_digit c || bool_decide (c = "."%char)
      then String c (digits_and_points s')
      else digits_and_points s'
  end.

(** [lambda x: float(re.sub(r"[^\d.]", "", str(x)))] *)
Definition numeric_age (x : value) : result value :=
  VFloat <$> py_float (re_sub_negated_class non_digit_or_dot "" (py_str x)).

Definition preprocess_data (df : ref) : M ref :=
  df ← DataFrame_copy df;
  cols ← DataFrame_columns df;
  remove_cols ← lift (comprehension col_endswith cols);
  DataFrame_drop df remove_cols;;
  above65 ← DataFrame_getitem df (VStr "AGE_ABOVE65");
  DataFrame_setitem df (VStr "age_group") (Series_map above65 age_group_dict);;
  percentil ← DataFrame_getitem df (VStr "AGE_PERCENTIL");
  age ← lift (Series_apply percentil numeric_age);
  DataFrame_setitem df (VStr "age") age;;
  mret df.

(** The table [preprocess_data] returns, as a function of the table it is
    given ([preprocess_data_run] relates the two). *)
Definition preprocess_frame (df : DataFrame) : result DataFrame :=
  remove_cols ← comprehension col_endswith (labels df);
  let df := frame_drop df remove_cols in
  above65 ← frame_getitem df (VStr "AGE_ABOVE65");
  let df := frame_setitem df (VStr "age_group") (Series_map above65 age_group_dict) in
  percentil ← frame_getitem df (VStr "AGE_PERCENTIL");
  age ← Series_apply percentil numeric_age;
  mret (frame_setitem df (VStr "age") age).

(** ** Group-by and aggregation *)

(** A cell that reads 0 or 1. *)
Definition binary (v : value) : Prop :=
  py_eqb v (VInt 0) = true ∨ py_eqb v (VInt 1) = true.

(** The order of group keys; missing keys never reach it. *)
Definition value_le (a b : value) : Prop :=
  match key_of a, key_of b with
  | Some ka, Some kb => key_le ka kb
  | None, Some _ => False
  | _, None => True
  end.

Global Instance value_le_dec : RelDecision value_le.
Proof. intros a b; unfold value_le; destruct (key_of a), (key_of b); apply _. Defined.

Definition dropna (s : Series) : Series := filter (λ v, isna v = false) s.

(** The different values of a column, in order of first appearance. *)
Fixpoint uniques_from (seen : list value) (s : Series) : Series :=
  match s with
  | [] => []
  | v :: s' =>
      if existsb (py_eqb v) seen then uniques_from seen s'
      else v :: uniques_from (v :: seen) s'
  end.

Definition uniques (s : Series) : Series := uniques_from [] s.

(** The keys of the groups: missing keys are dropped ([dropna=True]) and
    the keys are sorted ([sort=True]). *)
Definition group_keys (keys : Series) : Series :=
  merge_sort value_le (uniques (dropna keys)).

(** The cells of [s] in the rows whose key is [k], in row order. *)
Definition group_cells (keys : Series) (k : value) (s : Series) : Series :=
  (filter (λ p, py_eqb p.1 k = true) (zip keys s)).*2.

Inductive aggfunc := AggMax | AggFirst.

(** ["first"]: the first cell that is not missing. *)
Definition agg_first (s : Series) : value := default (VFloat nan) (head (dropna s)).

Fixpoint max_from (cur : value) (s : Series) : result value :=
  match s with
  | [] => inr cur
  | v :: s' => b ← py_lt cur v; max_from (if b : bool then v else cur) s'
  end.

(** ["max"]: the largest cell that is not missing. *)
Definition agg_max (s : Series) : result value :=
  match dropna s with
  | [] => inr (VFloat nan)
  | v :: s' => max_from v s'
  end.

Definition aggregate (f : aggfunc) (s : Series) : result value :=
  match f with
  | AggMax => agg_max s
  | AggFirst => inr (agg_first s)
  end.

Record GroupBy := { grouped : DataFrame; by_label : value; keys : Series }.

(** [df.groupby(by)] *)
Definition DataFrame_groupby (df : DataFrame) (label : value) : result GroupBy :=
  ks ← frame_getitem df label;
  mret {| grouped := df; by_label := label; keys := ks |}.

(** A frame whose index is a named column of keys, as [agg] and
    [crosstab] return it. *)
Record Indexed := { index_name : value; index : Series; body : list (value * Series) }.

(** [g.agg({label: func, ...})]: every label is looked up among the columns
    other than the key before anything is computed. *)
Definition GroupBy_agg (g : GroupBy) (spec : list (value * aggfunc)) : result Indexed :=
  selected ← traverse (λ '(l, f),
      s ← frame_getitem (frame_drop (grouped g) [by_label g]) l;
      mret (l, f, s)) spec;
  let ks := group_keys (keys g) in
  cols ← traverse (λ '(l, f, s),
      cells ← traverse (λ k, aggregate f (group_cells (keys g) k s)) ks;
      mret (l, cells)) selected;
  mret {| index_name := by_label g; index := ks; body := cols |}.

(** [.reset_index()]: the index becomes the first column, unless a column
    already carries its name. *)
Definition reset_index (t : Indexed) : result DataFrame :=
  if label_in (index_name t) (body t).*1
  then inl (ValueError "cannot insert, already exists")
  else inr {| nrows := length (index t);
              columns := (index_name t, index t) :: body t |}.

Definition aggregate_patient_level (df : DataFrame) : result DataFrame :=
  g ← DataFrame_groupby df (VStr "PATIENT_VISIT_IDENTIFIER");
  t ← GroupBy_agg g [(VStr "ICU", AggMax); (VStr "age_group", AggFirst); (VStr "age", AggFirst)];
  reset_index t.

(** The table of [aggregate_patient_level], column by column, given the
    four columns it reads and the maxima of ICU
    ([aggregate_patient_level_eq]). *)
Definition patient_table (ids icu_max ag age : Series) : DataFrame :=
  {| nrows := length (group_keys ids);
     columns :=
       [ (VStr "PATIENT_VISIT_IDENTIFIER", group_keys ids);
         (VStr "ICU", icu_max);
         (VStr "age_group", (λ k, agg_first (group_cells ids k ag)) <$> group_keys ids);
         (VStr "age", (λ k, agg_first (group_cells ids k age)) <$> group_keys ids) ] |}.

(** ** Cross-tabulation and group means *)

(** [pd.crosstab(r, c)] for a row series named [name]: the rows with a
    missing cell are left out; rows and columns are the sorted different
    values; the cells count the pairs. *)
Definition crosstab (name : value) (r c : Series) : Indexed :=
  let pairs := filter (λ p, isna p.1 = false ∧ isna p.2 = false) (zip r c) in
  let rs := merge_sort value_le (uniques pairs.*1) in
  let cs := merge_sort value_le (uniques pairs.*2) in
  {| index_name := name;
     index := rs;
     body := (λ cj, (cj, (λ ri,
               VInt (Z.of_nat (length (filter (λ p, py_eqb p.1 ri = true ∧ py_eqb p.2 cj = true) pairs))))
               <$> rs)) <$> cs |}.

Definition to_float64 (v : value) : result float64 :=
  match v with
  | VInt n => inr (float_of_Z n)
  | VFloat x => inr x
  | VStr _ => inl TypeError
  end.

Definition fadd := SFadd prec64 emax64.
Definition fsub := SFsub prec64 emax64.
Definition fdiv := SFdiv prec64 emax64.

(** Compensated summation, as the group mean of pandas does it: the
    running sum and the compensation. *)
Definition kahan_step (acc : float64 * float64) (val : float64) : float64 * float64 :=
  let '(sumx, compensation) := acc in
  let y := fsub val compensation in
  let t := fadd sumx y in
  let c := fsub (fsub t sumx) y in
  (t, if bool_decide (c = S754_nan) then S754_zero false else c).

(** ["mean"] of a group: missing cells are skipped. *)
Definition group_mean (s : Series) : result value :=
  xs ← traverse to_float64 (dropna s);
  mret (match xs with
        | [] => VFloat nan
        | _ => VFloat (fdiv (foldl kahan_step (S754_zero false, S754_zero false) xs).1
                            (float_of_Z (Z.of_nat (length xs))))
        end).

(** [g[label].mean()] *)
Definition GroupBy_mean (g : GroupBy) (label : value) : result Indexed :=
  s ← frame_getitem (frame_drop (grouped g) [by_label g]) label;
  let ks := group_keys (keys g) in
  cells ← traverse (λ k, group_mean (group_cells (keys g) k s)) ks;
  mret {| index_name := by_label g; index := ks; body := [(label, cells)] |}.

(** ** [plot_dashboard] *)

Inductive trace_kind := Bar | Scatter.

Record trace := {
  kind : trace_kind;
  subplot : nat;
  name : string;
  x : Series;
  y : Series;
  text : Series;
}.

Record Figure := { traces : list trace; height : Z; title : string; barmode : string }.

Definition make_subplots : Figure :=
  {| traces := []; height := 0; title := ""; barmode := "" |}.

Definition add_trace (fig : Figure) (t : trace) : Figure :=
  {| traces := traces fig ++ [t]; height := height fig; title := title fig; barmode := barmode fig |}.

(** [lambda x: f"{x:.2%}"] *)
Definition percent_text (v : value) : result value :=
  match v with
  | VInt n => inr (VStr (format_percent (float_of_Z n)))
  | VFloat x => inr (VStr (format_percent x))
  | VStr s => inl (ValueError s)
  end.

(** The figure that [fig.show()] renders, or the exception raised on the
    way. *)
Definition plot_dashboard (df : DataFrame) : result Figure :=
  patient_df ← aggregate_patient_level df;
  let fig := make_subplots in
  (* ICU by age group *)
  r ← frame_getitem patient_df (VStr "age_group");
  c ← frame_getitem patient_df (VStr "ICU");
  freq_age_group ← reset_index (crosstab (VStr "age_group") r c);
  x1 ← frame_getitem freq_age_group (VStr "age_group");
  y1 ← frame_getitem freq_age_group (VInt 0);
  t1 ← frame_getitem freq_age_group (VInt 0);
  let fig := add_trace fig
    {| kind := Bar; subplot := 1; name := "ICU = No"; x := x1; y := y1; text := t1 |} in
  x2 ← frame_getitem freq_age_group (VStr "age_group");
  y2 ← frame_getitem freq_age_group (VInt 1);
  t2 ← frame_getitem freq_age_group (VInt 1);
  let fig := add_trace fig
    {| kind := Bar; subplot := 1; name := "ICU = Yes"; x := x2; y := y2; text := t2 |} in
  (* ICU by age *)
  r ← frame_getitem patient_df (VStr "age");
  c ← frame_getitem patient_df (VStr "ICU");
  freq_age ← reset_index (crosstab (VStr "age") r c);
  x3 ← frame_getitem freq_age (VStr "age");
  y3 ← frame_getitem freq_age (VInt 1);
  t3 ← frame_getitem freq_age (VInt 1);
  let fig := add_trace fig
    {| kind := Bar; subplot := 2; name := "ICU Yes by Age"; x := x3; y := y3; text := t3 |} in
  (* ICU rate by window *)
  g ← DataFrame_groupby df (VStr "WINDOW");
  m ← GroupBy_mean g (VStr "ICU");
  icu_by_window ← reset_index m;
  x4 ← frame_getitem icu_by_window (VStr "WINDOW");
  y4 ← frame_getitem icu_by_window (VStr "ICU");
  rate ← frame_getitem icu_by_window (VStr "ICU");
  t4 ← Series_apply rate percent_text;
  let fig := add_trace fig
    {| kind := Scatter; subplot := 3; name := "ICU Rate"; x := x4; y := y4; text := t4 |} in
  (* ICU frequency by window *)
  r ← frame_getitem df (VStr "WINDOW");
  c ← frame_getitem df (VStr "ICU");
  freq_window ← reset_index (crosstab (VStr "WINDOW") r c);
  x5 ← frame_getitem freq_window (VStr "WINDOW");
  y5 ← frame_getitem freq_window (VInt 1);
  t5 ← frame_getitem freq_window (VInt 1);
  let fig := add_trace fig
    {| kind := Bar; subplot := 4; name := "ICU Yes"; x := x5; y := y5; text := t5 |} in
  mret {| traces := traces fig; height := 1000;
          title := "COVID-19 ICU Analysis Dashboard"; barmode := "group" |}.

(** ** [load_data] *)

Record request := { url : string; verify : bool; timeout : Z }.

Record response := { status_code : Z; content : string }.

(** The world of [load_data]: the requests sent so far, oldest first, and
    the process-wide switch that silences the insecure-request warning. *)
Record world := { sent : list request; warnings_disabled : bool }.

(** The two requests of [load_data]. *)
Definition verified (u : string) : request := {| url := u; verify := true; timeout := 30 |}.
Definition unverified (u : string) : request := {| url := u; verify := false; timeout := 30 |}.

(** [response.raise_for_status()]: client and server errors raise. *)
Definition raise_for_status (r : response) : result () :=
  if bool_decide (400 ≤ status_code r < 600) then inl (HTTPError (status_code r))
  else inr ().

Section Network.

(** What a request meets, given the requests sent before it: a response,
    or the exception [requests.get] raises. *)
Variable server : list request → request → result response.

(** [pd.read_excel(BytesIO(content))] *)
Variable read_excel : string → result DataFrame.

(** [requests.get(url, verify=..., timeout=...)] *)
Definition requests_get (u : string) (v : bool) (t : Z) : state world response := λ w,
  let rq := {| url := u; verify := v; timeout := t |} in
  (server (sent w) rq,
   {| sent := sent w ++ [rq]; warnings_disabled := warnings_disabled w |}).

(** [urllib3.disable_warnings(InsecureRequestWarning)] *)
Definition disable_warnings : state world () := λ w,
  (inr (), {| sent := sent w; warnings_disabled := true |}).

Definition load_data (u : string) : state world DataFrame :=
  try_except
    (response ← requests_get u true 30;
     lift (raise_for_status response);;
     lift (read_excel (content response)))
    (disable_warnings;;
     response ← requests_get u false 30;
     lift (raise_for_status response);;
     lift (read_excel (content response))).

(** The outcome of one attempt, for a request sent after [before]: the
    table, or the exception of the request, of the status check or of the
    parser. *)
Definition attempt (before : list request) (rq : request) : result DataFrame :=
  response ← server before rq;
  raise_for_status response;;
  read_excel (content response).

(** An attempt fails, as the code has it: the request raises, the status
    is a client or server error, or the content is no spreadsheet. *)
Definition attempt_fails (before : list request) (rq : request) : Prop :=
  match server before rq with
  | inl _ => True
  | inr response =>
      400 ≤ status_code response < 600 ∨ ∃ e, read_excel (content response) = inl e
  end.

(** An attempt fails, in the words of the specification: network error,
    status other than 2xx, or malformed response. *)
Definition get_fails_as_specified (before : list request) (rq : request) : Prop :=
  match server before rq with
  | inl _ => True
  | inr response =>
      ¬ (200 ≤ status_code response < 300) ∨ ∃ e, read_excel (content response) = inl e
  end.

(** The retry, in the words of the specification: a first attempt that
    fails is followed by exactly one more request, sent without
    verification. *)
Definition retries_as_specified (u : string) (w : world) : Prop :=
  get_fails_as_specified (sent w) (verified u) →
  sent (load_data u w).2 = (sent w ++ [verified u; unverified u])%list.

End Network.

(** ** [main]

    The driver of [main.py]: two lines on the standard output around the
    three stages.  An exception of a stage ends the run. *)

Definition DATA_URL : string :=
  "https://raw.githubusercontent.com/mauriciomartins/covid-19-icu-risk-analysis/main/Kaggle_Sirio_Libanes_ICU_Prediction.xlsx".

(** The process that runs [main]: the network, the objects, the lines
    printed and the figures shown, oldest first. *)
Record process := {
  network : world;
  heap : store;
  stdout : list string;
  shown : list Figure;
}.

Definition on_network {A} (m : state world A) : state process A := λ p,
  let '(r, w) := m (network p) in
  (r, {| network := w; heap := heap p; stdout := stdout p; shown := shown p |}).

Definition on_heap {A} (m : M A) : state process A := λ p,
  let '(r, σ) := m (heap p) in
  (r, {| network := network p; heap := σ; stdout := stdout p; shown := shown p |}).

(** [print(line)] *)
Definition print (line : string) : state process () := λ p,
  (inr (), {| network := network p; heap := heap p;
              stdout := stdout p ++ [line]; shown := shown p |}).

(** [fig.show()] *)
Definition Figure_show (fig : Figure) : state process () := λ p,
  (inr (), {| network := network p; heap := heap p;
              stdout := stdout p; shown := shown p ++ [fig] |}).

(** [plot_dashboard(df)] as a call: the table behind the reference is
    read and the figure is shown. *)
Definition call_plot_dashboard (df : ref) : state process () :=
  table ← on_heap (deref df);
  fig ← lift (plot_dashboard table);
  Figure_show fig.

Section Main.

Variable server : list request → request → result response.
Variable read_excel : string → result DataFrame.

(** [load_data(DATA_URL)] as a call: the table read is a new object. *)
Definition call_load_data (u : string) : state process ref :=
  table ← on_network (load_data server read_excel u);
  on_heap (alloc table).

Definition main : state process () :=
  print "Starting data analysis...";;
  df ← call_load_data DATA_URL;
  df ← on_heap (preprocess_data df);
  call_plot_dashboard df;;
  print "Analysis completed successfully.".

End Main.

(** ** Identifiers

    The identifiers a column holds are the values of its cells that are
    not missing; two cells hold the same identifier when they are equal
    as Python objects. *)

Definition identifiers (s : Series) : list sort_key := omap key_of s.

(** The number of different identifiers in a column. *)
Definition distinct_count (s : Series) : nat := length (remove_dups (identifiers s)).

(** ** Texts that read as numbers

    What [float] needs of a text once [re.sub] has left only digits and
    points: at least one digit and at most one point. *)

Fixpoint count_chars (p : ascii → bool) (s : string) : nat :=
  match s with
  | EmptyString => 0
  | String c s' => (if p c then 1 else 0) + count_chars p s'
  end.

Definition is_point (c : ascii) : bool := bool_decide (c = "."%char).

Definition numeric_text (s : string) : bool :=
  bool_decide (1 ≤ count_chars is_digit s)%nat && bool_decide (count_chars is_point s ≤ 1)%nat.

(** A float that is zero, positive or plus infinity (and so no [nan]). *)
Definition nonnegative (x : float64) : bool :=
  match x with
  | S754_zero false | S754_finite false _ _ | S754_infinity false => true
  | _ => false
  end.

(** ** Columns and counts *)

(** The columns [aggregate_patient_level] reads, which are also the
    columns of its result. *)
Definition required_columns : list value :=
  [VStr "PATIENT_VISIT_IDENTIFIER"; VStr "ICU"; VStr "age_group"; VStr "age"].

(** The number of rows in which the first column reads [a] and the second
    reads [b]. *)
Definition count_rows (r c : Series) (a b : value) : nat :=
  length (filter (λ p, py_eqb p.1 a = true ∧ py_eqb p.2 b = true) (zip r c)).

(** A trace of bars that counts, for every value of [r] (among the rows
    where neither [r] nor [c] is missing, in increasing order), the rows
    where [c] reads [b]; the bars add up to the rows where [r] is not
    missing and [c] reads [b]. *)
Definition counts_bars (t : trace) (r c : Series) (b : value) : Prop :=
  kind t = Bar ∧
  StronglySorted key_lt (identifiers (x t)) ∧
  length (identifiers (x t)) = length (x t) ∧
  (∀ k, k ∈ identifiers (x t) ↔
        ∃ i a w, r !! i = Some a ∧ c !! i = Some w ∧ key_of a = Some k ∧ isna w = false) ∧
  y t = (λ a, VInt (Z.of_nat (count_rows r c a b))) <$> x t ∧
  text t = y t ∧
  sum_list_with (λ a, count_rows r c a b) (x t) =
    length (filter (λ p, isna p.1 = false ∧ py_eqb p.2 b = true) (zip r c)).

(** ** Example tables *)

(** Three observations of two patients, as the spreadsheet has them. *)
Definition observations : DataFrame :=
  {| nrows := 3;
     columns :=
       [ (VStr "PATIENT_VISIT_IDENTIFIER", [VInt 0; VInt 0; VInt 1]);
         (VStr "AGE_ABOVE65", [VInt 1; VInt 1; VInt 0]);
         (VStr "AGE_PERCENTIL", [VStr "60th"; VStr "60th"; VStr "Above 90th"]);
         (VStr "HEART_RATE_MEAN", [VFloat (float_of_Z 1); VFloat nan; VFloat (float_of_Z (-1))]);
         (VStr "HEART_RATE_MAX", [VFloat (float_of_Z 1); VFloat nan; VFloat (float_of_Z (-1))]);
         (VStr "HEART_RATE_DIFF", [VFloat (float_of_Z (-1)); VFloat nan; VFloat (float_of_Z (-1))]);
         (VStr "WINDOW", [VStr "0-2"; VStr "2-4"; VStr "0-2"]);
         (VStr "ICU", [VInt 0; VInt 1; VInt 0]) ] |}.

(** A table without statistical columns, with a banded age and with an
    indicator that is neither 0 nor 1. *)
Definition banded : DataFrame :=
  {| nrows := 2;
     columns :=
       [ (VStr "AGE_ABOVE65", [VInt 0; VInt 2]);
         (VStr "AGE_PERCENTIL", [VStr "60th-70th"; VStr "10th"]) ] |}.

(** A cleaned table: patient A with two windows (ICU 0, then 1), patient B
    with one (ICU 0). *)
Definition two_patients : DataFrame :=
  {| nrows := 3;
     columns :=
       [ (VStr "PATIENT_VISIT_IDENTIFIER", [VStr "A"; VStr "A"; VStr "B"]);
         (VStr "WINDOW", [VStr "0-2"; VStr "2-4"; VStr "0-2"]);
         (VStr "ICU", [VInt 0; VInt 1; VInt 0]);
         (VStr "age_group", [VStr "+65"; VStr "+65"; VStr "<65"]);
         (VStr "age", [VFloat (float_of_Z 60); VFloat (float_of_Z 60); VFloat (float_of_Z 10)]) ] |}.

(** Its patient-level table. *)
Definition two_patients_level : DataFrame :=
  {| nrows := 2;
     columns :=
       [ (VStr "PATIENT_VISIT_IDENTIFIER", [VStr "A"; VStr "B"]);
         (VStr "ICU", [VInt 1; VInt 0]);
         (VStr "age_group", [VStr "+65"; VStr "<65"]);
         (VStr "age", [VFloat (float_of_Z 60); VFloat (float_of_Z 10)]) ] |}.

(** The same observations with the rows of patient B first. *)
Definition two_patients_reordered : DataFrame :=
  {| nrows := 3;
     columns :=
       [ (VStr "PATIENT_VISIT_IDENTIFIER", [VStr "B"; VStr "A"; VStr "A"]);
         (VStr "WINDOW", [VStr "0-2"; VStr "0-2"; VStr "2-4"]);
         (VStr "ICU", [VInt 0; VInt 0; VInt 1]);
         (VStr "age_group", [VStr "<65"; VStr "+65"; VStr "+65"]);
         (VStr "age", [VFloat (float_of_Z 10); VFloat (float_of_Z 60); VFloat (float_of_Z 60)]) ] |}.

(** A store holding the spreadsheet's table and the banded one. *)
Definition example_store : store := {[ 0%nat := observations; 1%nat := banded ]}.

(** A process that has sent nothing yet. *)
Definition fresh_world : world := {| sent := []; warnings_disabled := false |}.

(** A host that cannot be reached. *)
Definition unreachable (before : list request) (rq : request) : result response :=
  inl ConnectionError.

(** A server that answers 300 Multiple Choices with a body. *)
Definition multiple_choices (before : list request) (rq : request) : result response :=
  inr {| status_code := 300; content := "PK" |}.

(** A parser that reads every content as the table [banded]. *)
Definition lenient_reader (content : string) : result DataFrame := inr banded.

(** A cleaned table in which no observation is in intensive care. *)
Definition all_negative : DataFrame :=
  {| nrows := 2;
     columns :=
       [ (VStr "PATIENT_VISIT_IDENTIFIER", [VInt 0; VInt 1]);
         (VStr "WINDOW", [VStr "0-2"; VStr "0-2"]);
         (VStr "ICU", [VInt 0; VInt 0]);
         (VStr "age_group", [VStr "+65"; VStr "<65"]);
         (VStr "age", [VFloat (float_of_Z 60); VFloat (float_of_Z 10)]) ] |}.

(** The figure of [two_patients]. *)
Definition two_patients_dashboard : Figure :=
  {| traces :=
       [ {| kind := Bar; subplot := 1; name := "ICU = No";
            x := [VStr "+65"; VStr "<65"];
            y := [VInt 0; VInt 1]; text := [VInt 0; VInt 1] |};
         {| kind := Bar; subplot := 1; name := "ICU = Yes";
            x := [VStr "+65"; VStr "<65"];
            y := [VInt 1; VInt 0]; text := [VInt 1; VInt 0] |};
         {| kind := Bar; subplot := 2; name := "ICU Yes by Age";
            x := [VFloat (float_of_Z 10); VFloat (float_of_Z 60)];
            y := [VInt 0; VInt 1]; text := [VInt 0; VInt 1] |};
         {| kind := Scatter; subplot := 3; name := "ICU Rate";
            x := [VStr "0-2"; VStr "2-4"];
            y := [VFloat (float_of_Z 0); VFloat (float_of_Z 1)];
            text := [VStr "0.00%"; VStr "100.00%"] |};
         {| kind := Bar; subplot := 4; name := "ICU Yes";
            x := [VStr "0-2"; VStr "2-4"];
            y := [VInt 0; VInt 1]; text := [VInt 0; VInt 1] |} ];
     height := 1000;
     title := "COVID-19 ICU Analysis Dashboard";
     barmode := "group" |}.

(** A server that answers 200 with a body. *)
Definition healthy (before : list request) (rq : request) : result response :=
  inr {| status_code := 200; content := "PK" |}.

(** A host whose certificate is refused and which answers 503 when the
    certificate is not checked. *)
Definition strict (before : list request) (rq : request) : result response :=
  if verify rq then inl ConnectionError
  else inr {| status_code := 503; content := "" |}.

(** A table with a column whose label is a number. *)
Definition unlabelled : DataFrame :=
  {| nrows := 1;
     columns := [ (VInt 0, [VInt 1]); (VStr "AGE_PERCENTIL", [VStr "10th"]) ] |}.

(** A table without the age band. *)
Definition without_percentil : DataFrame :=
  {| nrows := 1; columns := [ (VStr "AGE_ABOVE65", [VInt 1]) ] |}.


(** A table that has an age column already, and a negative number for an
    age band. *)
Definition recleaned : DataFrame :=
  {| nrows := 1;
     columns :=
       [ (VStr "age", [VStr "unknown"]);
         (VStr "AGE_ABOVE65", [VInt 1]);
         (VStr "X_MAX", [VInt 7]);
         (VStr "AGE_PERCENTIL", [VInt (-20)]) ] |}.

(** A cleaned table in which patient 7 has no age in the first window and
    patient 3 no ICU outcome at all. *)
Definition late_age : DataFrame :=
  {| nrows := 3;
     columns :=
       [ (VStr "PATIENT_VISIT_IDENTIFIER", [VInt 7; VInt 3; VInt 7]);
         (VStr "WINDOW", [VStr "0-2"; VStr "0-2"; VStr "2-4"]);
         (VStr "ICU", [VInt 0; VFloat nan; VInt 2]);
         (VStr "age_group", [VFloat nan; VStr "<65"; VStr "+65"]);
         (VStr "age", [VFloat nan; VFloat (float_of_Z 10); VFloat (float_of_Z 60)]) ] |}.

(** Its patient-level table. *)
Definition late_age_level : DataFrame :=
  {| nrows := 2;
     columns :=
       [ (VStr "PATIENT_VISIT_IDENTIFIER", [VInt 3; VInt 7]);
         (VStr "ICU", [VFloat nan; VInt 2]);
         (VStr "age_group", [VStr "<65"; VStr "+65"]);
         (VStr "age", [VFloat (float_of_Z 10); VFloat (float_of_Z 60)]) ] |}.

(** The observations of [two_patients] as a spreadsheet has them. *)
Definition raw_two_patients : DataFrame :=
  {| nrows := 3;
     columns :=
       [ (VStr "PATIENT_VISIT_IDENTIFIER", [VStr "A"; VStr "A"; VStr "B"]);
         (VStr "AGE_ABOVE65", [VInt 1; VInt 1; VInt 0]);
         (VStr "AGE_PERCENTIL", [VStr "60th"; VStr "60th"; VStr "10th"]);
         (VStr "WINDOW", [VStr "0-2"; VStr "2-4"; VStr "0-2"]);
         (VStr "ICU", [VInt 0; VInt 1; VInt 0]) ] |}.

(** A parser that reads every content as [raw_two_patients]. *)
Definition spreadsheet_reader (content : string) : result DataFrame := inr raw_two_patients.

(** A process that has done nothing yet. *)
Definition new_process : process :=
  {| network := fresh_world; heap := ∅; stdout := []; shown := [] |}.

(** * Properties *)

(** ** The model at work *)

Example float_of_digits : py_float "6070" = inr (float_of_Z 6070).
Proof. reflexivity. Qed.

Example float_of_tenth : py_float "0.1" = inr (S754_finite false 7205759403792794 (-56)).
Proof. reflexivity. Qed.

Example float_of_nothing : py_float "" = inl (ValueError "").
Proof. reflexivity. Qed.

Example float_of_two_points : py_float "1.2.3" = inl (ValueError "1.2.3").
Proof. reflexivity. Qed.

Example str_of_tenth : py_str (VFloat (S754_finite false 7205759403792794 (-56))) = "0.1".
Proof. vm_compute. reflexivity. Qed.

Example str_of_small_float : py_str (VFloat (round_decimal 1 5)) = "1e-05".
Proof. vm_compute. reflexivity. Qed.

(** The literal stripping rule on cells that are no band labels. *)
Example age_of_small_float :
  numeric_age (VFloat (round_decimal 1 5)) = inr (VFloat (float_of_Z 105)).
Proof. vm_compute. reflexivity. Qed.

Example age_of_missing : numeric_age (VFloat nan) = inl (ValueError "").
Proof. reflexivity. Qed.

Example percent_of_half : format_percent (round_decimal 5 1) = "50.00%".
Proof. vm_compute. reflexivity. Qed.

Example preprocess_observations :
  preprocess_frame observations =
  inr {| nrows := 3;
         columns :=
           [ (VStr "PATIENT_VISIT_IDENTIFIER", [VInt 0; VInt 0; VInt 1]);
             (VStr "AGE_ABOVE65", [VInt 1; VInt 1; VInt 0]);
             (VStr "AGE_PERCENTIL", [VStr "60th"; VStr "60th"; VStr "Above 90th"]);
             (VStr "HEART_RATE_MEAN",
              [VFloat (float_of_Z 1); VFloat nan; VFloat (float_of_Z (-1))]);
             (VStr "WINDOW", [VStr "0-2"; VStr "2-4"; VStr "0-2"]);
             (VStr "ICU", [VInt 0; VInt 1; VInt 0]);
             (VStr "age_group", [VStr "+65"; VStr "+65"; VStr "<65"]);
             (VStr "age",
              [VFloat (float_of_Z 60); VFloat (float_of_Z 60); VFloat (float_of_Z 90)]) ] |}.
Proof. vm_compute. reflexivity. Qed.

(** A table without the age indicator cannot be cleaned. *)
Example preprocess_without_indicator :
  preprocess_frame two_patients = inl (KeyError (VStr "AGE_ABOVE65")).
Proof. vm_compute. reflexivity. Qed.

(** A table that has not been cleaned cannot be aggregated. *)
Example aggregate_uncleaned :
  aggregate_patient_level observations = inl (KeyError (VStr "age_group")).
Proof. vm_compute. reflexivity. Qed.

Example dashboard_two_patients :
  plot_dashboard two_patients =
  inr {| traces :=
           [ {| kind := Bar; subplot := 1; name := "ICU = No";
                x := [VStr "+65"; VStr "<65"];
                y := [VInt 0; VInt 1]; text := [VInt 0; VInt 1] |};
             {| kind := Bar; subplot := 1; name := "ICU = Yes";
                x := [VStr "+65"; VStr "<65"];
                y := [VInt 1; VInt 0]; text := [VInt 1; VInt 0] |};
             {| kind := Bar; subplot := 2; name := "ICU Yes by Age";
                x := [VFloat (float_of_Z 10); VFloat (float_of_Z 60)];
                y := [VInt 0; VInt 1]; text := [VInt 0; VInt 1] |};
             {| kind := Scatter; subplot := 3; name := "ICU Rate";
                x := [VStr "0-2"; VStr "2-4"];
                y := [VFloat (float_of_Z 0); VFloat (float_of_Z 1)];
                text := [VStr "0.00%"; VStr "100.00%"] |};
             {| kind := Bar; subplot := 4; name := "ICU Yes";
                x := [VStr "0-2"; VStr "2-4"];
                y := [VInt 0; VInt 1]; text := [VInt 0; VInt 1] |} ];
         height := 1000;
         title := "COVID-19 ICU Analysis Dashboard";
         barmode := "group" |}.
Proof. vm_compute. reflexivity. Qed.

(** ** Keys and labels *)

Global Instance key_le_po : PartialOrder key_le.
Proof.
  split; [split|].
  - intros []; simpl; done.
  - intros [] [] []; simpl; try done; by etrans.
  - intros [|p| |s] [|q| |t]; simpl; try done; intros H1 H2; f_equal.
    + by apply (anti_symm Qcle).
    + by apply (anti_symm String.le).
Qed.

Global Instance key_le_total : Total key_le.
Proof. intros [] []; simpl; auto; apply total; apply _. Qed.

Global Instance value_le_trans : Transitive value_le.
Proof.
  intros a b c. unfold value_le.
  destruct (key_of a), (key_of b), (key_of c); try done. by etrans.
Qed.

Global Instance value_le_total : Total value_le.
Proof.
  intros a b. unfold value_le.
  destruct (key_of a), (key_of b); auto. apply total, _.
Qed.

Lemma isna_key_of v : isna v = true ↔ key_of v = None.
Proof. destruct v as [|[]|]; simpl; try destruct s; split; done. Qed.

Lemma isna_false_key_of v : isna v = false ↔ is_Some (key_of v).
Proof.
  rewrite <-not_true_iff_false, isna_key_of, <-not_eq_None_Some. done.
Qed.

Lemma py_eqb_spec a b :
  py_eqb a b = true ↔ ∃ k, key_of a = Some k ∧ key_of b = Some k.
Proof.
  unfold py_eqb. destruct (key_of a) as [ka|], (key_of b) as [kb|];
    rewrite ?bool_decide_eq_true; naive_solver.
Qed.

Lemma label_eqb_spec a b : label_eqb a b = true ↔ key_of a = key_of b.
Proof.
  unfold label_eqb. rewrite orb_true_iff, andb_true_iff, py_eqb_spec, !isna_key_of.
  destruct (key_of a), (key_of b); naive_solver.
Qed.

Lemma label_eqb_refl a : label_eqb a a = true.
Proof. by apply label_eqb_spec. Qed.

Lemma label_eqb_str s t : label_eqb (VStr s) (VStr t) = bool_decide (s = t).
Proof.
  apply eq_true_iff_eq. rewrite label_eqb_spec, bool_decide_eq_true. simpl. naive_solver.
Qed.

Lemma label_in_spec a l : label_in a l = true ↔ ∃ b, b ∈ l ∧ key_of a = key_of b.
Proof.
  unfold label_in. rewrite existsb_exists. setoid_rewrite label_eqb_spec.
  setoid_rewrite <-list_elem_of_In. done.
Qed.

(** ** Running code on the store *)

Lemma run_bind {S A B} (m : state S A) (f : A → state S B) σ :
  (m ≫= f) σ =
  match m σ with
  | (inl e, σ') => (inl e, σ')
  | (inr x, σ') => f x σ'
  end.
Proof. reflexivity. Qed.

Lemma deref_run r d (σ : store) : deref r (<[r:=d]> σ) = (inr d, <[r:=d]> σ).
Proof. unfold deref. by rewrite lookup_insert_eq. Qed.

Lemma DataFrame_copy_run r d (σ : store) :
  σ !! r = Some d →
  DataFrame_copy r σ = (inr (fresh (dom σ)), <[fresh (dom σ):=d]> σ).
Proof. intros H. unfold DataFrame_copy. rewrite run_bind. unfold deref. by rewrite H. Qed.

Lemma DataFrame_columns_run r d (σ : store) :
  DataFrame_columns r (<[r:=d]> σ) = (inr (labels d), <[r:=d]> σ).
Proof. unfold DataFrame_columns. by rewrite run_bind, deref_run. Qed.

Lemma DataFrame_drop_run r d names (σ : store) :
  DataFrame_drop r names (<[r:=d]> σ) = (inr (), <[r:=frame_drop d names]> σ).
Proof.
  unfold DataFrame_drop. rewrite run_bind, deref_run. unfold assign.
  by rewrite insert_insert_eq.
Qed.

Lemma DataFrame_getitem_run r d key (σ : store) :
  DataFrame_getitem r key (<[r:=d]> σ) = (frame_getitem d key, <[r:=d]> σ).
Proof. unfold DataFrame_getitem. by rewrite run_bind, deref_run. Qed.

Lemma DataFrame_setitem_run r d key s (σ : store) :
  DataFrame_setitem r key s (<[r:=d]> σ) = (inr (), <[r:=frame_setitem d key s]> σ).
Proof.
  unfold DataFrame_setitem. rewrite run_bind, deref_run. unfold assign.
  by rewrite insert_insert_eq.
Qed.

Lemma fresh_ref_not_in (σ : store) r : is_Some (σ !! r) → fresh (dom σ) ≠ r.
Proof.
  intros H%elem_of_dom Heq. by apply (is_fresh (dom σ)); rewrite Heq.
Qed.

(** [preprocess_data] works on a new object: it returns its reference,
    holding the table [preprocess_frame] computes; when it raises, the new
    object is left behind, out of reach. *)
Lemma preprocess_data_run r df (σ : store) :
  σ !! r = Some df →
  match preprocess_frame df with
  | inr df' =>
      preprocess_data r σ = (inr (fresh (dom σ)), <[fresh (dom σ):=df']> σ)
  | inl e =>
      ∃ junk, preprocess_data r σ = (inl e, <[fresh (dom σ):=junk]> σ)
  end.
Proof.
  intros H. unfold preprocess_data, preprocess_frame.
  rewrite run_bind, (DataFrame_copy_run _ _ _ H).
  rewrite run_bind, DataFrame_columns_run.
  rewrite run_bind. unfold lift at 1.
  destruct (comprehension col_endswith (labels df)) as [e|remove_cols]; simpl.
  { by eexists. }
  rewrite run_bind, DataFrame_drop_run.
  rewrite run_bind, DataFrame_getitem_run.
  destruct (frame_getitem (frame_drop df remove_cols) _) as [e|above65]; simpl.
  { by eexists. }
  rewrite run_bind, DataFrame_setitem_run.
  rewrite run_bind, DataFrame_getitem_run.
  destruct (frame_getitem (frame_setitem _ _ _) _) as [e|percentil]; simpl.
  { by eexists. }
  rewrite run_bind. unfold lift at 1.
  destruct (Series_apply percentil _) as [e|age]; simpl.
  { by eexists. }
  by rewrite run_bind, DataFrame_setitem_run.
Qed.

(** ** Frames: labels, lookups and updates *)

Lemma filter_ext_elem_of {A} (P Q : A → Prop) `{!∀ x, Decision (P x), !∀ x, Decision (Q x)}
    (l : list A) :
  (∀ x, x ∈ l → P x ↔ Q x) → filter P l = filter Q l.
Proof.
  induction l as [|x l IH]; intros Hext; [done|].
  rewrite !filter_cons, IH by (intros; apply Hext; by right).
  pose proof (Hext x (list_elem_of_here _ _)) as Hx.
  destruct (decide (P x)), (decide (Q x)); tauto || done.
Qed.

Lemma label_in_proper a b l : key_of a = key_of b → label_in a l = label_in b l.
Proof.
  intros H. apply eq_true_iff_eq. rewrite !label_in_spec. by rewrite H.
Qed.

Lemma lookup_label_proper a b cols :
  key_of a = key_of b → lookup_label a cols = lookup_label b cols.
Proof.
  intros H. induction cols as [|[l s] cols IH]; simpl; [done|].
  rewrite IH. destruct (label_eqb a l) eqn:E1, (label_eqb b l) eqn:E2; try done.
  - apply label_eqb_spec in E1. apply not_true_iff_false in E2.
    destruct E2. apply label_eqb_spec. congruence.
  - apply label_eqb_spec in E2. apply not_true_iff_false in E1.
    destruct E1. apply label_eqb_spec. congruence.
Qed.

Lemma lookup_label_Some key cols s :
  lookup_label key cols = Some s → ∃ l, (l, s) ∈ cols ∧ key_of key = key_of l.
Proof.
  induction cols as [|[l t] cols IH]; simpl; [done|].
  destruct (label_eqb key l) eqn:E.
  - intros [= ->]. exists l. split; [left|by apply label_eqb_spec].
  - intros (l' & ? & ?)%IH. exists l'. split; [by right|done].
Qed.

Lemma lookup_label_None key cols :
  lookup_label key cols = None ↔ label_in key cols.*1 = false.
Proof.
  induction cols as [|[l t] cols IH]; simpl; [done|].
  destruct (label_eqb key l); simpl; [done|apply IH].
Qed.

Lemma labels_drop df names :
  labels (frame_drop df names) = filter (λ l, label_in l names = false) (labels df).
Proof.
  unfold labels, frame_drop; simpl. induction (columns df) as [|[l s] cols IH]; [done|].
  rewrite filter_cons. simpl. rewrite filter_cons.
  destruct (decide (label_in l names = false)); simplify_eq/=; by rewrite ?IH.
Qed.

Lemma labels_setitem df key s :
  labels (frame_setitem df key s) =
  if label_in key (labels df) then labels df else (labels df ++ [key])%list.
Proof.
  unfold frame_setitem, labels; simpl. destruct (label_in key (columns df).*1).
  - induction (columns df) as [|[l t] cols IH]; csimpl; [done|].
    rewrite IH. by destruct (label_eqb key l).
  - by rewrite fmap_app.
Qed.

Lemma lookup_label_drop key names df :
  label_in key names = false →
  lookup_label key (columns (frame_drop df names)) = lookup_label key (columns df).
Proof.
  intros H. unfold frame_drop; simpl.
  induction (columns df) as [|[l s] cols IH]; [done|].
  rewrite filter_cons; simpl. destruct (label_eqb key l) eqn:E.
  - apply label_eqb_spec in E. rewrite <-(label_in_proper _ _ _ E), H.
    rewrite decide_True by done. simpl.
    by rewrite (proj2 (label_eqb_spec key l) E).
  - destruct (decide (label_in l names = false)); simpl; by rewrite ?E, IH.
Qed.

Lemma lookup_label_setitem_eq key df s :
  lookup_label key (columns (frame_setitem df key s)) = Some s.
Proof.
  unfold frame_setitem, labels; simpl.
  destruct (label_in key (columns df).*1) eqn:E.
  - induction (columns df) as [|[l t] cols IH]; csimpl in *; [done|].
    destruct (label_eqb key l) eqn:E'; csimpl; rewrite E'; [done|]. by apply IH.
  - induction (columns df) as [|[l t] cols IH]; csimpl in *.
    + by rewrite label_eqb_refl.
    + apply orb_false_iff in E as [E1 E2]. rewrite E1. by apply IH.
Qed.

Lemma lookup_label_setitem_ne key key' df s :
  label_eqb key key' = false →
  lookup_label key (columns (frame_setitem df key' s)) = lookup_label key (columns df).
Proof.
  intros H. unfold frame_setitem, labels; simpl.
  assert (∀ l, label_eqb key' l = true → label_eqb key l = false) as Hne.
  { intros l E. apply not_true_iff_false. intros E'.
    apply not_true_iff_false in H. destruct H.
    apply label_eqb_spec in E, E'. apply label_eqb_spec. congruence. }
  destruct (label_in key' (columns df).*1).
  - induction (columns df) as [|[l t] cols IH]; csimpl; [done|].
    destruct (label_eqb key' l) eqn:E; csimpl.
    + by rewrite (Hne _ E), IH.
    + by rewrite IH.
  - induction (columns df) as [|[l t] cols IH]; csimpl.
    + by rewrite H.
    + by rewrite IH.
Qed.

(** Updating a column leaves the other columns where and as they are. *)
Lemma filter_columns_setitem (Q : value → Prop) `{!∀ l, Decision (Q l)} key df s :
  (∀ l, Q l → label_eqb key l = false) →
  filter (λ c, Q c.1) (columns (frame_setitem df key s)) = filter (λ c, Q c.1) (columns df).
Proof.
  intros HQ. unfold frame_setitem, labels; simpl.
  destruct (label_in key (columns df).*1).
  - induction (columns df) as [|[l t] cols IH]; csimpl; [done|].
    rewrite !filter_cons; simpl. destruct (label_eqb key l) eqn:E; csimpl.
    + rewrite !decide_False, IH; [done|..]; intros HQl; apply HQ in HQl; congruence.
    + by rewrite IH.
  - rewrite filter_app, filter_cons, decide_False; simpl.
    + by rewrite filter_nil, app_nil_r.
    + intros HQl. apply HQ in HQl. by rewrite label_eqb_refl in HQl.
Qed.

(** ** [preprocess_data]: what is computed *)

Lemma re_sub_digits_and_points s :
  re_sub_negated_class non_digit_or_dot "" s = digits_and_points s.
Proof.
  induction s as [|c s IH]; simpl; [done|].
  rewrite orb_false_r, IH. by destruct (is_digit c || bool_decide (c = "."%char)).
Qed.

Lemma comprehension_col_endswith ls rc :
  comprehension col_endswith ls = inr rc →
  Forall (λ l, is_str l = true) ls ∧ rc = filter (λ l, reserved l = true) ls.
Proof.
  revert rc. induction ls as [|l ls IH]; intros rc; simpl.
  { intros [= <-]. by split. }
  destruct l as [n|x|s]; simpl; try done.
  destruct (comprehension col_endswith ls) as [e|rc'] eqn:E; simpl; [done|].
  destruct (IH rc' eq_refl) as [Hs ->]. intros H. split; [by constructor|].
  rewrite filter_cons. case_decide as Hd; simpl in Hd.
  - rewrite Hd in H. by injection H.
  - apply not_true_is_false in Hd. rewrite Hd in H. by injection H.
Qed.

Lemma comprehension_col_endswith_none ls :
  Forall (λ l, is_str l = true ∧ reserved l = false) ls →
  comprehension col_endswith ls = inr [].
Proof.
  induction 1 as [|l ls [Hs Hr] _ IH]; simpl; [done|].
  destruct l as [n|x|s]; try done. simpl in *. by rewrite Hr, IH.
Qed.

(** A string label without reserved suffix is not among the dropped. *)
Lemma not_removed ls rc l :
  comprehension col_endswith ls = inr rc →
  is_str l = true → reserved l = false → label_in l rc = false.
Proof.
  intros [_ ->]%comprehension_col_endswith Hs Hr.
  apply not_true_iff_false. intros (b & [Hb _]%list_elem_of_filter & Hk)%label_in_spec.
  destruct l as [| |s], b as [| |t]; simpl in *; try done.
  simplify_eq. congruence.
Qed.

Lemma frame_drop_nil df : frame_drop df [] = df.
Proof.
  destruct df as [n cols]. unfold frame_drop; simpl. f_equal.
  induction cols as [|c cols IH]; [done|]. by rewrite filter_cons, decide_True, IH.
Qed.

(** After the drop no reserved label is left. *)
Lemma labels_drop_reserved df rc :
  comprehension col_endswith (labels df) = inr rc →
  Forall (λ l, is_str l = true ∧ reserved l = false) (labels (frame_drop df rc)).
Proof.
  intros [Hs ->]%comprehension_col_endswith. rewrite labels_drop.
  apply Forall_forall. intros l [Hl Hin]%list_elem_of_filter.
  split; [by eapply Forall_forall in Hs|].
  apply not_true_iff_false. intros Hr. apply not_true_iff_false in Hl. destruct Hl.
  apply label_in_spec. exists l. split; [|done]. by apply list_elem_of_filter.
Qed.

(** The columns the drop keeps are those without a reserved label. *)
Lemma columns_drop_reserved df rc :
  comprehension col_endswith (labels df) = inr rc →
  columns (frame_drop df rc) = filter (λ c, reserved c.1 = false) (columns df).
Proof.
  intros [Hs ->]%comprehension_col_endswith. unfold frame_drop; simpl.
  apply filter_ext_elem_of. intros c Hc.
  assert (is_str c.1 = true) as Hstr.
  { eapply Forall_forall in Hs; [done|]. unfold labels. by apply list_elem_of_fmap_2. }
  rewrite <-!not_true_iff_false, label_in_spec. split.
  - intros H Hr. apply H. exists c.1. split; [|done].
    apply list_elem_of_filter. split; [done|]. unfold labels. by apply list_elem_of_fmap_2.
  - intros H (b & [Hb Hin]%list_elem_of_filter & Hk). apply H.
    assert (is_str b = true) as Hsb by by eapply Forall_forall in Hs.
    destruct c as [[| |s] t], b as [| |s']; simpl in *; try done. by simplify_eq.
Qed.

Lemma preprocess_frame_inr df df' :
  preprocess_frame df = inr df' →
  ∃ rc above65 percentil age,
    comprehension col_endswith (labels df) = inr rc ∧
    frame_getitem df (VStr "AGE_ABOVE65") = inr above65 ∧
    frame_getitem df (VStr "AGE_PERCENTIL") = inr percentil ∧
    Series_apply percentil numeric_age = inr age ∧
    df' = frame_setitem
            (frame_setitem (frame_drop df rc) (VStr "age_group") (Series_map above65 age_group_dict))
            (VStr "age") age.
Proof.
  unfold preprocess_frame.
  destruct (comprehension col_endswith (labels df)) as [e|rc] eqn:Hrc; simpl; [done|].
  destruct (frame_getitem (frame_drop df rc) _) as [e|above65] eqn:Ha; simpl; [done|].
  destruct (frame_getitem (frame_setitem _ _ _) _) as [e|percentil] eqn:Hp; simpl; [done|].
  destruct (Series_apply percentil _) as [e|age] eqn:Hage; simpl; [done|].
  intros [= <-]. exists rc, above65, percentil, age. split_and!; try done.
  - revert Ha. unfold frame_getitem. rewrite lookup_label_drop; [done|].
    by apply (not_removed _ _ _ Hrc).
  - revert Hp. unfold frame_getitem.
    rewrite lookup_label_setitem_ne by done. rewrite lookup_label_drop; [done|].
    by apply (not_removed _ _ _ Hrc).
Qed.

Lemma preprocess_data_dangling r (σ : store) :
  σ !! r = None → preprocess_data r σ = (inl ReferenceError, σ).
Proof.
  intros H. unfold preprocess_data, DataFrame_copy.
  rewrite !run_bind. unfold deref. by rewrite H.
Qed.

Lemma preprocess_data_inr r r' (σ σ' : store) :
  preprocess_data r σ = (inr r', σ') →
  ∃ df df', σ !! r = Some df ∧ preprocess_frame df = inr df' ∧
            r' = fresh (dom σ) ∧ σ' = <[r':=df']> σ.
Proof.
  intros Hrun. destruct (σ !! r) as [df|] eqn:Hr.
  - pose proof (preprocess_data_run r df σ Hr) as H.
    destruct (preprocess_frame df) as [e|df'] eqn:Hf.
    + destruct H as [junk H]. congruence.
    + exists df, df'. rewrite Hrun in H. injection H as -> ->. by split_and!.
  - rewrite preprocess_data_dangling in Hrun; done.
Qed.

(** ** Well-formed frames *)

Lemma unique_labels_filter (P : value → Prop) `{!∀ l, Decision (P l)} ls :
  unique_labels ls = true → unique_labels (filter P ls) = true.
Proof.
  induction ls as [|l ls IH]; [done|]. simpl.
  intros [Hl Hu]%andb_true_iff. rewrite filter_cons.
  destruct (decide (P l)); simpl; [|by apply IH].
  rewrite IH by done. rewrite andb_true_r.
  apply negb_true_iff, not_true_iff_false. apply negb_true_iff, not_true_iff_false in Hl.
  intros (b & [_ Hb]%list_elem_of_filter & Hk)%label_in_spec.
  apply Hl, label_in_spec. eauto.
Qed.

Lemma unique_labels_snoc ls l :
  unique_labels ls = true → label_in l ls = false → unique_labels (ls ++ [l]) = true.
Proof.
  induction ls as [|a ls IH]; simpl; [done|].
  intros [Ha Hu]%andb_true_iff [Hla Hl]%orb_false_iff.
  rewrite IH by done. rewrite andb_true_r.
  apply negb_true_iff. apply negb_true_iff in Ha.
  unfold label_in in *. rewrite existsb_app, Ha. simpl. rewrite orb_false_r.
  apply not_true_iff_false. intros E. apply not_true_iff_false in Hla. apply Hla.
  apply label_eqb_spec. by apply label_eqb_spec in E.
Qed.

Lemma frame_ok_spec df :
  frame_ok df = true ↔
  unique_labels (labels df) = true ∧ Forall (λ c, length c.2 = nrows df) (columns df).
Proof.
  unfold frame_ok. rewrite andb_true_iff, forallb_forall, Forall_forall.
  setoid_rewrite bool_decide_eq_true. by setoid_rewrite <-list_elem_of_In.
Qed.

Lemma frame_ok_drop df names : frame_ok df = true → frame_ok (frame_drop df names) = true.
Proof.
  rewrite !frame_ok_spec. intros [Hu Hl]. split.
  - rewrite labels_drop. by apply unique_labels_filter.
  - simpl. apply Forall_forall. intros c [_ Hc]%list_elem_of_filter.
    by eapply Forall_forall in Hl.
Qed.

Lemma frame_ok_setitem df key s :
  frame_ok df = true → length s = nrows df → frame_ok (frame_setitem df key s) = true.
Proof.
  rewrite !frame_ok_spec. intros [Hu Hl] Hs. split.
  - rewrite labels_setitem. destruct (label_in key (labels df)) eqn:E; [done|].
    by apply unique_labels_snoc.
  - unfold frame_setitem; simpl. destruct (label_in key (labels df)).
    + apply Forall_fmap. eapply Forall_impl; [done|]. intros [l t] Hc; simpl in *.
      by destruct (label_eqb key l).
    + apply Forall_app. split; [done|]. by constructor.
Qed.

Lemma frame_getitem_length df key s :
  frame_ok df = true → frame_getitem df key = inr s → length s = nrows df.
Proof.
  rewrite frame_ok_spec. intros [_ Hl]. unfold frame_getitem.
  destruct (lookup_label key (columns df)) as [t|] eqn:E; [|done].
  intros [= <-]. apply lookup_label_Some in E as (l & Hin & _).
  rewrite Forall_forall in Hl. by apply (Hl (l, t)).
Qed.

Lemma Series_map_length s d : length (Series_map s d) = length s.
Proof. unfold Series_map. by rewrite length_fmap. Qed.

Lemma Series_map_lookup s d i :
  Series_map s d !! i = (λ v, default (VFloat nan) (dict_get d v)) <$> s !! i.
Proof. unfold Series_map. by rewrite list_lookup_fmap. Qed.

Lemma Series_apply_inr s f r :
  Series_apply s f = inr r → Forall2 (λ v w, f v = inr w) s r.
Proof.
  revert r. induction s as [|v s IH]; intros r; simpl.
  { intros [= <-]. constructor. }
  destruct (f v) as [e|w] eqn:E; simpl; [done|].
  destruct (Series_apply s f) as [e|r'] eqn:E'; simpl; [done|].
  intros [= <-]. constructor; [done|]. by apply IH.
Qed.

Lemma Series_apply_total s f :
  Forall (λ v, ∃ w, f v = inr w) s → ∃ r, Series_apply s f = inr r.
Proof.
  induction 1 as [|v s [w Hw] _ [r IH]]; simpl; [by eexists|].
  rewrite Hw, IH. simpl. by eexists.
Qed.

Lemma label_eqb_sym a b : label_eqb a b = label_eqb b a.
Proof. apply eq_true_iff_eq. rewrite !label_eqb_spec. naive_solver. Qed.

Lemma derived_false l :
  derived l = false ↔
  label_eqb (VStr "age_group") l = false ∧ label_eqb (VStr "age") l = false.
Proof.
  unfold derived, label_in; simpl.
  rewrite orb_false_r, orb_false_iff, (label_eqb_sym l), (label_eqb_sym l). done.
Qed.

Lemma label_in_setitem_same df key s : label_in key (labels (frame_setitem df key s)) = true.
Proof.
  rewrite labels_setitem. destruct (label_in key (labels df)) eqn:E; [done|].
  unfold label_in. rewrite existsb_app. simpl. by rewrite label_eqb_refl, orb_true_r.
Qed.

Lemma label_in_setitem_mono df key key' s :
  label_in key (labels df) = true → label_in key (labels (frame_setitem df key' s)) = true.
Proof.
  intros H. rewrite labels_setitem. destruct (label_in key' (labels df)); [done|].
  unfold label_in in *. by rewrite existsb_app, H.
Qed.

Lemma elem_of_columns_setitem df key s c :
  c ∈ columns (frame_setitem df key s) →
  (label_eqb key c.1 = true ∧ c.2 = s) ∨ (label_eqb key c.1 = false ∧ c ∈ columns df).
Proof.
  unfold frame_setitem; simpl. destruct (label_in key (labels df)) eqn:Hk.
  - intros ([l t] & -> & Hin)%list_elem_of_fmap. simpl.
    destruct (label_eqb key l) eqn:E; simpl; rewrite ?E; auto.
  - intros [Hin|Hin%list_elem_of_singleton]%elem_of_app.
    + right. split; [|done]. apply not_true_iff_false. intros E.
      apply not_true_iff_false in Hk. apply Hk, label_in_spec.
      exists c.1. split; [by apply list_elem_of_fmap_2|]. by apply label_eqb_spec.
    + subst c. left. by rewrite label_eqb_refl.
Qed.

(** Storing again what a column already holds changes nothing. *)
Lemma frame_setitem_id df key s :
  label_in key (labels df) = true →
  (∀ c, c ∈ columns df → label_eqb key c.1 = true → c.2 = s) →
  frame_setitem df key s = df.
Proof.
  intros Hk Hs. destruct df as [n cols]. unfold frame_setitem; simpl in *.
  rewrite Hk. f_equal. clear Hk.
  induction cols as [|[l t] cols IH]; csimpl; [done|].
  rewrite IH by (intros; apply Hs; [by right|done]).
  destruct (label_eqb key l) eqn:E; [|done].
  by rewrite <-(Hs (l, t) (list_elem_of_here _ _) E).
Qed.

Lemma preprocess_frame_idempotent df df' :
  preprocess_frame df = inr df' →
  preprocess_frame df' = inr df'.
Proof.
  intros (rc & above65 & percentil & age & Hrc & Ha & Hp & Hage & ->)%preprocess_frame_inr.
  set (d1 := frame_drop df rc).
  set (d2 := frame_setitem d1 (VStr "age_group") (Series_map above65 age_group_dict)).
  set (d3 := frame_setitem d2 (VStr "age") age).
  assert (lookup_label (VStr "AGE_ABOVE65") (columns d1) = Some above65) as Ha1.
  { unfold d1. rewrite lookup_label_drop.
    - unfold frame_getitem in Ha. by destruct (lookup_label _ (columns df)); simplify_eq.
    - by apply (not_removed _ _ _ Hrc). }
  assert (lookup_label (VStr "AGE_PERCENTIL") (columns d1) = Some percentil) as Hp1.
  { unfold d1. rewrite lookup_label_drop.
    - unfold frame_getitem in Hp. by destruct (lookup_label _ (columns df)); simplify_eq.
    - by apply (not_removed _ _ _ Hrc). }
  assert (Forall (λ l, is_str l = true ∧ reserved l = false) (labels d3)) as Hl3.
  { unfold d3, d2. rewrite !labels_setitem.
    pose proof (labels_drop_reserved df rc Hrc) as Hl1. fold d1 in Hl1.
    repeat case_match; rewrite ?Forall_app, ?Forall_singleton; split_and?; done. }
  assert (frame_getitem d3 (VStr "AGE_ABOVE65") = inr above65) as Ha3.
  { unfold frame_getitem, d3, d2. rewrite !lookup_label_setitem_ne by done. by rewrite Ha1. }
  assert (frame_getitem d3 (VStr "AGE_PERCENTIL") = inr percentil) as Hp3.
  { unfold frame_getitem, d3, d2. rewrite !lookup_label_setitem_ne by done. by rewrite Hp1. }
  assert (frame_setitem d3 (VStr "age_group") (Series_map above65 age_group_dict) = d3) as Hid1.
  { apply frame_setitem_id.
    - apply label_in_setitem_mono, label_in_setitem_same.
    - intros c [[E _]|[_ Hc]]%elem_of_columns_setitem Hg.
      + apply label_eqb_spec in E, Hg. by rewrite <-E in Hg.
      + apply elem_of_columns_setitem in Hc as [[_ ?]|[? _]]; [done|congruence]. }
  assert (frame_setitem d3 (VStr "age") age = d3) as Hid2.
  { apply frame_setitem_id.
    - apply label_in_setitem_same.
    - by intros c [[_ ?]|[? _]]%elem_of_columns_setitem Hg; [|congruence]. }
  unfold preprocess_frame.
  rewrite (comprehension_col_endswith_none _ Hl3). simpl.
  rewrite frame_drop_nil, Ha3. simpl. rewrite Hid1, Hp3. simpl.
  rewrite Hage. simpl. by rewrite Hid2.
Qed.

Lemma preprocess_frame_ok df df' :
  frame_ok df = true → preprocess_frame df = inr df' → frame_ok df' = true.
Proof.
  intros Hok (rc & above65 & percentil & age & Hrc & Ha & Hp & Hage & ->)%preprocess_frame_inr.
  apply frame_ok_setitem; [apply frame_ok_setitem; [by apply frame_ok_drop|]|].
  - rewrite Series_map_length. by apply (frame_getitem_length df (VStr "AGE_ABOVE65")).
  - apply Series_apply_inr, Forall2_length in Hage. rewrite <-Hage.
    by apply (frame_getitem_length df (VStr "AGE_PERCENTIL")).
Qed.

(** ** [preprocess_data]: the claims

    The tables are those of the model: no label twice, one cell per row in
    every column ([frame_ok]). *)

(** C4. The table [preprocess_data] returns has no column whose name ends in
    _DIFF, _MIN, _MAX or _MEDIAN; and a table without any such column is
    processed without error, all its columns kept, whenever the two age
    columns are there and every age text reads as a number. *)
Theorem preprocess_data_drops_reserved (σ : store) r df :
  σ !! r = Some df →
  frame_ok df = true →
  (∀ r' σ', preprocess_data r σ = (inr r', σ') →
     ∃ df', σ' !! r' = Some df' ∧
            Forall (λ l, is_str l = true ∧ reserved l = false) (labels df'))
  ∧
  (Forall (λ l, is_str l = true ∧ reserved l = false) (labels df) →
   ∀ above65 percentil age,
     frame_getitem df (VStr "AGE_ABOVE65") = inr above65 →
     frame_getitem df (VStr "AGE_PERCENTIL") = inr percentil →
     Series_apply percentil numeric_age = inr age →
     ∃ r' σ',
       preprocess_data r σ = (inr r', σ') ∧
       σ' !! r' = Some (frame_setitem
                          (frame_setitem df (VStr "age_group") (Series_map above65 age_group_dict))
                          (VStr "age") age)).
Proof.
  intros Hr _. split.
  - intros r' σ' (df0 & df' & Hr0 & Hf & -> & ->)%preprocess_data_inr.
    exists df'. split; [by rewrite lookup_insert_eq|].
    apply preprocess_frame_inr in Hf as (rc & above65 & percentil & age & Hrc & _ & _ & _ & ->).
    assert (df0 = df) as -> by congruence.
    rewrite !labels_setitem.
    pose proof (labels_drop_reserved df rc Hrc) as Hl1.
    repeat case_match; rewrite ?Forall_app, ?Forall_singleton; split_and?; done.
  - intros Hl above65 percentil age Ha Hp Hage.
    pose proof (preprocess_data_run r df σ Hr) as Hrun.
    unfold preprocess_frame in Hrun.
    rewrite (comprehension_col_endswith_none _ Hl) in Hrun. simpl in Hrun.
    rewrite frame_drop_nil, Ha in Hrun. simpl in Hrun.
    assert (frame_getitem (frame_setitem df (VStr "age_group") (Series_map above65 age_group_dict))
              (VStr "AGE_PERCENTIL") = inr percentil) as Hp'.
    { unfold frame_getitem in *. by rewrite lookup_label_setitem_ne. }
    rewrite Hp' in Hrun. simpl in Hrun. rewrite Hage in Hrun. simpl in Hrun.
    eexists _, _. split; [done|]. by rewrite lookup_insert_eq.
Qed.

(** C7. [preprocess_data] works on a copy: whatever the outcome, every
    object of the store, the table it is given included, is as before.  The
    table it returns is a new object with the same number of rows, and,
    the two derived columns apart, its columns are the columns of the input
    that are not dropped, in the same order and with the same cells; the
    derived columns have one cell per row. *)
Theorem preprocess_data_frame (σ σ' : store) r df res :
  σ !! r = Some df →
  frame_ok df = true →
  preprocess_data r σ = (res, σ') →
  (∀ l, is_Some (σ !! l) → σ' !! l = σ !! l) ∧
  σ' !! r = Some df ∧
  ∀ r', res = inr r' →
    σ !! r' = None ∧
    ∃ df', σ' !! r' = Some df' ∧
      nrows df' = nrows df ∧
      filter (λ c, derived c.1 = false) (columns df') =
        filter (λ c, derived c.1 = false) (filter (λ c, reserved c.1 = false) (columns df)) ∧
      frame_ok df' = true.
Proof.
  intros Hr Hok Hrun.
  pose proof (preprocess_data_run r df σ Hr) as H.
  assert (σ !! fresh (dom σ) = None) as Hfresh.
  { apply not_elem_of_dom, is_fresh. }
  assert (∃ d, σ' = <[fresh (dom σ):=d]> σ) as [d Hσ'].
  { destruct (preprocess_frame df) as [e|df'].
    - destruct H as [junk H]. exists junk. congruence.
    - exists df'. congruence. }
  assert (∀ l, is_Some (σ !! l) → σ' !! l = σ !! l) as Hsame.
  { intros l Hl. subst σ'. apply lookup_insert_ne. by apply fresh_ref_not_in. }
  split_and!; [done|by rewrite Hsame, Hr|].
  intros r' ->.
  destruct (preprocess_frame df) as [e|df'] eqn:Hf.
  { destruct H as [junk H]. congruence. }
  rewrite Hrun in H. injection H as -> ->. split; [done|].
  exists df'. split; [by rewrite lookup_insert_eq|].
  pose proof (preprocess_frame_ok _ _ Hok Hf) as Hok'.
  apply preprocess_frame_inr in Hf as (rc & above65 & percentil & age & Hrc & Ha & Hp & Hage & ->).
  split_and!.
  - done.
  - assert (∀ l, derived l = false → label_eqb (VStr "age") l = false) as H1
      by by intros l [_ ?]%derived_false.
    assert (∀ l, derived l = false → label_eqb (VStr "age_group") l = false) as H2
      by by intros l [? _]%derived_false.
    etrans; [exact (filter_columns_setitem (λ l, derived l = false) _ _ _ H1)|].
    etrans; [exact (filter_columns_setitem (λ l, derived l = false) _ _ _ H2)|].
    by rewrite (columns_drop_reserved _ _ Hrc).
  - done.
Qed.

Lemma numeric_age_inr x w :
  numeric_age x = inr w →
  ∃ f, py_float (digits_and_points (py_str x)) = inr f ∧ w = VFloat f.
Proof.
  unfold numeric_age. rewrite re_sub_digits_and_points.
  destruct (py_float _) as [e|f]; simpl; [done|]. intros [= <-]. by exists f.
Qed.

(** C3. In every row the derived age is the float read from the text of
    AGE_PERCENTIL once every character other than a digit or the decimal
    point is removed; a cell "60th-70th" gives the age 6070.0. *)
Theorem preprocess_data_age (σ σ' : store) r r' df :
  σ !! r = Some df →
  frame_ok df = true →
  preprocess_data r σ = (inr r', σ') →
  ∃ df' percentil age,
    σ' !! r' = Some df' ∧
    frame_getitem df (VStr "AGE_PERCENTIL") = inr percentil ∧
    frame_getitem df' (VStr "age") = inr age ∧
    (∀ i, (i < nrows df)%nat →
       ∃ x f, percentil !! i = Some x ∧ age !! i = Some (VFloat f) ∧
              py_float (digits_and_points (py_str x)) = inr f) ∧
    (∀ i, percentil !! i = Some (VStr "60th-70th") →
          age !! i = Some (VFloat (float_of_Z 6070))).
Proof.
  intros Hr Hok (df0 & df' & Hr0 & Hf & -> & ->)%preprocess_data_inr.
  assert (df0 = df) as -> by congruence.
  apply preprocess_frame_inr in Hf as (rc & above65 & percentil & age & Hrc & Ha & Hp & Hage & ->).
  eexists _, percentil, age. split_and!.
  - by rewrite lookup_insert_eq.
  - done.
  - unfold frame_getitem. by rewrite lookup_label_setitem_eq.
  - intros i Hi. apply Series_apply_inr in Hage.
    rewrite <-(frame_getitem_length _ _ _ Hok Hp) in Hi.
    apply lookup_lt_is_Some_2 in Hi as [x Hx].
    destruct (Forall2_lookup_l _ _ _ _ _ Hage Hx) as (w & Hw & Hxw).
    apply numeric_age_inr in Hxw as (f & Hf & ->). by exists x, f.
  - intros i Hx. apply Series_apply_inr in Hage.
    destruct (Forall2_lookup_l _ _ _ _ _ Hage Hx) as (w & Hw & Hxw).
    rewrite Hw. f_equal. by vm_compute in Hxw; simplify_eq.
Qed.

(** C5. In every row the derived age group is "+65" when AGE_ABOVE65 equals
    1, "<65" when it equals 0, and missing for every other value. *)
Theorem preprocess_data_age_group (σ σ' : store) r r' df :
  σ !! r = Some df →
  frame_ok df = true →
  preprocess_data r σ = (inr r', σ') →
  ∃ df' above65 group,
    σ' !! r' = Some df' ∧
    frame_getitem df (VStr "AGE_ABOVE65") = inr above65 ∧
    frame_getitem df' (VStr "age_group") = inr group ∧
    ∀ i, (i < nrows df)%nat →
      ∃ x g, above65 !! i = Some x ∧ group !! i = Some g ∧
        (py_eqb x (VInt 1) = true → g = VStr "+65") ∧
        (py_eqb x (VInt 0) = true → g = VStr "<65") ∧
        (py_eqb x (VInt 1) = false → py_eqb x (VInt 0) = false → g = VFloat nan).
Proof.
  intros Hr Hok (df0 & df' & Hr0 & Hf & -> & ->)%preprocess_data_inr.
  assert (df0 = df) as -> by congruence.
  apply preprocess_frame_inr in Hf as (rc & above65 & percentil & age & Hrc & Ha & Hp & Hage & ->).
  eexists _, above65, (Series_map above65 age_group_dict). split_and!.
  - by rewrite lookup_insert_eq.
  - done.
  - unfold frame_getitem.
    by rewrite lookup_label_setitem_ne, lookup_label_setitem_eq.
  - intros i Hi. rewrite <-(frame_getitem_length _ _ _ Hok Ha) in Hi.
    apply lookup_lt_is_Some_2 in Hi as [x Hx].
    exists x, (default (VFloat nan) (dict_get age_group_dict x)).
    split_and!; [done|by rewrite Series_map_lookup, Hx|..]; simpl.
    + by intros ->.
    + intros H0. destruct (py_eqb x (VInt 1)) eqn:H1; [|by rewrite H0].
      apply py_eqb_spec in H0 as (k0 & Hk0 & ?), H1 as (k1 & Hk1 & ?).
      simpl in *. by simplify_eq.
    + by intros -> ->.
Qed.

(** C8. Running [preprocess_data] on the table it has returned raises no
    error and gives, as one more new object, a table equal to that one:
    the derived columns are overwritten in place, not added again, so that
    no label occurs twice. *)
Theorem preprocess_data_twice (σ σ1 : store) r r1 df :
  σ !! r = Some df →
  frame_ok df = true →
  preprocess_data r σ = (inr r1, σ1) →
  ∃ r2 σ2 df1,
    preprocess_data r1 σ1 = (inr r2, σ2) ∧
    r2 ≠ r1 ∧
    σ1 !! r1 = Some df1 ∧
    σ2 !! r1 = Some df1 ∧
    σ2 !! r2 = Some df1 ∧
    frame_ok df1 = true.
Proof.
  intros Hr0 Hok (df0 & df1 & Hr & Hf & -> & ->)%preprocess_data_inr.
  assert (df0 = df) as -> by congruence.
  pose proof (preprocess_frame_ok _ _ Hok Hf) as Hok1.
  set (r1 := fresh (dom σ)). set (σ1 := <[r1:=df1]> σ).
  assert (σ1 !! r1 = Some df1) as Hr1 by apply lookup_insert_eq.
  pose proof (preprocess_data_run r1 df1 σ1 Hr1) as Hrun.
  rewrite (preprocess_frame_idempotent _ _ Hf) in Hrun.
  assert (fresh (dom σ1) ≠ r1) as Hne by by apply fresh_ref_not_in.
  eexists _, _, df1. split_and!; [done..| | |done].
  - by rewrite lookup_insert_ne.
  - by rewrite lookup_insert_eq.
Qed.

Lemma preprocess_data_drops_reserved_witness :
  (∃ df', (preprocess_data 0%nat example_store).2 !! 2%nat = Some df' ∧
          Forall (λ l, is_str l = true ∧ reserved l = false) (labels df')) ∧
  (∃ r' σ', preprocess_data 1%nat example_store = (inr r', σ') ∧ is_Some (σ' !! r')).
Proof.
  split.
  - destruct (preprocess_data_drops_reserved example_store 0%nat observations eq_refl eq_refl)
      as [H _].
    apply H. vm_compute. reflexivity.
  - destruct (preprocess_data_drops_reserved example_store 1%nat banded eq_refl eq_refl)
      as [_ H].
    destruct (H ltac:(repeat constructor) _ _ _ eq_refl eq_refl eq_refl) as (r' & σ' & H1 & H2).
    exists r', σ'. split; [exact H1|]. rewrite H2. eexists. reflexivity.
Defined.

Lemma preprocess_data_frame_witness :
  let σ' := (preprocess_data 0%nat example_store).2 in
  (∀ l, is_Some (example_store !! l) → σ' !! l = example_store !! l) ∧
  σ' !! 0%nat = Some observations ∧
  ∀ r', (inr 2%nat : result ref) = inr r' →
    example_store !! r' = None ∧
    ∃ df', σ' !! r' = Some df' ∧
      nrows df' = nrows observations ∧
      filter (λ c, derived c.1 = false) (columns df') =
        filter (λ c, derived c.1 = false)
          (filter (λ c, reserved c.1 = false) (columns observations)) ∧
      frame_ok df' = true.
Proof.
  apply (preprocess_data_frame example_store _ 0%nat observations (inr 2%nat)).
  - reflexivity.
  - reflexivity.
  - vm_compute. reflexivity.
Defined.

Lemma preprocess_data_age_witness :
  ∃ df' percentil age,
    (preprocess_data 1%nat example_store).2 !! 2%nat = Some df' ∧
    frame_getitem banded (VStr "AGE_PERCENTIL") = inr percentil ∧
    frame_getitem df' (VStr "age") = inr age ∧
    (∀ i, (i < nrows banded)%nat →
       ∃ x f, percentil !! i = Some x ∧ age !! i = Some (VFloat f) ∧
              py_float (digits_and_points (py_str x)) = inr f) ∧
    (∀ i, percentil !! i = Some (VStr "60th-70th") →
          age !! i = Some (VFloat (float_of_Z 6070))).
Proof.
  apply (preprocess_data_age example_store _ 1%nat 2%nat banded).
  - reflexivity.
  - reflexivity.
  - vm_compute. reflexivity.
Defined.

Lemma preprocess_data_age_group_witness :
  ∃ df' above65 group,
    (preprocess_data 1%nat example_store).2 !! 2%nat = Some df' ∧
    frame_getitem banded (VStr "AGE_ABOVE65") = inr above65 ∧
    frame_getitem df' (VStr "age_group") = inr group ∧
    ∀ i, (i < nrows banded)%nat →
      ∃ x g, above65 !! i = Some x ∧ group !! i = Some g ∧
        (py_eqb x (VInt 1) = true → g = VStr "+65") ∧
        (py_eqb x (VInt 0) = true → g = VStr "<65") ∧
        (py_eqb x (VInt 1) = false → py_eqb x (VInt 0) = false → g = VFloat nan).
Proof.
  apply (preprocess_data_age_group example_store _ 1%nat 2%nat banded).
  - reflexivity.
  - reflexivity.
  - vm_compute. reflexivity.
Defined.

Lemma preprocess_data_twice_witness :
  ∃ r2 σ2 df1,
    preprocess_data 2%nat (preprocess_data 0%nat example_store).2 = (inr r2, σ2) ∧
    r2 ≠ 2%nat ∧
    (preprocess_data 0%nat example_store).2 !! 2%nat = Some df1 ∧
    σ2 !! 2%nat = Some df1 ∧
    σ2 !! r2 = Some df1 ∧
    frame_ok df1 = true.
Proof.
  apply (preprocess_data_twice example_store _ 0%nat 2%nat observations).
  - reflexivity.
  - reflexivity.
  - vm_compute. reflexivity.
Defined.

(** ** Group keys *)

Lemma identifiers_dropna s : identifiers (dropna s) = identifiers s.
Proof.
  unfold identifiers, dropna. induction s as [|v s IH]; [done|].
  rewrite filter_cons. destruct (decide (isna v = false)) as [H|H]; csimpl; rewrite IH.
  - done.
  - apply not_false_iff_true, isna_key_of in H. by rewrite H.
Qed.

Lemma dropna_notna s : Forall (λ v, is_Some (key_of v)) (dropna s).
Proof.
  apply Forall_forall. intros v [H _]%list_elem_of_filter. by apply isna_false_key_of.
Qed.

Lemma identifiers_length s :
  Forall (λ v, is_Some (key_of v)) s → length (identifiers s) = length s.
Proof.
  unfold identifiers. induction 1 as [|v s [k Hk] _ IH]; csimpl; [done|].
  rewrite Hk. simpl. by rewrite IH.
Qed.

Lemma elem_of_identifiers k s : k ∈ identifiers s ↔ ∃ v, v ∈ s ∧ key_of v = Some k.
Proof. apply list_elem_of_omap. Qed.

Lemma existsb_py_eqb v k seen :
  key_of v = Some k → existsb (py_eqb v) seen = true ↔ k ∈ identifiers seen.
Proof.
  intros Hk. rewrite existsb_exists, elem_of_identifiers.
  setoid_rewrite py_eqb_spec. setoid_rewrite <-list_elem_of_In. naive_solver.
Qed.

Lemma uniques_from_spec seen s :
  Forall (λ v, is_Some (key_of v)) s →
  Forall (λ v, is_Some (key_of v)) (uniques_from seen s) ∧
  NoDup (identifiers (uniques_from seen s)) ∧
  ∀ k, k ∈ identifiers (uniques_from seen s) ↔ k ∈ identifiers s ∧ k ∉ identifiers seen.
Proof.
  intros Hs. revert seen. induction Hs as [|v s [k Hk] _ IH]; intros seen; simpl.
  { split_and!; [constructor|constructor|]. intros k. unfold identifiers; simpl. set_solver. }
  destruct (existsb (py_eqb v) seen) eqn:E.
  - destruct (IH seen) as (H1 & H2 & H3). split_and!; [done..|].
    intros k'. rewrite H3. unfold identifiers at 2; csimpl. rewrite Hk; simpl.
    apply (existsb_py_eqb _ _ _ Hk) in E. fold (identifiers s). set_solver.
  - destruct (IH (v :: seen)) as (H1 & H2 & H3).
    assert (k ∉ identifiers seen) as Hnot.
    { rewrite <-(existsb_py_eqb _ _ _ Hk). by rewrite E. }
    unfold identifiers in *; csimpl in *. rewrite Hk in *; simpl in *.
    split_and!.
    + by constructor.
    + constructor; [|done]. rewrite H3. set_solver.
    + intros k'. rewrite !elem_of_cons, H3, elem_of_cons.
      destruct (decide (k' = k)) as [->|]; naive_solver.
Qed.

Lemma group_keys_spec ids :
  Forall (λ v, is_Some (key_of v)) (group_keys ids) ∧
  NoDup (identifiers (group_keys ids)) ∧
  (∀ k, k ∈ identifiers (group_keys ids) ↔ k ∈ identifiers ids) ∧
  StronglySorted value_le (group_keys ids).
Proof.
  unfold group_keys, uniques.
  destruct (uniques_from_spec [] (dropna ids) (dropna_notna ids)) as (H1 & H2 & H3).
  pose proof (merge_sort_Permutation value_le (uniques_from [] (dropna ids))) as Hp.
  split_and!.
  - by rewrite Hp.
  - unfold identifiers in *. by rewrite Hp.
  - intros k. unfold identifiers in *. rewrite Hp, H3.
    fold (identifiers (dropna ids)). rewrite identifiers_dropna. set_solver.
  - apply StronglySorted_merge_sort; apply _.
Qed.

Lemma group_keys_length ids : length (group_keys ids) = distinct_count ids.
Proof.
  destruct (group_keys_spec ids) as (H1 & H2 & H3 & _).
  rewrite <-(identifiers_length _ H1). unfold distinct_count.
  apply Permutation_length, NoDup_Permutation; [done|apply NoDup_remove_dups|].
  intros k. by rewrite H3, elem_of_remove_dups.
Qed.

Lemma filter_key_none (s : Series) k :
  k ∉ identifiers s → filter (λ v, key_of v = Some k) s = [].
Proof.
  intros Hk. destruct (filter _ s) as [|v l] eqn:E; [done|]. exfalso.
  assert (v ∈ filter (λ v, key_of v = Some k) s) as [Hv Hin]%list_elem_of_filter
    by (rewrite E; left).
  apply Hk, elem_of_identifiers. eauto.
Qed.

Lemma filter_key_once (s : Series) k :
  NoDup (identifiers s) → k ∈ identifiers s →
  length (filter (λ v, key_of v = Some k) s) = 1%nat.
Proof.
  induction s as [|v s IH]; [by intros _ ?%elem_of_nil|].
  unfold identifiers in *; csimpl. rewrite filter_cons.
  destruct (key_of v) as [k'|] eqn:Hk; simpl.
  - intros [Hnot Hnd]%NoDup_cons [->|Hin]%elem_of_cons.
    + rewrite decide_True by done. simpl. by rewrite filter_key_none.
    + rewrite decide_False; [by apply IH|]. intros [= ->]. done.
  - intros Hnd Hin. by apply IH.
Qed.

(** Strictly increasing identifiers: what a sorted column without repeated
    identifiers amounts to. *)
Lemma StronglySorted_identifiers (s : Series) :
  Forall (λ v, is_Some (key_of v)) s →
  NoDup (identifiers s) →
  StronglySorted value_le s →
  StronglySorted key_lt (identifiers s).
Proof.
  unfold identifiers. induction 1 as [|v s [k Hk] Hs IH]; csimpl; [constructor|].
  rewrite Hk; simpl. intros [Hnot Hnd]%NoDup_cons Hsorted.
  apply StronglySorted_inv in Hsorted as [Hsorted Hall].
  constructor; [by apply IH|].
  apply Forall_forall. intros k' Hin. split.
  - apply list_elem_of_omap in Hin as (w & Hw & Hkw).
    rewrite Forall_forall in Hall. specialize (Hall w Hw).
    unfold value_le in Hall. by rewrite Hk, Hkw in Hall.
  - by intros ->.
Qed.

(** ** Aggregation *)

Lemma traverse_fmap {A B} (g : A → B) (l : list A) :
  traverse (λ x, inr (g x)) l = inr (g <$> l).
Proof. induction l as [|x l IH]; simpl; [done|]. by rewrite IH. Qed.

Lemma traverse_inr {A B} (f : A → result B) (l : list A) r :
  traverse f l = inr r → Forall2 (λ x y, f x = inr y) l r.
Proof.
  revert r. induction l as [|x l IH]; intros r; simpl.
  { intros [= <-]. constructor. }
  destruct (f x) as [e|y] eqn:E; simpl; [done|].
  destruct (traverse f l) as [e|r'] eqn:E'; simpl; [done|].
  intros [= <-]. constructor; [done|]. by apply IH.
Qed.

Lemma traverse_total {A B} (f : A → result B) (l : list A) :
  Forall (λ x, ∃ y, f x = inr y) l → ∃ r, traverse f l = inr r.
Proof.
  induction 1 as [|x l [y Hy] _ [r IH]]; simpl; [by eexists|].
  rewrite Hy; simpl. rewrite IH; simpl. by eexists.
Qed.

Lemma frame_getitem_drop df names key :
  label_in key names = false →
  frame_getitem (frame_drop df names) key = frame_getitem df key.
Proof. intros H. unfold frame_getitem. by rewrite lookup_label_drop. Qed.

Arguments group_keys : simpl never.
Arguments group_cells : simpl never.
Arguments agg_max : simpl never.
Arguments agg_first : simpl never.

Lemma aggregate_patient_level_eq df ids icu ag age :
  frame_getitem df (VStr "PATIENT_VISIT_IDENTIFIER") = inr ids →
  frame_getitem df (VStr "ICU") = inr icu →
  frame_getitem df (VStr "age_group") = inr ag →
  frame_getitem df (VStr "age") = inr age →
  aggregate_patient_level df =
    (icu_max ← traverse (λ k, agg_max (group_cells ids k icu)) (group_keys ids);
     mret (patient_table ids icu_max ag age)).
Proof.
  intros Hids Hicu Hag Hage.
  unfold aggregate_patient_level, DataFrame_groupby. rewrite Hids. simpl.
  unfold GroupBy_agg. csimpl.
  rewrite !frame_getitem_drop by done. rewrite Hicu, Hag, Hage. csimpl.
  rewrite !traverse_fmap.
  destruct (traverse _ (group_keys ids)) as [e|icu_max]; simpl; [done|].
  reflexivity.
Qed.

Lemma aggregate_patient_level_inr df out :
  aggregate_patient_level df = inr out →
  ∃ ids icu ag age icu_max,
    frame_getitem df (VStr "PATIENT_VISIT_IDENTIFIER") = inr ids ∧
    frame_getitem df (VStr "ICU") = inr icu ∧
    frame_getitem df (VStr "age_group") = inr ag ∧
    frame_getitem df (VStr "age") = inr age ∧
    traverse (λ k, agg_max (group_cells ids k icu)) (group_keys ids) = inr icu_max ∧
    out = patient_table ids icu_max ag age.
Proof.
  intros H.
  destruct (frame_getitem df (VStr "PATIENT_VISIT_IDENTIFIER")) as [e|ids] eqn:Hids.
  { unfold aggregate_patient_level, DataFrame_groupby in H. by rewrite Hids in H. }
  destruct (frame_getitem df (VStr "ICU")) as [e|icu] eqn:Hicu.
  { unfold aggregate_patient_level, DataFrame_groupby, GroupBy_agg in H.
    rewrite Hids in H. simpl in H. rewrite !frame_getitem_drop, Hicu in H by done. done. }
  destruct (frame_getitem df (VStr "age_group")) as [e|ag] eqn:Hag.
  { unfold aggregate_patient_level, DataFrame_groupby, GroupBy_agg in H.
    rewrite Hids in H. simpl in H. rewrite !frame_getitem_drop, Hicu, Hag in H by done. done. }
  destruct (frame_getitem df (VStr "age")) as [e|age] eqn:Hage.
  { unfold aggregate_patient_level, DataFrame_groupby, GroupBy_agg in H.
    rewrite Hids in H. simpl in H.
    rewrite !frame_getitem_drop, Hicu, Hag, Hage in H by done. done. }
  rewrite (aggregate_patient_level_eq df ids icu ag age) in H by done.
  destruct (traverse _ (group_keys ids)) as [e|icu_max] eqn:Hmax; simpl in H; [done|].
  injection H as <-. by exists ids, icu, ag, age, icu_max.
Qed.

Lemma uniques_from_subseteq seen s v : v ∈ uniques_from seen s → v ∈ s.
Proof.
  revert seen. induction s as [|w s IH]; intros seen; simpl; [done|].
  destruct (existsb (py_eqb w) seen).
  - intros ?%IH. by right.
  - intros [->|?%IH]%elem_of_cons; [left|by right].
Qed.

Lemma group_keys_subseteq ids v : v ∈ group_keys ids → v ∈ ids.
Proof.
  unfold group_keys, uniques. rewrite merge_sort_Permutation.
  intros Hv%uniques_from_subseteq. by apply list_elem_of_filter in Hv as [_ ?].
Qed.

Lemma group_keys_sorted ids : StronglySorted key_lt (identifiers (group_keys ids)).
Proof.
  destruct (group_keys_spec ids) as (H1 & H2 & _ & H4).
  by apply StronglySorted_identifiers.
Qed.

Lemma StronglySorted_key_lt_le l : StronglySorted key_lt l → StronglySorted key_le l.
Proof.
  induction 1 as [|k l _ IH Hall]; constructor; [done|].
  eapply Forall_impl; [done|]. by intros k' [? _].
Qed.

(** The sorted identifiers of the groups do not depend on the order of the
    rows. *)
Lemma group_keys_Permutation ids ids' :
  ids ≡ₚ ids' → identifiers (group_keys ids) = identifiers (group_keys ids').
Proof.
  intros Hp.
  destruct (group_keys_spec ids) as (_ & Hnd & Hin & _).
  destruct (group_keys_spec ids') as (_ & Hnd' & Hin' & _).
  apply (StronglySorted_unique key_le).
  - apply StronglySorted_key_lt_le, group_keys_sorted.
  - apply StronglySorted_key_lt_le, group_keys_sorted.
  - apply NoDup_Permutation; [done..|]. intros k. rewrite Hin, Hin'.
    unfold identifiers. by rewrite Hp.
Qed.

Lemma elem_of_group_cells ids k s w :
  w ∈ group_cells ids k s ↔
  ∃ i q, ids !! i = Some q ∧ py_eqb q k = true ∧ s !! i = Some w.
Proof.
  unfold group_cells. rewrite list_elem_of_fmap. split.
  - intros ([q w'] & -> & [Hq Hin]%list_elem_of_filter).
    apply list_elem_of_lookup in Hin as [i Hi].
    apply lookup_zip_with_Some in Hi as (q' & w'' & [= <- <-] & ? & ?).
    by exists i, q.
  - intros (i & q & Hq & Hk & Hw). exists (q, w). split; [done|].
    apply list_elem_of_filter. split; [done|].
    apply list_elem_of_lookup. exists i. apply lookup_zip_with_Some. by exists q, w.
Qed.

(** ** The maximum of a group *)

Lemma py_lt_numbers a b :
  is_str a = false → is_str b = false → ∃ c, py_lt a b = inr c.
Proof.
  intros Ha Hb. unfold py_lt. rewrite Ha, Hb. rewrite bool_decide_eq_true_2 by done.
  destruct (key_of a), (key_of b); by eexists.
Qed.

Lemma max_from_numbers cur s :
  is_str cur = false → Forall (λ v, is_str v = false) s →
  ∃ v, max_from cur s = inr v ∧ v ∈ cur :: s.
Proof.
  intros Hcur Hs. revert cur Hcur. induction Hs as [|w s Hw _ IH]; intros cur Hcur; simpl.
  { exists cur. split; [done|left]. }
  destruct (py_lt_numbers cur w Hcur Hw) as [c ->]. simpl.
  destruct (IH (if c then w else cur)) as (v & Hv & Hin); [by destruct c|].
  exists v. split; [done|]. destruct c; set_solver.
Qed.

Lemma agg_max_numbers s :
  Forall (λ v, is_str v = false) s →
  ∃ v, agg_max s = inr v ∧ (v = VFloat nan ∨ v ∈ s).
Proof.
  intros Hs. unfold agg_max.
  assert (Forall (λ v, is_str v = false) (dropna s)) as Hd.
  { apply Forall_forall. intros v [_ Hv]%list_elem_of_filter. by eapply Forall_forall in Hs. }
  destruct (dropna s) as [|w l] eqn:E; [by eexists; split; [|left]|].
  apply Forall_cons in Hd as [Hw Hl].
  destruct (max_from_numbers w l Hw Hl) as (v & Hv & Hin).
  exists v. split; [done|right].
  assert (v ∈ dropna s) as [_ ?]%list_elem_of_filter by by rewrite E. done.
Qed.

Lemma binary_number v : binary v → is_str v = false ∧ isna v = false.
Proof.
  intros [H|H]; apply py_eqb_spec in H as (k & Hk & Hk'); simpl in Hk';
    destruct v as [|[]|]; simpl in *; by simplify_eq.
Qed.

Lemma py_lt_binary a b :
  binary a → binary b →
  py_lt a b = inr (negb (py_eqb a (VInt 1)) && py_eqb b (VInt 1)).
Proof.
  intros Ha Hb.
  destruct (binary_number a Ha) as [Hsa _], (binary_number b Hb) as [Hsb _].
  unfold py_lt. rewrite Hsa, Hsb, bool_decide_eq_true_2 by done.
  assert (key_lt (KNum (Qc_of_Z 0)) (KNum (Qc_of_Z 1))) as H01 by (split; done).
  assert (¬ key_lt (KNum (Qc_of_Z 1)) (KNum (Qc_of_Z 0))) as H10 by (by intros [? _]).
  assert (∀ k, ¬ key_lt k k) as Hirr by (by intros k [_ ?]).
  destruct Ha as [Ha|Ha], Hb as [Hb|Hb];
    pose proof Ha as Ha'; pose proof Hb as Hb';
    apply py_eqb_spec in Ha' as (ka & Hka & Hka'), Hb' as (kb & Hkb & Hkb');
    simpl in Hka', Hkb'; simplify_eq; rewrite Hka, Hkb; f_equal.
  - rewrite bool_decide_eq_false_2 by apply Hirr.
    unfold py_eqb. rewrite Hkb. simpl. by rewrite andb_false_r.
  - rewrite bool_decide_eq_true_2 by done.
    unfold py_eqb. rewrite Hka, Hkb. simpl. done.
  - rewrite bool_decide_eq_false_2 by done.
    unfold py_eqb. rewrite Hka. simpl. done.
  - rewrite bool_decide_eq_false_2 by apply Hirr.
    unfold py_eqb. rewrite Hka. simpl. done.
Qed.

Lemma max_from_binary cur s :
  binary cur → Forall binary s →
  ∃ v, max_from cur s = inr v ∧ binary v ∧
       (py_eqb v (VInt 1) = true ↔
        py_eqb cur (VInt 1) = true ∨ ∃ w, w ∈ s ∧ py_eqb w (VInt 1) = true).
Proof.
  intros Hcur Hs. revert cur Hcur. induction Hs as [|w s Hw _ IH]; intros cur Hcur; simpl.
  { exists cur. split_and!; [done..|]. set_solver. }
  rewrite (py_lt_binary cur w Hcur Hw). simpl.
  destruct (py_eqb cur (VInt 1)) eqn:Ec; simpl.
  - destruct (IH cur Hcur) as (v & Hv & Hb & Hiff). exists v. split_and!; [done..|].
    rewrite Hiff, Ec. set_solver.
  - destruct (py_eqb w (VInt 1)) eqn:Ew.
    + destruct (IH w Hw) as (v & Hv & Hb & Hiff). exists v. split_and!; [done..|].
      rewrite Hiff, Ew. set_solver.
    + destruct (IH cur Hcur) as (v & Hv & Hb & Hiff). exists v. split_and!; [done..|].
      rewrite Hiff, Ec. split; [set_solver|].
      intros [?|(w' & [->|?]%elem_of_cons & ?)]; [done|congruence|eauto].
Qed.

Lemma dropna_binary s : Forall binary s → dropna s = s.
Proof.
  induction 1 as [|v s Hv _ IH]; [done|]. unfold dropna in *.
  rewrite filter_cons, decide_True, IH; [done|]. by apply binary_number.
Qed.

Lemma agg_max_binary s :
  s ≠ [] → Forall binary s →
  ∃ v, agg_max s = inr v ∧ binary v ∧
       (py_eqb v (VInt 1) = true ↔ ∃ w, w ∈ s ∧ py_eqb w (VInt 1) = true).
Proof.
  intros Hne Hs. unfold agg_max. rewrite (dropna_binary s Hs).
  destruct Hs as [|w s Hw Hs]; [done|].
  destruct (max_from_binary w s Hw Hs) as (v & Hv & Hb & Hiff).
  exists v. split_and!; [done..|]. rewrite Hiff. set_solver.
Qed.

Lemma patient_table_identifiers ids icu_max ag age :
  frame_getitem (patient_table ids icu_max ag age) (VStr "PATIENT_VISIT_IDENTIFIER")
  = inr (group_keys ids).
Proof. reflexivity. Qed.

Lemma patient_table_icu ids icu_max ag age :
  frame_getitem (patient_table ids icu_max ag age) (VStr "ICU") = inr icu_max.
Proof. reflexivity. Qed.

(** Aggregation returns whenever the four columns are there and ICU holds
    no text. *)
Lemma aggregate_patient_level_total df ids icu ag age :
  frame_getitem df (VStr "PATIENT_VISIT_IDENTIFIER") = inr ids →
  frame_getitem df (VStr "ICU") = inr icu →
  frame_getitem df (VStr "age_group") = inr ag →
  frame_getitem df (VStr "age") = inr age →
  Forall (λ v, is_str v = false) icu →
  ∃ icu_max,
    aggregate_patient_level df = inr (patient_table ids icu_max ag age) ∧
    Forall2 (λ k v, agg_max (group_cells ids k icu) = inr v) (group_keys ids) icu_max.
Proof.
  intros Hids Hicu Hag Hage Hnum.
  rewrite (aggregate_patient_level_eq df ids icu ag age) by done.
  destruct (traverse_total (λ k, agg_max (group_cells ids k icu)) (group_keys ids))
    as [icu_max Hmax].
  { apply Forall_forall. intros k _.
    destruct (agg_max_numbers (group_cells ids k icu)) as (v & Hv & _); [|by exists v].
    apply Forall_forall. intros w (i & q & _ & _ & Hw)%elem_of_group_cells.
    rewrite Forall_forall in Hnum. apply Hnum. by eapply list_elem_of_lookup_2. }
  exists icu_max. rewrite Hmax. split; [done|]. by apply traverse_inr.
Qed.

(** ** [aggregate_patient_level]: the claims *)

(** C1. On a cleaned table whose ICU cells read 0 or 1, the patient-level
    ICU of a patient reads 1 exactly when one of the patient's rows has
    ICU equal to 1 (and reads 0 otherwise); the table of patient A (ICU 0,
    then 1) and patient B (ICU 0) aggregates to the two rows A, 1 and
    B, 0. *)
Theorem aggregate_patient_level_icu_any df ids icu ag age :
  frame_ok df = true →
  frame_getitem df (VStr "PATIENT_VISIT_IDENTIFIER") = inr ids →
  frame_getitem df (VStr "ICU") = inr icu →
  frame_getitem df (VStr "age_group") = inr ag →
  frame_getitem df (VStr "age") = inr age →
  Forall binary icu →
  (∃ out oids oicu,
     aggregate_patient_level df = inr out ∧
     frame_getitem out (VStr "PATIENT_VISIT_IDENTIFIER") = inr oids ∧
     frame_getitem out (VStr "ICU") = inr oicu ∧
     ∀ j p, oids !! j = Some p →
       ∃ v, oicu !! j = Some v ∧ binary v ∧
         (py_eqb v (VInt 1) = true ↔
          ∃ i q w, ids !! i = Some q ∧ py_eqb q p = true ∧
                   icu !! i = Some w ∧ py_eqb w (VInt 1) = true))
  ∧ aggregate_patient_level two_patients = inr two_patients_level.
Proof.
  intros Hok Hids Hicu Hag Hage Hbin. split; [|by vm_compute].
  destruct (aggregate_patient_level_total df ids icu ag age) as (icu_max & Hout & Hmax);
    [done..| |].
  { eapply Forall_impl; [done|]. by intros v [? _]%binary_number. }
  exists (patient_table ids icu_max ag age), (group_keys ids), icu_max.
  split_and!; [done..|]. intros j p Hp.
  destruct (Forall2_lookup_l _ _ _ _ _ Hmax Hp) as (v & Hv & Hagg).
  (* the group of [p] has a row *)
  assert (p ∈ ids) as [i Hi]%list_elem_of_lookup.
  { apply group_keys_subseteq. by eapply list_elem_of_lookup_2. }
  assert (is_Some (key_of p)) as [k Hk].
  { destruct (group_keys_spec ids) as (Hall & _). rewrite Forall_forall in Hall.
    apply Hall. by eapply list_elem_of_lookup_2. }
  assert (is_Some (icu !! i)) as [w Hw].
  { apply lookup_lt_is_Some_2.
    rewrite (frame_getitem_length _ _ _ Hok Hicu), <-(frame_getitem_length _ _ _ Hok Hids).
    by eapply lookup_lt_Some. }
  destruct (agg_max_binary (group_cells ids p icu)) as (v' & Hv' & Hb & Hiff).
  - assert (w ∈ group_cells ids p icu) as Hin; [|by intros E; rewrite E in Hin; inversion Hin].
    apply elem_of_group_cells. exists i, p. split_and!; [done| |done].
    apply py_eqb_spec. eauto.
  - apply Forall_forall. intros w' (i' & q & _ & _ & Hw')%elem_of_group_cells.
    rewrite Forall_forall in Hbin. apply Hbin. by eapply list_elem_of_lookup_2.
  - assert (v' = v) as -> by congruence.
    exists v. split_and!; [done..|]. rewrite Hiff. split.
    + intros (w' & (i' & q & ? & ? & ?)%elem_of_group_cells & ?). by exists i', q, w'.
    + intros (i' & q & w' & ? & ? & ? & ?). exists w'. split; [|done].
      apply elem_of_group_cells. by exists i', q.
Qed.

Lemma aggregate_patient_level_icu_any_witness :
  (∃ out oids oicu,
     aggregate_patient_level two_patients = inr out ∧
     frame_getitem out (VStr "PATIENT_VISIT_IDENTIFIER") = inr oids ∧
     frame_getitem out (VStr "ICU") = inr oicu ∧
     ∀ j p, oids !! j = Some p →
       ∃ v, oicu !! j = Some v ∧ binary v ∧
         (py_eqb v (VInt 1) = true ↔
          ∃ i q w, [VStr "A"; VStr "A"; VStr "B"] !! i = Some q ∧ py_eqb q p = true ∧
                   [VInt 0; VInt 1; VInt 0] !! i = Some w ∧ py_eqb w (VInt 1) = true))
  ∧ aggregate_patient_level two_patients = inr two_patients_level.
Proof.
  apply (aggregate_patient_level_icu_any two_patients _ _
           [VStr "+65"; VStr "+65"; VStr "<65"]
           [VFloat (float_of_Z 60); VFloat (float_of_Z 60); VFloat (float_of_Z 10)]);
    try reflexivity.
  repeat first
    [ apply Forall_nil_2
    | apply Forall_cons_2; [first [left; reflexivity | right; reflexivity]|] ].
Defined.

(** C2. The patient-level table has as many rows as the input has
    different patient identifiers, and each of these identifiers is in
    exactly one of its rows (and no other identifier is in any). *)
Theorem aggregate_patient_level_one_row_per_patient df out :
  frame_ok df = true →
  aggregate_patient_level df = inr out →
  ∃ ids oids,
    frame_getitem df (VStr "PATIENT_VISIT_IDENTIFIER") = inr ids ∧
    frame_getitem out (VStr "PATIENT_VISIT_IDENTIFIER") = inr oids ∧
    frame_ok out = true ∧
    nrows out = distinct_count ids ∧
    (∀ k, k ∈ identifiers ids → length (filter (λ v, key_of v = Some k) oids) = 1%nat) ∧
    (∀ v, v ∈ oids → ∃ k, key_of v = Some k ∧ k ∈ identifiers ids).
Proof.
  intros _ (ids & icu & ag & age & icu_max & Hids & _ & _ & _ & Hmax & ->)%aggregate_patient_level_inr.
  destruct (group_keys_spec ids) as (Hall & Hnd & Hin & _).
  exists ids, (group_keys ids). split_and!; [done..| | | |].
  - apply traverse_inr, Forall2_length in Hmax.
    apply frame_ok_spec. split; [done|].
    unfold patient_table; simpl. repeat constructor; simpl; by rewrite ?length_fmap.
  - apply group_keys_length.
  - intros k Hk. apply filter_key_once; [done|]. by apply Hin.
  - intros v Hv. rewrite Forall_forall in Hall. destruct (Hall v Hv) as [k Hk].
    exists k. split; [done|]. apply Hin, elem_of_identifiers. eauto.
Qed.

Lemma aggregate_patient_level_one_row_per_patient_witness :
  ∃ ids oids,
    frame_getitem two_patients (VStr "PATIENT_VISIT_IDENTIFIER") = inr ids ∧
    frame_getitem two_patients_level (VStr "PATIENT_VISIT_IDENTIFIER") = inr oids ∧
    frame_ok two_patients_level = true ∧
    nrows two_patients_level = distinct_count ids ∧
    (∀ k, k ∈ identifiers ids → length (filter (λ v, key_of v = Some k) oids) = 1%nat) ∧
    (∀ v, v ∈ oids → ∃ k, key_of v = Some k ∧ k ∈ identifiers ids).
Proof.
  apply (aggregate_patient_level_one_row_per_patient two_patients two_patients_level).
  - reflexivity.
  - vm_compute. reflexivity.
Defined.

(** C10. The rows of the patient-level table come in strictly increasing
    order of patient identifier, whatever the order of the rows of the
    input: a table with the same identifier cells in another order gives
    the same identifiers in the same order. *)
Theorem aggregate_patient_level_sorted df out :
  frame_ok df = true →
  aggregate_patient_level df = inr out →
  ∃ ids oids,
    frame_getitem df (VStr "PATIENT_VISIT_IDENTIFIER") = inr ids ∧
    frame_getitem out (VStr "PATIENT_VISIT_IDENTIFIER") = inr oids ∧
    length (identifiers oids) = length oids ∧
    StronglySorted key_lt (identifiers oids) ∧
    ∀ df' out' ids',
      frame_getitem df' (VStr "PATIENT_VISIT_IDENTIFIER") = inr ids' →
      ids' ≡ₚ ids →
      aggregate_patient_level df' = inr out' →
      ∃ oids', frame_getitem out' (VStr "PATIENT_VISIT_IDENTIFIER") = inr oids' ∧
               identifiers oids' = identifiers oids.
Proof.
  intros _ (ids & icu & ag & age & icu_max & Hids & _ & _ & _ & Hmax & ->)%aggregate_patient_level_inr.
  destruct (group_keys_spec ids) as (Hall & Hnd & Hin & _).
  exists ids, (group_keys ids). split_and!; [done..| | |].
  - by apply identifiers_length.
  - apply group_keys_sorted.
  - intros df' out' ids' Hids' Hp
      (ids2 & ? & ? & ? & ? & Hids2 & _ & _ & _ & _ & ->)%aggregate_patient_level_inr.
    assert (ids2 = ids') as -> by congruence.
    exists (group_keys ids'). split; [done|]. by apply group_keys_Permutation.
Qed.

Lemma aggregate_patient_level_sorted_witness :
  ∃ ids oids,
    frame_getitem two_patients_reordered (VStr "PATIENT_VISIT_IDENTIFIER") = inr ids ∧
    frame_getitem two_patients_level (VStr "PATIENT_VISIT_IDENTIFIER") = inr oids ∧
    length (identifiers oids) = length oids ∧
    StronglySorted key_lt (identifiers oids) ∧
    ∀ df' out' ids',
      frame_getitem df' (VStr "PATIENT_VISIT_IDENTIFIER") = inr ids' →
      ids' ≡ₚ ids →
      aggregate_patient_level df' = inr out' →
      ∃ oids', frame_getitem out' (VStr "PATIENT_VISIT_IDENTIFIER") = inr oids' ∧
               identifiers oids' = identifiers oids.
Proof.
  apply (aggregate_patient_level_sorted two_patients_reordered two_patients_level).
  - reflexivity.
  - vm_compute. reflexivity.
Defined.

(** ** Cross-tabulation *)

Arguments crosstab : simpl never.
Arguments reset_index : simpl never.
Arguments patient_table : simpl never.

Lemma fmap_fst_labelled {B} (h : value → B) (cs : list value) :
  ((λ c, (c, h c)) <$> cs).*1 = cs.
Proof. induction cs as [|c cs IH]; csimpl; [done|]. by rewrite IH. Qed.

(** The column labels of a cross-tabulation are cells of the column
    series. *)
Lemma crosstab_labels nm r c l :
  l ∈ (body (crosstab nm r c)).*1 → l ∈ c.
Proof.
  unfold crosstab; simpl. rewrite fmap_fst_labelled.
  rewrite merge_sort_Permutation. intros Hl%uniques_from_subseteq.
  apply list_elem_of_fmap in Hl as ([a b] & -> & [_ Hin]%list_elem_of_filter).
  apply list_elem_of_lookup in Hin as [i Hi].
  apply lookup_zip_with_Some in Hi as (a' & b' & [= <- <-] & _ & ?).
  by eapply list_elem_of_lookup_2.
Qed.

Lemma label_in_false key (ls : list value) :
  (∀ l, l ∈ ls → label_eqb key l = false) → label_in key ls = false.
Proof.
  intros H. apply not_true_iff_false. intros (b & Hb & Hk)%label_in_spec.
  specialize (H b Hb). apply not_true_iff_false in H. by apply H, label_eqb_spec.
Qed.

Lemma reset_index_crosstab nm r c :
  (∀ l, l ∈ c → label_eqb nm l = false) →
  reset_index (crosstab nm r c) =
  inr {| nrows := length (index (crosstab nm r c));
         columns := (nm, index (crosstab nm r c)) :: body (crosstab nm r c) |}.
Proof.
  intros H. unfold reset_index.
  rewrite (label_in_false (index_name (crosstab nm r c))); [done|].
  intros l Hl%crosstab_labels. by apply H.
Qed.

Lemma frame_getitem_cons n l s cols key :
  frame_getitem {| nrows := n; columns := (l, s) :: cols |} key =
  if label_eqb key l then inr s else frame_getitem {| nrows := n; columns := cols |} key.
Proof. unfold frame_getitem; simpl. by destruct (label_eqb key l). Qed.

Lemma frame_getitem_absent n cols key :
  (∀ l, l ∈ cols.*1 → label_eqb key l = false) →
  frame_getitem {| nrows := n; columns := cols |} key = inl (KeyError key).
Proof.
  intros H. unfold frame_getitem; simpl.
  by rewrite (proj2 (lookup_label_None key cols) (label_in_false _ _ H)).
Qed.

Lemma frame_getitem_inl df key e : frame_getitem df key = inl e → e = KeyError key.
Proof. unfold frame_getitem. destruct (lookup_label _ _); by intros [=]. Qed.

Lemma label_eqb_int_py_eqb n v : label_eqb (VInt n) v = py_eqb v (VInt n).
Proof.
  apply eq_true_iff_eq. rewrite label_eqb_spec, py_eqb_spec. simpl. naive_solver.
Qed.

(** ** [plot_dashboard]: the claim *)

Arguments aggregate_patient_level : simpl never.

Lemma agg_max_elem s v : agg_max s = inr v → v = VFloat nan ∨ v ∈ s.
Proof.
  unfold agg_max. destruct (dropna s) as [|w l] eqn:E; [intros [= <-]; by left|].
  intros H. right.
  assert (v ∈ w :: l) as Hin.
  { clear E. revert w H. induction l as [|u l IH]; intros w; simpl.
    - intros [= ->]. left.
    - destruct (py_lt w u) as [e|b]; simpl; [done|]. intros Hv%IH.
      destruct b; set_solver. }
  rewrite <-E in Hin. by apply list_elem_of_filter in Hin as [_ ?].
Qed.

(** C9. On a cleaned table whose ICU column holds no text,
    [plot_dashboard] raises a key error, on the label 0 or on the label 1
    of the first cross-tabulation and before anything is shown, when no
    row of the table has ICU equal to 1, and also when no patient of the
    patient-level table has ICU equal to 0. *)
Theorem plot_dashboard_key_error df ids icu ag age :
  frame_ok df = true →
  frame_getitem df (VStr "PATIENT_VISIT_IDENTIFIER") = inr ids →
  frame_getitem df (VStr "ICU") = inr icu →
  frame_getitem df (VStr "age_group") = inr ag →
  frame_getitem df (VStr "age") = inr age →
  Forall (λ v, is_str v = false) icu →
  Forall (λ v, py_eqb v (VInt 1) = false) icu ∨
  (∀ out oicu, aggregate_patient_level df = inr out →
               frame_getitem out (VStr "ICU") = inr oicu →
               Forall (λ v, py_eqb v (VInt 0) = false) oicu) →
  plot_dashboard df = inl (KeyError (VInt 0)) ∨
  plot_dashboard df = inl (KeyError (VInt 1)).
Proof.
  intros _ Hids Hicu Hag Hage Hnum Hcase.
  destruct (aggregate_patient_level_total df ids icu ag age) as (icu_max & Hout & Hmax);
    [done..|].
  assert (∀ v, v ∈ icu_max → v = VFloat nan ∨ v ∈ icu) as Hicu_max.
  { intros v [j Hj]%list_elem_of_lookup.
    destruct (Forall2_lookup_r _ _ _ _ _ Hmax Hj) as (k & _ & Hagg).
    apply agg_max_elem in Hagg as [->|Hin]; [by left|right].
    apply elem_of_group_cells in Hin as (i & q & _ & _ & Hw).
    by eapply list_elem_of_lookup_2. }
  assert (∀ nm l, l ∈ icu_max → label_eqb (VStr nm) l = false) as Hnostr.
  { intros nm l Hl. apply not_true_iff_false. intros E%label_eqb_spec.
    destruct (Hicu_max l Hl) as [->|Hin]; [done|].
    rewrite Forall_forall in Hnum. specialize (Hnum l Hin).
    destruct l as [|[[]|[]| |]|]; by simplify_eq/=. }
  unfold plot_dashboard. rewrite Hout. simpl.
  rewrite (reset_index_crosstab (VStr "age_group")) by apply Hnostr.
  assert (∀ l, l ∈ (body (crosstab (VStr "age_group")
                      ((λ k, agg_first (group_cells ids k ag)) <$> group_keys ids) icu_max)).*1 →
               l ∈ icu_max) as Hlabels by (intros l; apply crosstab_labels).
  remember (crosstab (VStr "age_group") _ icu_max) as t eqn:Ht. clear Ht.
  simpl. rewrite !frame_getitem_cons. simpl.
  destruct Hcase as [Hno1|Hno0].
  - assert (frame_getitem {| nrows := length (index t); columns := body t |} (VInt 1)
            = inl (KeyError (VInt 1))) as H1.
    { apply frame_getitem_absent. intros l Hl%Hlabels. rewrite label_eqb_int_py_eqb.
      destruct (Hicu_max l Hl) as [->|Hin]; [done|].
      rewrite Forall_forall in Hno1. by apply Hno1. }
    destruct (frame_getitem _ (VInt 0)) as [e|y1] eqn:H0; simpl.
    + left. by rewrite (frame_getitem_inl _ _ _ H0).
    + right. by rewrite H1.
  - left. rewrite (frame_getitem_absent _ _ (VInt 0)); [reflexivity|].
    intros l Hl%Hlabels. rewrite label_eqb_int_py_eqb.
    specialize (Hno0 _ icu_max Hout eq_refl). rewrite Forall_forall in Hno0. by apply Hno0.
Qed.

Lemma plot_dashboard_key_error_witness :
  plot_dashboard all_negative = inl (KeyError (VInt 0)) ∨
  plot_dashboard all_negative = inl (KeyError (VInt 1)).
Proof.
  apply (plot_dashboard_key_error all_negative
           [VInt 0; VInt 1] [VInt 0; VInt 0] [VStr "+65"; VStr "<65"]
           [VFloat (float_of_Z 60); VFloat (float_of_Z 10)]); try reflexivity.
  - repeat constructor.
  - left. repeat constructor.
Defined.

(** ** [load_data]: the claim *)

Section NetworkClaims.

Variable server : list request → request → result response.
Variable read_excel : string → result DataFrame.

Lemma attempt_fails_spec before rq :
  attempt_fails server read_excel before rq ↔ ∃ e, attempt server read_excel before rq = inl e.
Proof.
  unfold attempt_fails, attempt. destruct (server before rq) as [e|r]; simpl.
  { split; [by eexists|done]. }
  unfold raise_for_status. case_bool_decide as Hs; simpl.
  - split; [by eexists|by left].
  - split.
    + intros [?|[e He]]; [done|]. rewrite He. by eexists.
    + intros [e He]. right. by exists e.
Qed.

(** C6, as amended. When the first attempt fails (the request raises, the
    status is a 4xx or 5xx, or the content is no spreadsheet), [load_data]
    silences the warning and sends exactly one more request, with
    certificate verification off; its outcome, the table or the error, is
    the outcome of [load_data], and nothing further is sent. *)
Theorem load_data_retries_once u w :
  attempt_fails server read_excel (sent w) (verified u) →
  load_data server read_excel u w =
    (attempt server read_excel (sent w ++ [verified u]) (unverified u),
     {| sent := sent w ++ [verified u; unverified u]; warnings_disabled := true |}).
Proof.
  intros [e He]%attempt_fails_spec. unfold load_data, try_except.
  assert ((response ← requests_get server u true 30;
           lift (raise_for_status response);;
           lift (read_excel (content response))) w
          = (attempt server read_excel (sent w) (verified u),
             {| sent := sent w ++ [verified u]; warnings_disabled := warnings_disabled w |}))
    as ->.
  { rewrite run_bind. unfold requests_get, attempt, verified.
    destruct (server _ _) as [e'|r]; simpl; [done|].
    rewrite run_bind. unfold lift. by destruct (raise_for_status r) as [?|[]]. }
  rewrite He. rewrite run_bind. unfold disable_warnings. simpl.
  rewrite run_bind. unfold requests_get, attempt, unverified. simpl.
  rewrite <-(assoc_L (++)). simpl.
  destruct (server _ _) as [e'|r]; simpl; [done|].
  rewrite run_bind. unfold lift. by destruct (raise_for_status r) as [?|[]].
Qed.

End NetworkClaims.

(** An unreachable host: a fatal error after exactly two requests, the
    first verified, the second not. *)
Lemma load_data_retries_once_witness :
  load_data unreachable lenient_reader "https://example.org/data.xlsx" fresh_world =
    (inl ConnectionError,
     {| sent := [verified "https://example.org/data.xlsx";
                 unverified "https://example.org/data.xlsx"];
        warnings_disabled := true |}).
Proof.
  apply (load_data_retries_once unreachable lenient_reader
           "https://example.org/data.xlsx" fresh_world).
  exact I.
Defined.

(** C6, as stated, fails: a response with status 300 is no 2xx response,
    yet when its content reads as a spreadsheet [load_data] returns the
    table after one request, without retrying. *)
Lemma load_data_no_retry_on_non_2xx :
  load_data multiple_choices lenient_reader "u" fresh_world =
    (inr banded, {| sent := [verified "u"]; warnings_disabled := false |}) ∧
  ¬ retries_as_specified multiple_choices lenient_reader "u" fresh_world.
Proof.
  split; [reflexivity|]. intros H.
  assert (get_fails_as_specified multiple_choices lenient_reader
            (sent fresh_world) (verified "u")) as Hfails.
  { left. simpl. lia. }
  specialize (H Hfails). discriminate H.
Qed.

(** * Further properties

    What the four functions and the driver do beyond the claims above:
    their errors, the shape of their results and how they compose. *)

(** ** [load_data]: requests and errors *)

Section NetworkRuns.

Variable server : list request → request → result response.
Variable read_excel : string → result DataFrame.

(** One request with its status check and its parse. *)
Lemma attempt_run u v (w : world) :
  (response ← requests_get server u v 30;
   lift (raise_for_status response);;
   lift (read_excel (content response))) w
  = (attempt server read_excel (sent w) {| url := u; verify := v; timeout := 30 |},
     {| sent := sent w ++ [{| url := u; verify := v; timeout := 30 |}];
        warnings_disabled := warnings_disabled w |}).
Proof.
  rewrite run_bind. unfold requests_get, attempt.
  destruct (server _ _) as [e'|r]; simpl; [done|].
  rewrite run_bind. unfold lift. by destruct (raise_for_status r) as [?|[]].
Qed.

(** [load_data] by cases on its first attempt. *)
Lemma load_data_run u w :
  load_data server read_excel u w =
  match attempt server read_excel (sent w) (verified u) with
  | inr df =>
      (inr df, {| sent := sent w ++ [verified u]; warnings_disabled := warnings_disabled w |})
  | inl _ =>
      (attempt server read_excel (sent w ++ [verified u]) (unverified u),
       {| sent := sent w ++ [verified u; unverified u]; warnings_disabled := true |})
  end.
Proof.
  unfold load_data, try_except. rewrite attempt_run. fold (verified u).
  destruct (attempt _ _ _ (verified u)) as [e|df]; [|done].
  rewrite run_bind. unfold disable_warnings. cbn [fst snd].
  rewrite attempt_run. cbn [sent warnings_disabled]. fold (unverified u).
  by rewrite <-(assoc_L (++)).
Qed.

(** X1. When the first attempt succeeds (the server answers with a status
    that is no 4xx or 5xx and the content reads as a spreadsheet),
    [load_data] returns that table after this one request, sent with
    certificate verification on, and leaves the warning switch as it
    was. *)
Theorem load_data_verified_only u w df :
  attempt server read_excel (sent w) (verified u) = inr df →
  load_data server read_excel u w =
    (inr df, {| sent := sent w ++ [verified u]; warnings_disabled := warnings_disabled w |}).
Proof. intros H. by rewrite load_data_run, H. Qed.

(** X2. Whatever the server does, [load_data] sends one or two requests
    and no more, after those sent before: the first to the given URL with
    verification on and a timeout of 30, the second, if any, to the same
    URL with verification off and the same timeout.  With one request the
    warning switch is untouched and a table is returned; with two the
    switch is on. *)
Theorem load_data_requests u w :
  let w' := (load_data server read_excel u w).2 in
  (sent w' = (sent w ++ [verified u])%list ∧ warnings_disabled w' = warnings_disabled w ∧
   ∃ df, (load_data server read_excel u w).1 = inr df) ∨
  (sent w' = (sent w ++ [verified u; unverified u])%list ∧ warnings_disabled w' = true).
Proof.
  rewrite load_data_run. destruct (attempt _ _ _ (verified u)) as [e|df]; simpl.
  - by right.
  - left. split_and!; [done..|by exists df].
Qed.

(** X3. When [load_data] raises, both attempts have failed, two requests
    were sent and the warning switch is on; the error raised is that of
    the second attempt, the error of the first is dropped. *)
Theorem load_data_raises u w e :
  (load_data server read_excel u w).1 = inl e →
  (∃ e1, attempt server read_excel (sent w) (verified u) = inl e1) ∧
  attempt server read_excel (sent w ++ [verified u]) (unverified u) = inl e ∧
  (load_data server read_excel u w).2 =
    {| sent := sent w ++ [verified u; unverified u]; warnings_disabled := true |}.
Proof.
  rewrite load_data_run. destruct (attempt _ _ _ (verified u)) as [e1|df]; simpl; [|done].
  intros H. split_and!; [by exists e1|done..].
Qed.

End NetworkRuns.

Lemma load_data_verified_only_witness :
  load_data healthy lenient_reader "u" fresh_world =
    (inr banded, {| sent := [verified "u"]; warnings_disabled := false |}).
Proof.
  apply (load_data_verified_only healthy lenient_reader "u" fresh_world banded).
  reflexivity.
Defined.

(** The connection error of the first attempt is not what is raised. *)
Lemma load_data_raises_witness :
  (∃ e1, attempt strict lenient_reader [] (verified "u") = inl e1) ∧
  attempt strict lenient_reader [verified "u"] (unverified "u") = inl (HTTPError 503) ∧
  (load_data strict lenient_reader "u" fresh_world).2 =
    {| sent := [verified "u"; unverified "u"]; warnings_disabled := true |}.
Proof.
  apply (load_data_raises strict lenient_reader "u" fresh_world (HTTPError 503)).
  reflexivity.
Defined.

(** ** Texts and floats *)

Lemma is_digit_not_point c : is_digit c = true → is_point c = false.
Proof.
  unfold is_point. intros H. apply bool_decide_eq_false. intros ->. done.
Qed.

(** The scanner on a stripped text: it accepts when there is at most one
    point, and has seen a digit when there is one. *)
Lemma scan_digits_and_points t st :
  match scan_string st (digits_and_points t) with
  | Some st' =>
      ((if seen_point st then 1 else 0) + count_chars is_point t ≤ 1)%nat ∧
      seen_digit st' = seen_digit st || bool_decide (1 ≤ count_chars is_digit t)%nat
  | None => (1 < (if seen_point st then 1 else 0) + count_chars is_point t)%nat
  end.
Proof.
  revert st. induction t as [|c t IH]; intros st; simpl.
  { split; [destruct (seen_point st); lia|]. by rewrite orb_false_r. }
  fold (is_point c). destruct (is_digit c) eqn:Hd; simpl.
  - rewrite (is_digit_not_point c Hd). unfold scan_char. rewrite Hd.
    match goal with |- context [scan_string ?s _] => specialize (IH s) end.
    destruct (scan_string _ _) as [st'|]; simpl in *; [|lia].
    destruct IH as [IH1 ->]. split; [lia|]. by rewrite orb_true_r.
  - destruct (is_point c) eqn:Hp; simpl.
    + unfold scan_char. rewrite Hd. fold (is_point c). rewrite Hp.
      destruct (seen_point st) eqn:Hs; [lia|].
      match goal with |- context [scan_string ?s _] => specialize (IH s) end.
      destruct (scan_string _ _) as [st'|]; simpl in *; [|lia].
      destruct IH as [IH1 ->]. split; [lia|done].
    + apply IH.
Qed.

Lemma py_float_numeric_text t :
  numeric_text t = true → ∃ f, py_float (digits_and_points t) = inr f.
Proof.
  unfold numeric_text, py_float. intros [H1 H2]%andb_true_iff.
  apply bool_decide_eq_true in H1, H2.
  match goal with |- context [scan_string ?s _] => pose proof (scan_digits_and_points t s) as H end.
  destruct (scan_string _ _) as [st'|]; simpl in *; [|lia].
  destruct H as [_ ->]. rewrite bool_decide_eq_true_2 by done. by eexists.
Qed.


Lemma numeric_age_numeric_text x :
  numeric_text (py_str x) = true → ∃ f, numeric_age x = inr (VFloat f).
Proof.
  intros [f Hf]%py_float_numeric_text. exists f.
  unfold numeric_age. by rewrite re_sub_digits_and_points, Hf.
Qed.


(** *** The text of an int *)

Lemma pretty_N_char_digit d :
  (d < 10)%N →
  is_digit (pretty_N_char d) = true ∧ Z.of_N (N_of_ascii (pretty_N_char d)) - 48 = Z.of_N d.
Proof.
  intros H.
  assert (d = 0 ∨ d = 1 ∨ d = 2 ∨ d = 3 ∨ d = 4 ∨ d = 5 ∨ d = 6 ∨ d = 7 ∨ d = 8 ∨ d = 9)%N
    as Hd by lia.
  by decompose [or] Hd; subst.
Qed.

Lemma digits_and_points_pretty_N_go n s :
  digits_and_points (pretty_N_go n s) = pretty_N_go n (digits_and_points s).
Proof.
  revert s. induction (N.lt_wf_0 n) as [n _ IH]; intros s.
  assert (n = 0 ∨ 0 < n)%N as [->|Hn] by lia; [done|].
  rewrite !(pretty_N_go_step n) by done. rewrite IH by by apply N.div_lt.
  simpl. destruct (pretty_N_char_digit (n `mod` 10)%N) as [-> _]; [by apply N.mod_lt|]. done.
Qed.

Lemma scan_string_pretty_N_go n s f d :
  scan_string {| mantissa := 0; fraction := f; seen_point := false; seen_digit := d |}
    (pretty_N_go n s) =
  scan_string {| mantissa := Z.of_N n; fraction := f; seen_point := false;
                 seen_digit := d || bool_decide (0 < n)%N |} s.
Proof.
  revert s d. induction (N.lt_wf_0 n) as [n _ IH]; intros s d.
  assert (n = 0 ∨ 0 < n)%N as [->|Hn] by lia.
  { rewrite pretty_N_go_0. simpl. by rewrite orb_false_r. }
  rewrite pretty_N_go_step by done. rewrite IH by by apply N.div_lt.
  simpl. unfold scan_char.
  destruct (pretty_N_char_digit (n `mod` 10)%N) as [-> ->]; [by apply N.mod_lt|].
  simpl. rewrite (bool_decide_eq_true_2 (0 < n)%N) by done. rewrite orb_true_r.
  do 3 f_equal. pose proof (N.div_mod n 10). lia.
Qed.

Lemma py_float_pretty_N (n : N) : py_float (pretty n) = inr (round_decimal (Z.of_N n) 0).
Proof.
  unfold pretty, pretty_N. case_decide as Hn; [by subst|].
  unfold py_float. rewrite scan_string_pretty_N_go. simpl.
  rewrite bool_decide_eq_true_2 by lia. done.
Qed.

Lemma digits_and_points_pretty_N (n : N) : digits_and_points (pretty n) = pretty n.
Proof.
  unfold pretty, pretty_N. case_decide; [done|]. by rewrite digits_and_points_pretty_N_go.
Qed.

(** The sign of an int is among the characters removed. *)
Lemma numeric_age_int n :
  numeric_age (VInt n) = inr (VFloat (round_decimal (Z.abs n) 0)).
Proof.
  unfold numeric_age. rewrite re_sub_digits_and_points. simpl.
  destruct n as [|p|p]; [done|..].
  - change (pretty (Z.pos p)) with (pretty (N.pos p)).
    by rewrite digits_and_points_pretty_N, py_float_pretty_N.
  - change (pretty (Z.neg p)) with ("-" +:+ pretty (N.pos p)).
    change (digits_and_points ("-" +:+ pretty (N.pos p)))
      with (digits_and_points (pretty (N.pos p))).
    by rewrite digits_and_points_pretty_N, py_float_pretty_N.
Qed.

(** *** Rounding keeps the sign *)

Lemma shr_1_nonneg mrs : 0 ≤ shr_m mrs → 0 ≤ shr_m (shr_1 mrs).
Proof. destruct mrs as [[|[]|[]] r s]; simpl; lia. Qed.

Lemma iter_pos_invariant {A} (f : A → A) (P : A → Prop) :
  (∀ a, P a → P (f a)) → ∀ n a, P a → P (SpecFloat.iter_pos f n a).
Proof.
  intros Hf n. induction n as [n IH|n IH|]; intros a Ha; simpl; auto.
Qed.

Lemma shr_nonneg mrs e n : 0 ≤ shr_m mrs → 0 ≤ shr_m (shr mrs e n).1.
Proof.
  intros H. destruct n; simpl; [done| |done].
  by apply (iter_pos_invariant shr_1 (λ m, 0 ≤ shr_m m) shr_1_nonneg).
Qed.

Lemma shr_fexp_nonneg m e l : 0 ≤ m → 0 ≤ shr_m (shr_fexp prec64 emax64 m e l).1.
Proof.
  intros H. unfold shr_fexp. apply shr_nonneg. by destruct l as [|[]].
Qed.

Lemma binary_round_aux_nonnegative m e l :
  0 ≤ m → nonnegative (binary_round_aux prec64 emax64 false m e l) = true.
Proof.
  intros H. unfold binary_round_aux.
  pose proof (shr_fexp_nonneg m e l H) as H1.
  destruct (shr_fexp prec64 emax64 m e l) as [mrs' e']. simpl in H1.
  assert (0 ≤ round_nearest_even (shr_m mrs') (loc_of_shr_record mrs')) as H2.
  { unfold round_nearest_even. destruct (loc_of_shr_record mrs') as [|[]]; try done.
    - destruct (Z.even _); lia.
    - lia. }
  pose proof (shr_fexp_nonneg _ e' loc_Exact H2) as H3.
  destruct (shr_fexp prec64 emax64 _ e' loc_Exact) as [mrs'' e'']. simpl in H3.
  destruct (shr_m mrs''); [done| |lia]. by destruct (_ <=? _).
Qed.

Lemma round_decimal_nonnegative m k : 0 ≤ m → nonnegative (round_decimal m k) = true.
Proof.
  intros H. unfold round_decimal. destruct m as [|p|p]; [done| |lia].
  unfold SFdiv_core_binary.
  set (m' := match _ with Z.pos _ => _ | _ => _ end).
  assert (0 ≤ m') as Hm'.
  { unfold m'. destruct (_ - _ - _); [done| |done]. rewrite Z.shiftl_mul_pow2 by lia. lia. }
  pose proof (Z_div_mod m' (10 ^ Z.of_N k)) as Hdiv.
  destruct (Z.div_eucl m' (10 ^ Z.of_N k)) as [q r].
  assert (0 < 10 ^ Z.of_N k) by lia.
  apply binary_round_aux_nonnegative. destruct Hdiv as [-> ?]; [lia|]. nia.
Qed.

(** [float] of a text of digits and points is never [nan] nor negative. *)
Lemma py_float_nonnegative s f : py_float s = inr f → nonnegative f = true.
Proof.
  unfold py_float.
  assert (∀ s st st', 0 ≤ mantissa st → scan_string st s = Some st' → 0 ≤ mantissa st') as Hm.
  { clear. intros s. induction s as [|c s IH]; intros st st' H; simpl; [by intros [= <-]|].
    unfold scan_char. destruct (is_digit c) eqn:Hd.
    - apply IH. simpl. unfold is_digit in Hd. apply andb_true_iff in Hd as [Hd _].
      apply N.leb_le in Hd. lia.
    - case_bool_decide; [|done]. destruct (seen_point st); [done|]. by apply IH. }
  destruct (scan_string _ s) as [st|] eqn:E; [|done].
  destruct (seen_digit st); [|done]. intros [= <-].
  apply round_decimal_nonnegative. by eapply Hm in E.
Qed.

Lemma nonnegative_notna f : nonnegative f = true → isna (VFloat f) = false.
Proof. by destruct f as [[]|[]| |[]]. Qed.

(** ** [preprocess_data]: errors and the shape of the result *)

Lemma comprehension_col_endswith_spec ls :
  comprehension col_endswith ls =
  if forallb is_str ls then inr (filter (λ l, reserved l = true) ls) else inl AttributeError.
Proof.
  induction ls as [|l ls IH]; [done|]. simpl. destruct l as [n|x|s]; simpl; [done..|].
  rewrite IH. destruct (forallb is_str ls); simpl; [|done].
  rewrite filter_cons. simpl. by destruct (endswith s remove_patterns).
Qed.

Lemma forallb_is_str ls : forallb is_str ls = true ↔ Forall (λ l, is_str l = true) ls.
Proof. rewrite forallb_forall, Forall_forall. by setoid_rewrite <-list_elem_of_In. Qed.

Lemma frame_getitem_absent_iff df key :
  label_in key (labels df) = false ↔ frame_getitem df key = inl (KeyError key).
Proof.
  unfold frame_getitem, labels. rewrite <-lookup_label_None.
  destruct (lookup_label key (columns df)); split; done.
Qed.


(** What [preprocess_data] returns or raises, through [preprocess_frame]. *)
Lemma preprocess_data_result r df (σ : store) :
  σ !! r = Some df →
  (preprocess_data r σ).1 = (λ _, fresh (dom σ)) <$> preprocess_frame df.
Proof.
  intros H. pose proof (preprocess_data_run r df σ H) as Hrun.
  destruct (preprocess_frame df) as [e|df'].
  - destruct Hrun as [junk ->]. done.
  - by rewrite Hrun.
Qed.

(** The steps of [preprocess_frame] on a table whose labels are texts. *)
Lemma preprocess_frame_text_labels df :
  Forall (λ l, is_str l = true) (labels df) →
  preprocess_frame df =
    (above65 ← frame_getitem df (VStr "AGE_ABOVE65");
     percentil ← frame_getitem df (VStr "AGE_PERCENTIL");
     age ← Series_apply percentil numeric_age;
     mret (frame_setitem
             (frame_setitem (frame_drop df (filter (λ l, reserved l = true) (labels df)))
                (VStr "age_group") (Series_map above65 age_group_dict))
             (VStr "age") age)).
Proof.
  intros Hs. unfold preprocess_frame.
  pose proof (comprehension_col_endswith_spec (labels df)) as Hrc.
  rewrite (proj2 (forallb_is_str _) Hs) in Hrc. rewrite Hrc. simpl.
  rewrite (frame_getitem_drop df _ (VStr "AGE_ABOVE65")) by by apply (not_removed _ _ _ Hrc).
  destruct (frame_getitem df (VStr "AGE_ABOVE65")) as [e|above65]; simpl; [done|].
  assert (∀ d s, frame_getitem (frame_setitem d (VStr "age_group") s) (VStr "AGE_PERCENTIL")
                 = frame_getitem d (VStr "AGE_PERCENTIL")) as ->.
  { intros d s. unfold frame_getitem. by rewrite lookup_label_setitem_ne. }
  rewrite (frame_getitem_drop df _ (VStr "AGE_PERCENTIL")) by by apply (not_removed _ _ _ Hrc).
  done.
Qed.

(** A column that is neither dropped nor derived is read from the cleaned
    table as from the raw one. *)
Lemma preprocess_frame_getitem df df' l :
  preprocess_frame df = inr df' →
  is_str l = true → reserved l = false → derived l = false →
  frame_getitem df' l = frame_getitem df l.
Proof.
  intros (rc & above65 & percentil & age & Hrc & _ & _ & _ & ->)%preprocess_frame_inr Hs Hr Hd.
  apply derived_false in Hd as [Hd1 Hd2].
  unfold frame_getitem.
  rewrite !lookup_label_setitem_ne by by rewrite label_eqb_sym.
  rewrite lookup_label_drop; [done|]. by apply (not_removed _ _ _ Hrc).
Qed.



(** X5. On a table with a column label that is no text, [preprocess_data]
    raises the attribute error of [col.endswith], whatever else the table
    holds, and leaves the table as it was. *)
Theorem preprocess_data_label_not_text (σ : store) r df :
  σ !! r = Some df →
  frame_ok df = true →
  ¬ Forall (λ l, is_str l = true) (labels df) →
  (preprocess_data r σ).1 = inl AttributeError ∧
  (preprocess_data r σ).2 !! r = Some df.
Proof.
  intros Hr _ Hs. pose proof (preprocess_data_run r df σ Hr) as Hrun.
  assert (preprocess_frame df = inl AttributeError) as Hf.
  { unfold preprocess_frame. rewrite comprehension_col_endswith_spec.
    destruct (forallb is_str (labels df)) eqn:E; [|done].
    by apply forallb_is_str in E. }
  rewrite Hf in Hrun. destruct Hrun as [junk ->]. split; [done|]. simpl.
  rewrite lookup_insert_ne; [done|]. by apply fresh_ref_not_in.
Qed.

Lemma preprocess_data_label_not_text_witness :
  (preprocess_data 0%nat {[ 0%nat := unlabelled ]}).1 = inl AttributeError ∧
  (preprocess_data 0%nat {[ 0%nat := unlabelled ]}).2 !! 0%nat = Some unlabelled.
Proof.
  apply (preprocess_data_label_not_text {[ 0%nat := unlabelled ]} 0%nat unlabelled).
  - reflexivity.
  - reflexivity.
  - intros H. apply Forall_cons in H as [H _]. discriminate H.
Defined.

(** X6. On a table whose labels are texts, [preprocess_data] raises
    KeyError 'AGE_ABOVE65' when that column is absent (whether or not
    AGE_PERCENTIL is there), and KeyError 'AGE_PERCENTIL' when AGE_ABOVE65
    is there and AGE_PERCENTIL is absent. *)
Theorem preprocess_data_missing_column (σ : store) r df :
  σ !! r = Some df →
  frame_ok df = true →
  Forall (λ l, is_str l = true) (labels df) →
  (label_in (VStr "AGE_ABOVE65") (labels df) = false →
   (preprocess_data r σ).1 = inl (KeyError (VStr "AGE_ABOVE65"))) ∧
  (label_in (VStr "AGE_ABOVE65") (labels df) = true →
   label_in (VStr "AGE_PERCENTIL") (labels df) = false →
   (preprocess_data r σ).1 = inl (KeyError (VStr "AGE_PERCENTIL"))).
Proof.
  intros Hr _ Hs.
  rewrite (preprocess_data_result r df σ Hr), (preprocess_frame_text_labels df Hs).
  split.
  - intros Ha%frame_getitem_absent_iff. by rewrite Ha.
  - intros Ha Hp%frame_getitem_absent_iff.
    destruct (frame_getitem df (VStr "AGE_ABOVE65")) as [e|above65] eqn:E; simpl.
    + pose proof (frame_getitem_inl _ _ _ E) as ->.
      apply frame_getitem_absent_iff in E. congruence.
    + by rewrite Hp.
Qed.

Lemma preprocess_data_missing_column_witness :
  (preprocess_data 0%nat {[ 0%nat := two_patients; 1%nat := without_percentil ]}).1
    = inl (KeyError (VStr "AGE_ABOVE65")) ∧
  (preprocess_data 1%nat {[ 0%nat := two_patients; 1%nat := without_percentil ]}).1
    = inl (KeyError (VStr "AGE_PERCENTIL")).
Proof.
  split.
  - apply (preprocess_data_missing_column _ 0%nat two_patients);
      [reflexivity|reflexivity| |reflexivity].
    repeat constructor.
  - apply (preprocess_data_missing_column _ 1%nat without_percentil);
      [reflexivity|reflexivity| |reflexivity|reflexivity].
    repeat constructor.
Defined.



(** X8. The columns of the table [preprocess_data] returns are the columns
    of its argument without reserved suffix, in their order, followed by
    age_group and then age; a derived column that the argument has already
    stays where it is and is not added again. *)
Theorem preprocess_data_labels (σ σ' : store) r r' df :
  σ !! r = Some df →
  frame_ok df = true →
  preprocess_data r σ = (inr r', σ') →
  ∃ df', σ' !! r' = Some df' ∧
    let kept := filter (λ l, reserved l = false) (labels df) in
    labels df' =
      (kept ++ (if label_in (VStr "age_group") kept then [] else [VStr "age_group"])
            ++ (if label_in (VStr "age") kept then [] else [VStr "age"]))%list.
Proof.
  intros Hr _ (df0 & df' & Hr0 & Hf & -> & ->)%preprocess_data_inr.
  assert (df0 = df) as -> by congruence.
  exists df'. split; [by rewrite lookup_insert_eq|]. simpl.
  apply preprocess_frame_inr in Hf as (rc & above65 & percentil & age & Hrc & _ & _ & _ & ->).
  assert (labels (frame_drop df rc) = filter (λ l, reserved l = false) (labels df)) as Hkept.
  { unfold labels. rewrite (columns_drop_reserved _ _ Hrc).
    induction (columns df) as [|[l s] cols IH]; [done|].
    csimpl. rewrite !filter_cons. simpl.
    destruct (decide (reserved l = false)); csimpl; by rewrite IH. }
  rewrite !labels_setitem, Hkept.
  set (kept := filter _ (labels df)).
  destruct (label_in (VStr "age_group") kept) eqn:E1; simpl.
  - destruct (label_in (VStr "age") kept); by rewrite ?app_nil_r.
  - unfold label_in at 1. rewrite existsb_app. simpl. rewrite orb_false_r.
    fold (label_in (VStr "age") kept).
    destruct (label_in (VStr "age") kept); by rewrite ?app_nil_r, <-?(assoc_L (++)).
Qed.

Lemma preprocess_data_labels_witness :
  ∃ df', (preprocess_data 0%nat {[ 0%nat := recleaned ]}).2 !! 1%nat = Some df' ∧
    labels df' = [VStr "age"; VStr "AGE_ABOVE65"; VStr "AGE_PERCENTIL"; VStr "age_group"].
Proof.
  apply (preprocess_data_labels {[ 0%nat := recleaned ]} _ 0%nat 1%nat recleaned).
  - reflexivity.
  - reflexivity.
  - vm_compute. reflexivity.
Defined.

(** X9. Where an AGE_PERCENTIL cell is an int, the derived age is the float
    nearest to its absolute value: the sign is among the characters that
    are removed. *)
Theorem preprocess_data_age_of_int (σ σ' : store) r r' df percentil :
  σ !! r = Some df →
  frame_ok df = true →
  frame_getitem df (VStr "AGE_PERCENTIL") = inr percentil →
  preprocess_data r σ = (inr r', σ') →
  ∃ df' age,
    σ' !! r' = Some df' ∧
    frame_getitem df' (VStr "age") = inr age ∧
    ∀ i n, percentil !! i = Some (VInt n) →
           age !! i = Some (VFloat (round_decimal (Z.abs n) 0)).
Proof.
  intros Hr _ Hp (df0 & df' & Hr0 & Hf & -> & ->)%preprocess_data_inr.
  assert (df0 = df) as -> by congruence.
  apply preprocess_frame_inr in Hf as (rc & above65 & percentil' & age & _ & _ & Hp' & Hage & ->).
  assert (percentil' = percentil) as -> by congruence.
  eexists _, age. split_and!.
  - by rewrite lookup_insert_eq.
  - unfold frame_getitem. by rewrite lookup_label_setitem_eq.
  - intros i n Hi. apply Series_apply_inr in Hage.
    destruct (Forall2_lookup_l _ _ _ _ _ Hage Hi) as (w & Hw & Hn).
    rewrite numeric_age_int in Hn. congruence.
Qed.

Lemma preprocess_data_age_of_int_witness :
  ∃ df' age,
    (preprocess_data 0%nat {[ 0%nat := recleaned ]}).2 !! 1%nat = Some df' ∧
    frame_getitem df' (VStr "age") = inr age ∧
    ∀ i n, [VInt (-20)] !! i = Some (VInt n) →
           age !! i = Some (VFloat (round_decimal (Z.abs n) 0)).
Proof.
  apply (preprocess_data_age_of_int {[ 0%nat := recleaned ]} _ 0%nat 1%nat recleaned).
  - reflexivity.
  - reflexivity.
  - reflexivity.
  - vm_compute. reflexivity.
Defined.

(** X10. In the table [preprocess_data] returns no age is missing and none
    is negative: every cell of the age column is a float that is zero,
    positive or plus infinity. *)
Theorem preprocess_data_age_not_missing (σ σ' : store) r r' df :
  σ !! r = Some df →
  frame_ok df = true →
  preprocess_data r σ = (inr r', σ') →
  ∃ df' age,
    σ' !! r' = Some df' ∧
    frame_getitem df' (VStr "age") = inr age ∧
    Forall (λ v, isna v = false ∧ ∃ f, v = VFloat f ∧ nonnegative f = true) age.
Proof.
  intros _ _ (df0 & df' & Hr & Hf & -> & ->)%preprocess_data_inr.
  apply preprocess_frame_inr in Hf as (rc & above65 & percentil & age & _ & _ & _ & Hage & ->).
  eexists _, age. split_and!.
  - by rewrite lookup_insert_eq.
  - unfold frame_getitem. by rewrite lookup_label_setitem_eq.
  - apply Series_apply_inr in Hage. apply Forall_forall. intros w Hw.
    apply list_elem_of_lookup in Hw as [i Hi].
    destruct (Forall2_lookup_r _ _ _ _ _ Hage Hi) as (v & _ & Hv).
    apply numeric_age_inr in Hv as (f & Hf & ->).
    apply py_float_nonnegative in Hf. split; [by apply nonnegative_notna|by exists f].
Qed.

Lemma preprocess_data_age_not_missing_witness :
  ∃ df' age,
    (preprocess_data 0%nat example_store).2 !! 2%nat = Some df' ∧
    frame_getitem df' (VStr "age") = inr age ∧
    Forall (λ v, isna v = false ∧ ∃ f, v = VFloat f ∧ nonnegative f = true) age.
Proof.
  apply (preprocess_data_age_not_missing example_store _ 0%nat 2%nat observations).
  - reflexivity.
  - reflexivity.
  - vm_compute. reflexivity.
Defined.

(** ** [aggregate_patient_level]: columns, errors and values *)

Lemma lookup_zip_Some (l k : Series) i a b :
  zip l k !! i = Some (a, b) ↔ l !! i = Some a ∧ k !! i = Some b.
Proof.
  rewrite lookup_zip_with_Some. split.
  - by intros (a' & b' & [= -> ->] & ? & ?).
  - intros [? ?]. by exists a, b.
Qed.

Lemma first_of_pairs (l : list (value * value)) k :
  let v := default (VFloat nan) (head (dropna (filter (λ p, py_eqb p.1 k = true) l).*2)) in
  (isna v = false ∧
   ∃ i q, l !! i = Some (q, v) ∧ py_eqb q k = true ∧
     ∀ i' q' w, (i' < i)%nat → l !! i' = Some (q', w) → py_eqb q' k = true → isna w = true)
  ∨
  (v = VFloat nan ∧
   ∀ i q w, l !! i = Some (q, w) → py_eqb q k = true → isna w = true).
Proof.
  induction l as [|[q w] l IH]; simpl.
  { right. split; [done|]. intros i q w Hi. by rewrite lookup_nil in Hi. }
  rewrite filter_cons. simpl.
  destruct (decide (py_eqb q k = true)) as [Hq|Hq]; csimpl.
  - unfold dropna. rewrite filter_cons. fold (dropna (filter (λ p, py_eqb p.1 k = true) l).*2).
    destruct (decide (isna w = false)) as [Hw|Hw]; simpl.
    + left. split; [done|]. exists 0%nat, q. split_and!; [done..|]. intros; lia.
    + apply not_false_iff_true in Hw. destruct IH as [[Hv IH]|[Hv IH]].
      * left. split; [done|]. destruct IH as (i & q0 & Hi & Hq0 & Hfirst).
        exists (S i), q0. split_and!; [done..|].
        intros [|i'] q' w' Hlt; simpl.
        -- by intros [= -> ->].
        -- apply Hfirst. lia.
      * right. split; [done|]. intros [|i] q0 w0; simpl.
        -- by intros [= -> ->].
        -- apply IH.
  - destruct IH as [[Hv IH]|[Hv IH]].
    + left. split; [done|]. destruct IH as (i & q0 & Hi & Hq0 & Hfirst).
      exists (S i), q0. split_and!; [done..|].
      intros [|i'] q' w' Hlt; simpl.
      * intros [= -> ->]. done.
      * apply Hfirst. lia.
    + right. split; [done|]. intros [|i] q0 w0; simpl.
      * intros [= -> ->]. done.
      * apply IH.
Qed.

(** The first cell of a group that is not missing, by rows. *)
Lemma agg_first_rows ids k s :
  let v := agg_first (group_cells ids k s) in
  (isna v = false ∧
   ∃ i q, ids !! i = Some q ∧ py_eqb q k = true ∧ s !! i = Some v ∧
     ∀ i' q' w, (i' < i)%nat → ids !! i' = Some q' → py_eqb q' k = true →
                s !! i' = Some w → isna w = true)
  ∨
  (v = VFloat nan ∧
   ∀ i q w, ids !! i = Some q → py_eqb q k = true → s !! i = Some w → isna w = true).
Proof.
  unfold agg_first, group_cells. simpl.
  destruct (first_of_pairs (zip ids s) k) as [[Hv (i & q & Hi & Hq & Hfirst)]|[Hv Hall]].
  - left. split; [done|]. apply lookup_zip_Some in Hi as [? ?].
    exists i, q. split_and!; [done..|]. intros i' q' w Hlt Hi' Hq' Hw.
    apply (Hfirst i' q' w Hlt); [|done]. by apply lookup_zip_Some.
  - right. split; [done|]. intros i q w Hi Hq Hw. apply (Hall i q w); [|done].
    by apply lookup_zip_Some.
Qed.

Lemma patient_table_age_group ids icu_max ag age :
  frame_getitem (patient_table ids icu_max ag age) (VStr "age_group")
  = inr ((λ k, agg_first (group_cells ids k ag)) <$> group_keys ids).
Proof. reflexivity. Qed.

Lemma patient_table_age ids icu_max ag age :
  frame_getitem (patient_table ids icu_max ag age) (VStr "age")
  = inr ((λ k, agg_first (group_cells ids k age)) <$> group_keys ids).
Proof. reflexivity. Qed.

Lemma traverse_inl {A B} (f : A → result B) (l : list A) e :
  traverse f l = inl e → ∃ a, a ∈ l ∧ f a = inl e.
Proof.
  induction l as [|a l IH]; simpl; [done|].
  destruct (f a) as [e'|b] eqn:E; simpl.
  - intros [= ->]. exists a. split; [left|done].
  - destruct (traverse f l) as [e'|r]; simpl; [|done].
    intros [= ->]. destruct (IH eq_refl) as (a' & ? & ?). exists a'. split; [by right|done].
Qed.

Lemma traverse_Forall2 {A B} (f : A → result B) l r :
  Forall2 (λ a b, f a = inr b) l r → traverse f l = inr r.
Proof. induction 1 as [|a b l r Hab _ IH]; simpl; [done|]. by rewrite Hab, IH. Qed.

Lemma max_from_inl cur s e : max_from cur s = inl e → e = TypeError.
Proof.
  revert cur. induction s as [|w s IH]; intros cur; simpl; [done|].
  unfold py_lt. case_bool_decide; simpl.
  - destruct (key_of cur), (key_of w); simpl; apply IH.
  - by intros [= <-].
Qed.

Lemma agg_max_inl s e : agg_max s = inl e → e = TypeError.
Proof. unfold agg_max. destruct (dropna s); [done|]. apply max_from_inl. Qed.

(** X11. The table [aggregate_patient_level] returns has exactly the four
    columns PATIENT_VISIT_IDENTIFIER, ICU, age_group and age, in this
    order, each with one cell per row; every other column of the input
    (the time window among them) is left out. *)
Theorem aggregate_patient_level_columns df out :
  frame_ok df = true →
  aggregate_patient_level df = inr out →
  labels out = required_columns ∧
  Forall (λ c, length c.2 = nrows out) (columns out).
Proof.
  intros _ (ids & icu & ag & age & icu_max & _ & _ & _ & _ & Hmax & ->)%aggregate_patient_level_inr.
  split; [done|]. apply traverse_inr, Forall2_length in Hmax.
  unfold patient_table; simpl. repeat constructor; simpl; by rewrite ?length_fmap.
Qed.

Lemma aggregate_patient_level_columns_witness :
  labels late_age_level = required_columns ∧
  Forall (λ c, length c.2 = nrows late_age_level) (columns late_age_level).
Proof.
  apply (aggregate_patient_level_columns late_age late_age_level).
  - reflexivity.
  - vm_compute. reflexivity.
Defined.

(** X12. [aggregate_patient_level] returns a table whenever its argument
    has the four columns it reads and the ICU column holds no text
    (numbers and missing cells only). *)
Theorem aggregate_patient_level_returns df icu :
  frame_ok df = true →
  Forall (λ l, label_in l (labels df) = true) required_columns →
  frame_getitem df (VStr "ICU") = inr icu →
  Forall (λ v, is_str v = false) icu →
  ∃ out, aggregate_patient_level df = inr out.
Proof.
  intros _ Hall Hicu Hnum.
  assert (∀ l, l ∈ required_columns → ∃ s, frame_getitem df l = inr s) as Hget.
  { intros l Hl. rewrite Forall_forall in Hall. specialize (Hall l Hl).
    destruct (frame_getitem df l) as [e|s] eqn:E; [|by exists s].
    pose proof (frame_getitem_inl _ _ _ E) as ->.
    apply frame_getitem_absent_iff in E. congruence. }
  destruct (Hget (VStr "PATIENT_VISIT_IDENTIFIER")) as [ids Hids]; [left|].
  destruct (Hget (VStr "age_group")) as [ag Hag]; [do 2 right; left|].
  destruct (Hget (VStr "age")) as [age Hage]; [do 3 right; left|].
  destruct (aggregate_patient_level_total df ids icu ag age) as (icu_max & Hout & Hmax);
    [done..|].
  by exists (patient_table ids icu_max ag age).
Qed.

Lemma aggregate_patient_level_returns_witness :
  ∃ out, aggregate_patient_level late_age = inr out.
Proof.
  apply (aggregate_patient_level_returns late_age [VInt 0; VFloat nan; VInt 2]).
  - reflexivity.
  - repeat constructor.
  - reflexivity.
  - repeat constructor.
Defined.

(** X13. [aggregate_patient_level] raises a key error exactly when one of
    the four columns it reads is absent from its argument. *)
Theorem aggregate_patient_level_key_error df :
  frame_ok df = true →
  (∃ k, aggregate_patient_level df = inl (KeyError k)) ↔
  ∃ l, l ∈ required_columns ∧ label_in l (labels df) = false.
Proof.
  intros _.
  destruct (frame_getitem df (VStr "PATIENT_VISIT_IDENTIFIER")) as [e|ids] eqn:Hids.
  { pose proof (frame_getitem_inl _ _ _ Hids) as ->. split.
    - intros _. exists (VStr "PATIENT_VISIT_IDENTIFIER").
      split; [left|by apply frame_getitem_absent_iff].
    - intros _. exists (VStr "PATIENT_VISIT_IDENTIFIER").
      unfold aggregate_patient_level, DataFrame_groupby. by rewrite Hids. }
  destruct (frame_getitem df (VStr "ICU")) as [e|icu] eqn:Hicu.
  { pose proof (frame_getitem_inl _ _ _ Hicu) as ->. split.
    - intros _. exists (VStr "ICU").
      split; [right; left|by apply frame_getitem_absent_iff].
    - intros _. exists (VStr "ICU").
      unfold aggregate_patient_level, DataFrame_groupby, GroupBy_agg.
      rewrite Hids. simpl. rewrite !frame_getitem_drop, Hicu by done. done. }
  destruct (frame_getitem df (VStr "age_group")) as [e|ag] eqn:Hag.
  { pose proof (frame_getitem_inl _ _ _ Hag) as ->. split.
    - intros _. exists (VStr "age_group").
      split; [do 2 right; left|by apply frame_getitem_absent_iff].
    - intros _. exists (VStr "age_group").
      unfold aggregate_patient_level, DataFrame_groupby, GroupBy_agg.
      rewrite Hids. simpl. rewrite !frame_getitem_drop, Hicu, Hag by done. done. }
  destruct (frame_getitem df (VStr "age")) as [e|age] eqn:Hage.
  { pose proof (frame_getitem_inl _ _ _ Hage) as ->. split.
    - intros _. exists (VStr "age").
      split; [do 3 right; left|by apply frame_getitem_absent_iff].
    - intros _. exists (VStr "age").
      unfold aggregate_patient_level, DataFrame_groupby, GroupBy_agg.
      rewrite Hids. simpl. rewrite !frame_getitem_drop, Hicu, Hag, Hage by done. done. }
  rewrite (aggregate_patient_level_eq df ids icu ag age) by done. split.
  - intros [k Hk].
    destruct (traverse _ (group_keys ids)) as [e|icu_max] eqn:Hmax; simpl in Hk; [|done].
    apply traverse_inl in Hmax as (a & _ & Ha%agg_max_inl). congruence.
  - intros (l & Hl & Habs%frame_getitem_absent_iff).
    unfold required_columns in Hl.
    repeat (apply elem_of_cons in Hl as [->|Hl]; [congruence|]).
    by apply elem_of_nil in Hl.
Qed.

Lemma aggregate_patient_level_key_error_witness :
  ∃ k, aggregate_patient_level observations = inl (KeyError k).
Proof.
  apply (proj2 (aggregate_patient_level_key_error observations eq_refl)).
  exists (VStr "age"). split; [|reflexivity].
  unfold required_columns. do 3 right. left.
Defined.

(** X14. The age group and the age of a patient in the patient-level table
    are those of the first row of the patient, in the order of the input,
    in which the value is not missing: rows where it is missing are
    passed over, and the result is missing only when it is missing in all
    rows of the patient. *)
Theorem aggregate_patient_level_first df out l :
  frame_ok df = true →
  l = VStr "age_group" ∨ l = VStr "age" →
  aggregate_patient_level df = inr out →
  ∃ ids s oids os,
    frame_getitem df (VStr "PATIENT_VISIT_IDENTIFIER") = inr ids ∧
    frame_getitem df l = inr s ∧
    frame_getitem out (VStr "PATIENT_VISIT_IDENTIFIER") = inr oids ∧
    frame_getitem out l = inr os ∧
    ∀ j p, oids !! j = Some p →
      ∃ v, os !! j = Some v ∧
        ((isna v = false ∧
          ∃ i q, ids !! i = Some q ∧ py_eqb q p = true ∧ s !! i = Some v ∧
            ∀ i' q' w, (i' < i)%nat → ids !! i' = Some q' → py_eqb q' p = true →
                       s !! i' = Some w → isna w = true)
         ∨
         (v = VFloat nan ∧
          ∀ i q w, ids !! i = Some q → py_eqb q p = true → s !! i = Some w → isna w = true)).
Proof.
  intros _ Hl
    (ids & icu & ag & age & icu_max & Hids & _ & Hag & Hage & _ & ->)%aggregate_patient_level_inr.
  destruct Hl as [-> | ->].
  - exists ids, ag, (group_keys ids). eexists.
    split_and!; [done..|apply patient_table_age_group|].
    intros j p Hp. rewrite list_lookup_fmap, Hp. simpl. eexists. split; [done|].
    apply agg_first_rows.
  - exists ids, age, (group_keys ids). eexists.
    split_and!; [done..|apply patient_table_age|].
    intros j p Hp. rewrite list_lookup_fmap, Hp. simpl. eexists. split; [done|].
    apply agg_first_rows.
Qed.

Lemma aggregate_patient_level_first_witness :
  ∃ ids s oids os,
    frame_getitem late_age (VStr "PATIENT_VISIT_IDENTIFIER") = inr ids ∧
    frame_getitem late_age (VStr "age") = inr s ∧
    frame_getitem late_age_level (VStr "PATIENT_VISIT_IDENTIFIER") = inr oids ∧
    frame_getitem late_age_level (VStr "age") = inr os ∧
    ∀ j p, oids !! j = Some p →
      ∃ v, os !! j = Some v ∧
        ((isna v = false ∧
          ∃ i q, ids !! i = Some q ∧ py_eqb q p = true ∧ s !! i = Some v ∧
            ∀ i' q' w, (i' < i)%nat → ids !! i' = Some q' → py_eqb q' p = true →
                       s !! i' = Some w → isna w = true)
         ∨
         (v = VFloat nan ∧
          ∀ i q w, ids !! i = Some q → py_eqb q p = true → s !! i = Some w → isna w = true)).
Proof.
  apply (aggregate_patient_level_first late_age late_age_level (VStr "age")).
  - reflexivity.
  - right. reflexivity.
  - vm_compute. reflexivity.
Defined.

(** *** The largest cell of a group *)






(** *** Aggregating twice *)

Lemma dropna_id s : Forall (λ v, isna v = false) s → dropna s = s.
Proof.
  induction 1 as [|v s Hv _ IH]; [done|]. unfold dropna in *.
  by rewrite filter_cons, decide_True, IH.
Qed.

Lemma identifiers_cons v s k :
  key_of v = Some k → identifiers (v :: s) = k :: identifiers s.
Proof. intros H. unfold identifiers. csimpl. by rewrite H. Qed.

(** Sorted columns of different identifiers with the same cells are equal. *)
Lemma sorted_identifiers_unique (l l' : Series) :
  l ≡ₚ l' →
  Forall (λ v, is_Some (key_of v)) l →
  NoDup (identifiers l) →
  StronglySorted value_le l → StronglySorted value_le l' →
  l = l'.
Proof.
  revert l'. induction l as [|a l IH]; intros l' Hp Hall Hnd Hs Hs'.
  { by apply Permutation_nil_l in Hp. }
  destruct l' as [|b l']; [by apply Permutation_nil_r in Hp|].
  apply Forall_cons in Hall as [[ka Hka] Hall].
  rewrite (identifiers_cons _ _ _ Hka) in Hnd. apply NoDup_cons in Hnd as [Hnot Hnd].
  apply StronglySorted_inv in Hs as [Hs Hla]. apply StronglySorted_inv in Hs' as [Hs' Hlb].
  assert (a = b) as <-.
  { assert (a ∈ b :: l') as [->|Ha]%elem_of_cons by (rewrite <-Hp; left); [done|].
    assert (b ∈ a :: l) as [->|Hb]%elem_of_cons by (rewrite Hp; left); [done|].
    exfalso. rewrite Forall_forall in Hla, Hlb, Hall.
    pose proof (Hla b Hb) as Hab. pose proof (Hlb a Ha) as Hba.
    destruct (Hall b Hb) as [kb Hkb].
    unfold value_le in Hab, Hba. rewrite Hka, Hkb in Hab, Hba.
    assert (ka = kb) as -> by by apply (anti_symm key_le).
    apply Hnot, elem_of_identifiers. eauto. }
  f_equal. apply IH; [by apply (inj (cons a))|done..].
Qed.

Lemma uniques_from_NoDup seen s :
  Forall (λ v, is_Some (key_of v)) s →
  NoDup (identifiers s) →
  (∀ k, k ∈ identifiers s → k ∉ identifiers seen) →
  uniques_from seen s = s.
Proof.
  intros Hall. revert seen. induction Hall as [|v s [k Hk] _ IH]; intros seen Hnd Hseen; [done|].
  rewrite (identifiers_cons _ _ _ Hk) in Hnd, Hseen.
  apply NoDup_cons in Hnd as [Hnot Hnd]. simpl.
  destruct (existsb (py_eqb v) seen) eqn:E.
  { apply (existsb_py_eqb _ _ _ Hk) in E. destruct (Hseen k); [left|done]. }
  f_equal. apply IH; [done|]. intros k' Hk'.
  rewrite (identifiers_cons _ _ _ Hk). intros [->|?]%elem_of_cons; [done|].
  by apply (Hseen k'); [right|].
Qed.

(** The keys of the groups of a column of group keys are that column. *)
Lemma group_keys_idemp ids : group_keys (group_keys ids) = group_keys ids.
Proof.
  destruct (group_keys_spec ids) as (Hall & Hnd & _ & Hs).
  set (ks := group_keys ids) in *. unfold group_keys at 1.
  rewrite dropna_id.
  2:{ eapply Forall_impl; [done|]. intros v. apply isna_false_key_of. }
  unfold uniques. rewrite uniques_from_NoDup; [|done..|].
  2:{ intros k _. unfold identifiers. simpl. apply not_elem_of_nil. }
  symmetry. apply sorted_identifiers_unique; [|done..|].
  - by rewrite merge_sort_Permutation.
  - apply StronglySorted_merge_sort; apply _.
Qed.

Lemma filter_zip_no_key (ks s : Series) k kk :
  key_of k = Some kk → kk ∉ identifiers ks →
  filter (λ p, py_eqb p.1 k = true) (zip ks s) = [].
Proof.
  intros Hk. revert s. induction ks as [|q ks IH]; intros s Hnot; [done|].
  destruct s as [|w s]; [done|]. simpl. rewrite filter_cons. simpl.
  destruct (key_of q) as [kq|] eqn:Hq.
  - rewrite (identifiers_cons _ _ _ Hq) in Hnot. apply not_elem_of_cons in Hnot as [Hne Hnot].
    rewrite decide_False; [by apply IH|].
    intros (k' & Hk1 & Hk2)%py_eqb_spec. congruence.
  - rewrite decide_False.
    + apply IH. unfold identifiers in *. csimpl in Hnot. by rewrite Hq in Hnot.
    + intros (k' & Hk1 & Hk2)%py_eqb_spec. congruence.
Qed.

(** In a column of different keys every group is one row. *)
Lemma group_cells_single (ks s : Series) j k v :
  Forall (λ v, is_Some (key_of v)) ks →
  NoDup (identifiers ks) →
  ks !! j = Some k → s !! j = Some v →
  group_cells ks k s = [v].
Proof.
  intros Hall. revert s j. unfold group_cells.
  induction Hall as [|q ks [kq Hq] Hall IH]; intros s j Hnd Hj Hv; [done|].
  rewrite (identifiers_cons _ _ _ Hq) in Hnd. apply NoDup_cons in Hnd as [Hnot Hnd].
  destruct s as [|w s]; [by rewrite lookup_nil in Hv|].
  simpl. rewrite filter_cons. simpl. destruct j as [|j]; simpl in *.
  - simplify_eq. rewrite decide_True by (apply py_eqb_spec; eauto).
    csimpl. by rewrite (filter_zip_no_key ks s k kq).
  - rewrite decide_False.
    + by apply (IH s j).
    + intros (k' & Hk1 & Hk2)%py_eqb_spec. apply Hnot, elem_of_identifiers.
      exists k. split; [by eapply list_elem_of_lookup_2|congruence].
Qed.

Lemma isna_nan v : isna v = true → v = VFloat nan.
Proof. by destruct v as [|[]|]. Qed.

Lemma agg_max_single v : agg_max [v] = inr v.
Proof.
  unfold agg_max, dropna. rewrite filter_cons.
  destruct (decide (isna v = false)) as [H|H]; simpl; [done|].
  apply not_false_iff_true, isna_nan in H. by subst.
Qed.

Lemma agg_first_single v : agg_first [v] = v.
Proof.
  unfold agg_first, dropna. rewrite filter_cons.
  destruct (decide (isna v = false)) as [H|H]; simpl; [done|].
  apply not_false_iff_true, isna_nan in H. by subst.
Qed.

(** X16. Aggregating a patient-level table changes nothing: applied to a
    table it has returned, [aggregate_patient_level] returns a table equal
    to it. *)
Theorem aggregate_patient_level_idempotent df out :
  frame_ok df = true →
  aggregate_patient_level df = inr out →
  aggregate_patient_level out = inr out.
Proof.
  intros _ (ids & icu & ag & age & icu_max & _ & _ & _ & _ & Hmax & ->)%aggregate_patient_level_inr.
  destruct (group_keys_spec ids) as (Hall & Hnd & _ & _).
  apply traverse_inr in Hmax. pose proof (Forall2_length _ _ _ Hmax) as Hlen.
  set (ks := group_keys ids) in *.
  assert (group_keys ks = ks) as Hidem by apply group_keys_idemp.
  set (agf := (λ k, agg_first (group_cells ids k ag)) <$> ks).
  set (agef := (λ k, agg_first (group_cells ids k age)) <$> ks).
  rewrite (aggregate_patient_level_eq _ ks icu_max agf agef) by done.
  rewrite Hidem.
  assert (∀ s, length s = length ks →
            Forall2 (λ k v, group_cells ks k s = [v]) ks s) as Hsingle.
  { intros s Hs. apply Forall2_same_length_lookup_2; [done|].
    intros j k v Hk Hv. by apply (group_cells_single ks s j). }
  rewrite (traverse_Forall2 _ ks icu_max).
  2:{ eapply Forall2_impl; [by apply Hsingle|]. intros k v ->. apply agg_max_single. }
  simpl. unfold patient_table. rewrite Hidem. fold ks.
  assert (∀ s, length s = length ks →
            (λ k, agg_first (group_cells ks k s)) <$> ks = s) as Hfirst.
  { intros s Hs. apply list_eq. intros j. rewrite list_lookup_fmap.
    destruct (ks !! j) as [k|] eqn:Hk; simpl.
    - assert (is_Some (s !! j)) as [v Hv].
      { apply lookup_lt_is_Some_2. rewrite Hs. by eapply lookup_lt_Some. }
      by rewrite (group_cells_single ks s j k v), agg_first_single.
    - symmetry. apply lookup_ge_None_2. rewrite Hs. by apply lookup_ge_None_1. }
  rewrite !Hfirst by (unfold agf, agef; by rewrite length_fmap). done.
Qed.

Lemma aggregate_patient_level_idempotent_witness :
  aggregate_patient_level late_age_level = inr late_age_level.
Proof.
  apply (aggregate_patient_level_idempotent late_age late_age_level).
  - reflexivity.
  - vm_compute. reflexivity.
Defined.

(** X17. The table [preprocess_data] returns can be aggregated as soon as
    the raw table has an identifier column and an ICU column without
    text: aggregation then returns one row per different identifier, and
    every patient has an age in it. *)
Theorem aggregate_cleaned (σ σ' : store) r r' df ids icu :
  σ !! r = Some df →
  frame_ok df = true →
  frame_getitem df (VStr "PATIENT_VISIT_IDENTIFIER") = inr ids →
  frame_getitem df (VStr "ICU") = inr icu →
  Forall (λ v, is_str v = false) icu →
  preprocess_data r σ = (inr r', σ') →
  ∃ df' out oids oage,
    σ' !! r' = Some df' ∧
    aggregate_patient_level df' = inr out ∧
    nrows out = distinct_count ids ∧
    frame_getitem out (VStr "PATIENT_VISIT_IDENTIFIER") = inr oids ∧
    frame_getitem out (VStr "age") = inr oage ∧
    length oage = length oids ∧
    Forall (λ v, isna v = false) oage.
Proof.
  intros Hr Hok Hids Hicu Hnum (df0 & df' & Hr0 & Hf & -> & ->)%preprocess_data_inr.
  assert (df0 = df) as -> by congruence.
  pose proof (preprocess_frame_ok _ _ Hok Hf) as Hok'.
  pose proof (preprocess_frame_getitem df df' (VStr "PATIENT_VISIT_IDENTIFIER") Hf
                eq_refl eq_refl eq_refl) as Hids'.
  pose proof (preprocess_frame_getitem df df' (VStr "ICU") Hf eq_refl eq_refl eq_refl) as Hicu'.
  rewrite Hids in Hids'. rewrite Hicu in Hicu'.
  pose proof Hf as (rc & above65 & percentil & age & Hrc & Ha & Hp & Hage & Hdf')%preprocess_frame_inr.
  assert (frame_getitem df' (VStr "age") = inr age) as Hage'.
  { rewrite Hdf'. unfold frame_getitem. by rewrite lookup_label_setitem_eq. }
  assert (frame_getitem df' (VStr "age_group") = inr (Series_map above65 age_group_dict)) as Hag'.
  { rewrite Hdf'. unfold frame_getitem.
    by rewrite lookup_label_setitem_ne, lookup_label_setitem_eq. }
  destruct (aggregate_patient_level_total df' ids icu _ age Hids' Hicu' Hag' Hage' Hnum)
    as (icu_max & Hout & Hmax).
  eexists df', _, (group_keys ids), _. split_and!.
  - by rewrite lookup_insert_eq.
  - exact Hout.
  - apply group_keys_length.
  - reflexivity.
  - reflexivity.
  - by rewrite length_fmap.
  - apply Forall_forall. intros v (p & -> & Hp')%list_elem_of_fmap.
    destruct (agg_first_rows ids p age) as [[Hv _]|[_ Hall]]; [done|].
    (* the group of [p] has a row, and its age is not missing *)
    assert (p ∈ ids) as [i Hi]%list_elem_of_lookup by by apply group_keys_subseteq.
    assert (is_Some (key_of p)) as [k Hk].
    { destruct (group_keys_spec ids) as (Hkeys & _). rewrite Forall_forall in Hkeys.
      by apply Hkeys. }
    assert (is_Some (age !! i)) as [w Hw].
    { apply lookup_lt_is_Some_2.
      rewrite (frame_getitem_length _ _ _ Hok' Hage'), <-(frame_getitem_length _ _ _ Hok' Hids').
      by eapply lookup_lt_Some. }
    assert (isna w = true) as Hna.
    { apply (Hall i p w Hi); [|done]. apply py_eqb_spec. eauto. }
    apply Series_apply_inr in Hage.
    destruct (Forall2_lookup_r _ _ _ _ _ Hage Hw) as (a & _ & Hx).
    apply numeric_age_inr in Hx as (f & Hfl & ->).
    apply py_float_nonnegative, nonnegative_notna in Hfl. congruence.
Qed.

Lemma aggregate_cleaned_witness :
  ∃ df' out oids oage,
    (preprocess_data 0%nat example_store).2 !! 2%nat = Some df' ∧
    aggregate_patient_level df' = inr out ∧
    nrows out = distinct_count [VInt 0; VInt 0; VInt 1] ∧
    frame_getitem out (VStr "PATIENT_VISIT_IDENTIFIER") = inr oids ∧
    frame_getitem out (VStr "age") = inr oage ∧
    length oage = length oids ∧
    Forall (λ v, isna v = false) oage.
Proof.
  apply (aggregate_cleaned example_store _ 0%nat 2%nat observations
           [VInt 0; VInt 0; VInt 1] [VInt 0; VInt 1; VInt 0]);
    [reflexivity..| |vm_compute; reflexivity].
  repeat constructor.
Defined.

(** ** [plot_dashboard]: the figure *)

Arguments GroupBy_mean : simpl never.
Arguments DataFrame_groupby : simpl never.
Arguments count_rows : simpl never.

(** One step of a computation that returns. *)
Ltac bind_inr H :=
  match type of H with
  | (match ?m with inl _ => _ | inr _ => _ end) = inr _ =>
      let E := fresh "E" in destruct m eqn:E; [discriminate H|]
  end.

(** Comparing the labels the code writes out. *)
Ltac eval_labels :=
  repeat match goal with
  | |- context [label_eqb ?a ?b] =>
      let v := eval vm_compute in (label_eqb a b) in
      progress change (label_eqb a b) with v
  end.

(** The steps of [plot_dashboard] when it returns. *)
Lemma plot_dashboard_inr df fig :
  plot_dashboard df = inr fig →
  ∃ patient_df ag picu freq_age_group x1 y1 y2 age freq_age x3 y3
    g m icu_by_window x4 y4 t4 window icu freq_window x5 y5,
    aggregate_patient_level df = inr patient_df ∧
    frame_getitem patient_df (VStr "age_group") = inr ag ∧
    frame_getitem patient_df (VStr "ICU") = inr picu ∧
    reset_index (crosstab (VStr "age_group") ag picu) = inr freq_age_group ∧
    frame_getitem freq_age_group (VStr "age_group") = inr x1 ∧
    frame_getitem freq_age_group (VInt 0) = inr y1 ∧
    frame_getitem freq_age_group (VInt 1) = inr y2 ∧
    frame_getitem patient_df (VStr "age") = inr age ∧
    reset_index (crosstab (VStr "age") age picu) = inr freq_age ∧
    frame_getitem freq_age (VStr "age") = inr x3 ∧
    frame_getitem freq_age (VInt 1) = inr y3 ∧
    DataFrame_groupby df (VStr "WINDOW") = inr g ∧
    GroupBy_mean g (VStr "ICU") = inr m ∧
    reset_index m = inr icu_by_window ∧
    frame_getitem icu_by_window (VStr "WINDOW") = inr x4 ∧
    frame_getitem icu_by_window (VStr "ICU") = inr y4 ∧
    Series_apply y4 percent_text = inr t4 ∧
    frame_getitem df (VStr "WINDOW") = inr window ∧
    frame_getitem df (VStr "ICU") = inr icu ∧
    reset_index (crosstab (VStr "WINDOW") window icu) = inr freq_window ∧
    frame_getitem freq_window (VStr "WINDOW") = inr x5 ∧
    frame_getitem freq_window (VInt 1) = inr y5 ∧
    fig = {| traces :=
               [ {| kind := Bar; subplot := 1; name := "ICU = No"; x := x1; y := y1; text := y1 |};
                 {| kind := Bar; subplot := 1; name := "ICU = Yes"; x := x1; y := y2; text := y2 |};
                 {| kind := Bar; subplot := 2; name := "ICU Yes by Age";
                    x := x3; y := y3; text := y3 |};
                 {| kind := Scatter; subplot := 3; name := "ICU Rate";
                    x := x4; y := y4; text := t4 |};
                 {| kind := Bar; subplot := 4; name := "ICU Yes"; x := x5; y := y5; text := y5 |} ];
             height := 1000;
             title := "COVID-19 ICU Analysis Dashboard";
             barmode := "group" |}.
Proof.
  intros H. unfold plot_dashboard in H. unfold mbind, result_bind, mret, result_ret in H.
  do 22 bind_inr H.
  injection H as <-.
  exists d, l, l0, d0, l1, l2, l3, l4, d1, l5, l6, g, i, d2, l7, l8, l9, l10, l11, d3, l12, l13.
  by split_and!.
Qed.

Lemma py_eqb_proper_r v a b : key_of a = key_of b → py_eqb v a = py_eqb v b.
Proof. intros H. unfold py_eqb. by rewrite H. Qed.

Lemma py_eqb_notna_l a b : py_eqb a b = true → isna a = false.
Proof. intros (k & Hk & _)%py_eqb_spec. apply isna_false_key_of. eauto. Qed.

Lemma lookup_label_fmap (h : value → Series) key cs col :
  lookup_label key ((λ c, (c, h c)) <$> cs) = Some col →
  ∃ cj, cj ∈ cs ∧ label_eqb key cj = true ∧ col = h cj.
Proof.
  induction cs as [|c cs IH]; csimpl; [done|].
  destruct (label_eqb key c) eqn:E.
  - intros [= <-]. exists c. split_and!; [left|done..].
  - intros (cj & ? & ? & ?)%IH. exists cj. split_and!; [by right|done..].
Qed.

Lemma sum_list_with_pointwise {A} (f g : A → nat) l :
  (∀ a, f a = g a) → sum_list_with f l = sum_list_with g l.
Proof. intros H. induction l as [|a l IH]; simpl; [done|]. by rewrite H, IH. Qed.

(** The sum, over different keys, of the rows that read a key. *)
Lemma sum_count_rows (rs : Series) (l : list (value * value)) b :
  NoDup (identifiers rs) →
  (∀ p, p ∈ l → py_eqb p.2 b = true → ∃ k, key_of p.1 = Some k ∧ k ∈ identifiers rs) →
  sum_list_with (λ ri, length (filter (λ p, py_eqb p.1 ri = true ∧ py_eqb p.2 b = true) l)) rs
  = length (filter (λ p, py_eqb p.2 b = true) l).
Proof.
  intros Hnd. induction l as [|p l IH]; intros Hin.
  { clear. simpl. induction rs as [|ri rs IHrs]; [done|]. simpl. apply IHrs. }
  assert (sum_list_with
            (λ ri, length (filter (λ p, py_eqb p.1 ri = true ∧ py_eqb p.2 b = true) (p :: l))) rs
          = (sum_list_with
              (λ ri, length (filter (λ p, py_eqb p.1 ri = true ∧ py_eqb p.2 b = true) l)) rs
             + length (filter (λ ri, py_eqb p.1 ri = true ∧ py_eqb p.2 b = true) rs))%nat) as ->.
  { clear. induction rs as [|ri rs IHrs]; [done|]. simpl. rewrite IHrs, !filter_cons.
    destruct (decide (py_eqb p.1 ri = true ∧ py_eqb p.2 b = true)); simpl; lia. }
  rewrite IH by (intros; apply Hin; [by right|done]).
  rewrite filter_cons. destruct (decide (py_eqb p.2 b = true)) as [Hb|Hb]; simpl.
  - destruct (Hin p (list_elem_of_here _ _) Hb) as (k & Hk & Hkin).
    rewrite (filter_ext_elem_of _ (λ v, key_of v = Some k) rs).
    + rewrite filter_key_once by done. lia.
    + intros ri _. rewrite py_eqb_spec. naive_solver.
  - assert (filter (λ ri, py_eqb p.1 ri = true ∧ py_eqb p.2 b = true) rs = []) as ->;
      [|simpl; lia].
    clear -Hb. induction rs as [|ri rs IH]; [done|].
    rewrite filter_cons, decide_False; [done|]. by intros [_ ?].
Qed.

(** A column of a cross-tabulation, read by its label. *)
Lemma crosstab_bars nm r c freq key xs ys :
  reset_index (crosstab nm r c) = inr freq →
  frame_getitem freq nm = inr xs →
  frame_getitem freq key = inr ys →
  label_eqb key nm = false →
  StronglySorted key_lt (identifiers xs) ∧
  length (identifiers xs) = length xs ∧
  (∀ k, k ∈ identifiers xs ↔
        ∃ i a w, r !! i = Some a ∧ c !! i = Some w ∧ key_of a = Some k ∧ isna w = false) ∧
  ys = (λ a, VInt (Z.of_nat (count_rows r c a key))) <$> xs ∧
  sum_list_with (λ a, count_rows r c a key) xs =
    length (filter (λ p, isna p.1 = false ∧ py_eqb p.2 key = true) (zip r c)).
Proof.
  intros Hreset Hxs Hys Hne.
  unfold reset_index in Hreset. destruct (label_in _ _); [done|]. injection Hreset as <-.
  rewrite frame_getitem_cons, label_eqb_refl in Hxs. injection Hxs as <-.
  rewrite frame_getitem_cons, Hne in Hys.
  unfold crosstab in *. simpl in *.
  set (pairs := filter (λ p, isna p.1 = false ∧ isna p.2 = false) (zip r c)) in *.
  assert (Forall (λ v, isna v = false) pairs.*1) as Hnotna.
  { apply Forall_fmap, Forall_forall. by intros p [[? ?] _]%list_elem_of_filter. }
  assert (merge_sort value_le (uniques pairs.*1) = group_keys pairs.*1) as Hrs.
  { unfold group_keys. by rewrite dropna_id. }
  rewrite Hrs in *.
  destruct (group_keys_spec pairs.*1) as (Hall & Hnd & Hin & _).
  (* the column read *)
  unfold frame_getitem in Hys; simpl in Hys.
  destruct (lookup_label key _) as [col|] eqn:Hcol; [|done]. injection Hys as <-.
  apply lookup_label_fmap in Hcol as (cj & Hcj & Hkey%label_eqb_spec & ->).
  assert (∀ a, length (filter (λ p, py_eqb p.1 a = true ∧ py_eqb p.2 cj = true) pairs)
               = count_rows r c a key) as Hcount.
  { intros a. unfold count_rows, pairs. rewrite list_filter_filter. f_equal.
    apply filter_ext_elem_of. intros p _. rewrite (py_eqb_proper_r _ cj key) by done.
    split; [naive_solver|]. intros [H1 H2]. split_and!; [done..| |].
    - by eapply py_eqb_notna_l.
    - by eapply py_eqb_notna_l. }
  split_and!.
  - apply group_keys_sorted.
  - by apply identifiers_length.
  - intros k. rewrite Hin, elem_of_identifiers. split.
    + intros (a & ([a' w] & -> & [[_ Hw] Hp]%list_elem_of_filter)%list_elem_of_fmap & Hk).
      apply list_elem_of_lookup in Hp as [i Hi]. apply lookup_zip_Some in Hi as [? ?].
      by exists i, a', w.
    + intros (i & a & w & Ha & Hw & Hk & Hwn). exists a. split; [|done].
      apply list_elem_of_fmap. exists (a, w). split; [done|].
      apply list_elem_of_filter. split.
      * split; [|done]. simpl. apply isna_false_key_of. by rewrite Hk.
      * apply list_elem_of_lookup. exists i. by apply lookup_zip_Some.
  - apply list_fmap_ext. intros _ a _. by rewrite Hcount.
  - rewrite <-(sum_list_with_pointwise _ _ _ Hcount).
    rewrite sum_count_rows.
    + unfold pairs. rewrite list_filter_filter. f_equal.
      apply filter_ext_elem_of. intros p _. rewrite (py_eqb_proper_r _ cj key) by done.
      split; [naive_solver|]. intros [H1 H2]. split_and!; [done..|].
      by eapply py_eqb_notna_l.
    + done.
    + intros p Hp _. pose proof Hp as [[[k Hk]%isna_false_key_of _] _]%list_elem_of_filter.
      exists k. split; [done|]. apply Hin, elem_of_identifiers.
      exists p.1. split; [|done]. by apply list_elem_of_fmap_2.
Qed.

Lemma DataFrame_groupby_inr df l g :
  DataFrame_groupby df l = inr g →
  ∃ ks, frame_getitem df l = inr ks ∧ g = {| grouped := df; by_label := l; keys := ks |}.
Proof.
  unfold DataFrame_groupby. destruct (frame_getitem df l) as [e|ks]; simpl; [done|].
  intros [= <-]. by exists ks.
Qed.

Lemma GroupBy_mean_inr df by_l ks l m :
  label_in l [by_l] = false →
  GroupBy_mean {| grouped := df; by_label := by_l; keys := ks |} l = inr m →
  ∃ s cells,
    frame_getitem df l = inr s ∧
    Forall2 (λ k v, group_mean (group_cells ks k s) = inr v) (group_keys ks) cells ∧
    m = {| index_name := by_l; index := group_keys ks; body := [(l, cells)] |}.
Proof.
  intros Hl. unfold GroupBy_mean. simpl. rewrite frame_getitem_drop by done.
  destruct (frame_getitem df l) as [e|s]; simpl; [done|].
  destruct (traverse _ (group_keys ks)) as [e|cells] eqn:E; simpl; [done|].
  intros [= <-]. exists s, cells. split_and!; [done| |done]. by apply traverse_inr.
Qed.

(** The points of the third panel. *)
Lemma plot_dashboard_rate_points df fig :
  plot_dashboard df = inr fig →
  ∃ window icu t,
    frame_getitem df (VStr "WINDOW") = inr window ∧
    frame_getitem df (VStr "ICU") = inr icu ∧
    traces fig !! 3%nat = Some t ∧
    kind t = Scatter ∧
    x t = group_keys window ∧
    Forall2 (λ w v, group_mean (group_cells window w icu) = inr v) (x t) (y t) ∧
    Forall2 (λ v s, percent_text v = inr s) (y t) (text t).
Proof.
  intros (patient_df & ag & picu & freq_age_group & x1 & y1 & y2 & age & freq_age & x3 & y3
          & g & m & icu_by_window & x4 & y4 & t4 & window & icu & freq_window & x5 & y5
          & H)%plot_dashboard_inr.
  destruct H as (_&_&_&_&_&_&_&_&_&_&_&Hg&Hm&Hreset&Hx4&Hy4&Ht4&Hw&Hicu&_&_&_&->).
  apply DataFrame_groupby_inr in Hg as (ks & Hks & ->).
  assert (ks = window) as -> by congruence.
  apply GroupBy_mean_inr in Hm as (s & cells & Hs & Hcells & ->); [|done].
  assert (s = icu) as -> by congruence.
  unfold reset_index in Hreset. simpl in Hreset. injection Hreset as <-.
  rewrite frame_getitem_cons in Hx4. simpl in Hx4. injection Hx4 as <-.
  rewrite !frame_getitem_cons in Hy4. simpl in Hy4. injection Hy4 as <-.
  exists window, icu. eexists. split_and!; [done..|reflexivity|done|done|done|].
  simpl. by apply Series_apply_inr.
Qed.

(** X18. The figure [plot_dashboard] shows has five traces: the bars
    "ICU = No" and "ICU = Yes" in the first panel, the bars
    "ICU Yes by Age" in the second, the line "ICU Rate" in the third and
    the bars "ICU Yes" in the fourth; its height is 1000 and its bars are
    grouped; and every trace has one y value and one text for each of its
    x values. *)
Theorem plot_dashboard_figure df fig :
  frame_ok df = true →
  plot_dashboard df = inr fig →
  kind <$> traces fig = [Bar; Bar; Bar; Scatter; Bar] ∧
  subplot <$> traces fig = [1; 1; 2; 3; 4]%nat ∧
  name <$> traces fig = ["ICU = No"; "ICU = Yes"; "ICU Yes by Age"; "ICU Rate"; "ICU Yes"] ∧
  height fig = 1000 ∧
  title fig = "COVID-19 ICU Analysis Dashboard" ∧
  barmode fig = "group" ∧
  Forall (λ t, length (y t) = length (x t) ∧ length (text t) = length (x t)) (traces fig).
Proof.
  intros _ Hfig.
  destruct (plot_dashboard_rate_points df fig Hfig)
    as (window & icu & t4 & _ & _ & Ht4 & _ & _ & Hy & Htext).
  apply Forall2_length in Hy, Htext.
  pose proof Hfig as (patient_df & ag & picu & freq_age_group & x1 & y1 & y2 & age & freq_age
          & x3 & y3 & g & m & icu_by_window & x4 & y4 & t4' & window' & icu' & freq_window
          & x5 & y5 & H)%plot_dashboard_inr.
  destruct H as (_&_&_&H1&Hx1&Hy1&Hy2&_&H3&Hx3&Hy3&_&_&_&_&_&_&_&_&H5&Hx5&Hy5&->).
  destruct (crosstab_bars _ _ _ _ (VInt 0) _ _ H1 Hx1 Hy1 eq_refl) as (_&_&_&E1&_).
  destruct (crosstab_bars _ _ _ _ (VInt 1) _ _ H1 Hx1 Hy2 eq_refl) as (_&_&_&E2&_).
  destruct (crosstab_bars _ _ _ _ (VInt 1) _ _ H3 Hx3 Hy3 eq_refl) as (_&_&_&E3&_).
  destruct (crosstab_bars _ _ _ _ (VInt 1) _ _ H5 Hx5 Hy5 eq_refl) as (_&_&_&E5&_).
  simpl in Ht4. injection Ht4 as <-. simpl in *.
  split_and!; [done..|].
  repeat apply Forall_cons_2; simpl; [..|apply Forall_nil_2];
    rewrite ?E1, ?E2, ?E3, ?E5, ?length_fmap; try done.
  split; congruence.
Qed.

Lemma plot_dashboard_figure_witness :
  kind <$> traces two_patients_dashboard = [Bar; Bar; Bar; Scatter; Bar] ∧
  subplot <$> traces two_patients_dashboard = [1; 1; 2; 3; 4]%nat ∧
  name <$> traces two_patients_dashboard
    = ["ICU = No"; "ICU = Yes"; "ICU Yes by Age"; "ICU Rate"; "ICU Yes"] ∧
  height two_patients_dashboard = 1000 ∧
  title two_patients_dashboard = "COVID-19 ICU Analysis Dashboard" ∧
  barmode two_patients_dashboard = "group" ∧
  Forall (λ t, length (y t) = length (x t) ∧ length (text t) = length (x t))
    (traces two_patients_dashboard).
Proof.
  apply (plot_dashboard_figure two_patients two_patients_dashboard).
  - reflexivity.
  - vm_compute. reflexivity.
Defined.

(** X19. The bars of the figure count rows.  In the first two panels they
    count the patients of the patient-level table, by age group and ICU
    equal to 0 or 1 and by age and ICU equal to 1; in the fourth they count
    the observations of the table itself, by time window and ICU equal to
    1.  The x values are the different values of the row variable in
    increasing order, the y values and the texts are the counts, and the
    bars of a trace add up to the number of rows with that ICU value whose
    row variable is not missing. *)
Theorem plot_dashboard_bars df fig :
  frame_ok df = true →
  plot_dashboard df = inr fig →
  ∃ patient_df ag age picu window icu t1 t2 t3 t4 t5,
    aggregate_patient_level df = inr patient_df ∧
    frame_getitem patient_df (VStr "age_group") = inr ag ∧
    frame_getitem patient_df (VStr "age") = inr age ∧
    frame_getitem patient_df (VStr "ICU") = inr picu ∧
    frame_getitem df (VStr "WINDOW") = inr window ∧
    frame_getitem df (VStr "ICU") = inr icu ∧
    traces fig = [t1; t2; t3; t4; t5] ∧
    counts_bars t1 ag picu (VInt 0) ∧
    counts_bars t2 ag picu (VInt 1) ∧
    counts_bars t3 age picu (VInt 1) ∧
    counts_bars t5 window icu (VInt 1).
Proof.
  intros _
    (patient_df & ag & picu & freq_age_group & x1 & y1 & y2 & age & freq_age & x3 & y3
     & g & m & icu_by_window & x4 & y4 & t4 & window & icu & freq_window & x5 & y5
     & H)%plot_dashboard_inr.
  destruct_and!. subst fig.
  exists patient_df, ag, age, picu, window, icu. do 5 eexists.
  split_and!; [done..|reflexivity| | | |]; unfold counts_bars; simpl.
  - edestruct (crosstab_bars (VStr "age_group") ag picu freq_age_group (VInt 0)) as (?&?&?&?&?);
      [done..|]. by split_and!.
  - edestruct (crosstab_bars (VStr "age_group") ag picu freq_age_group (VInt 1)) as (?&?&?&?&?);
      [done..|]. by split_and!.
  - edestruct (crosstab_bars (VStr "age") age picu freq_age (VInt 1)) as (?&?&?&?&?);
      [done..|]. by split_and!.
  - edestruct (crosstab_bars (VStr "WINDOW") window icu freq_window (VInt 1)) as (?&?&?&?&?);
      [done..|]. by split_and!.
Qed.

Lemma plot_dashboard_bars_witness :
  ∃ patient_df ag age picu window icu t1 t2 t3 t4 t5,
    aggregate_patient_level two_patients = inr patient_df ∧
    frame_getitem patient_df (VStr "age_group") = inr ag ∧
    frame_getitem patient_df (VStr "age") = inr age ∧
    frame_getitem patient_df (VStr "ICU") = inr picu ∧
    frame_getitem two_patients (VStr "WINDOW") = inr window ∧
    frame_getitem two_patients (VStr "ICU") = inr icu ∧
    traces two_patients_dashboard = [t1; t2; t3; t4; t5] ∧
    counts_bars t1 ag picu (VInt 0) ∧
    counts_bars t2 ag picu (VInt 1) ∧
    counts_bars t3 age picu (VInt 1) ∧
    counts_bars t5 window icu (VInt 1).
Proof.
  apply (plot_dashboard_bars two_patients two_patients_dashboard).
  - reflexivity.
  - vm_compute. reflexivity.
Defined.

(** X20. The line of the third panel has one point for each different time
    window of the table, in increasing order of window; its y value is
    the mean of ICU over the observations of that window, and its text is
    that mean as a percentage with two decimals. *)
Theorem plot_dashboard_rate df fig :
  frame_ok df = true →
  plot_dashboard df = inr fig →
  ∃ window icu t,
    frame_getitem df (VStr "WINDOW") = inr window ∧
    frame_getitem df (VStr "ICU") = inr icu ∧
    traces fig !! 3%nat = Some t ∧
    kind t = Scatter ∧
    StronglySorted key_lt (identifiers (x t)) ∧
    length (identifiers (x t)) = length (x t) ∧
    (∀ k, k ∈ identifiers (x t) ↔ k ∈ identifiers window) ∧
    Forall2 (λ w v, group_mean (group_cells window w icu) = inr v) (x t) (y t) ∧
    Forall2 (λ v s, percent_text v = inr s) (y t) (text t).
Proof.
  intros _
    (window & icu & t & Hw & Hicu & Ht & Hkind & Hx & Hy & Htext)%plot_dashboard_rate_points.
  exists window, icu, t. split_and!; [done..| | | |done|done]; rewrite Hx.
  - apply group_keys_sorted.
  - apply identifiers_length. by destruct (group_keys_spec window) as (? & _).
  - by destruct (group_keys_spec window) as (_ & _ & ? & _).
Qed.

Lemma plot_dashboard_rate_witness :
  ∃ window icu t,
    frame_getitem two_patients (VStr "WINDOW") = inr window ∧
    frame_getitem two_patients (VStr "ICU") = inr icu ∧
    traces two_patients_dashboard !! 3%nat = Some t ∧
    kind t = Scatter ∧
    StronglySorted key_lt (identifiers (x t)) ∧
    length (identifiers (x t)) = length (x t) ∧
    (∀ k, k ∈ identifiers (x t) ↔ k ∈ identifiers window) ∧
    Forall2 (λ w v, group_mean (group_cells window w icu) = inr v) (x t) (y t) ∧
    Forall2 (λ v s, percent_text v = inr s) (y t) (text t).
Proof.
  apply (plot_dashboard_rate two_patients two_patients_dashboard).
  - reflexivity.
  - vm_compute. reflexivity.
Defined.

(** *** When the dashboard is drawn *)

(** A cross-tabulation has a column for every value of [c] that occurs in
    a row where [r] is not missing. *)
Lemma crosstab_has_column n nm r c key i a w :
  r !! i = Some a → c !! i = Some w → isna a = false → py_eqb w key = true →
  ∃ col, frame_getitem {| nrows := n; columns := body (crosstab nm r c) |} key = inr col.
Proof.
  intros Ha Hw Hna Hkey. unfold frame_getitem; simpl.
  destruct (lookup_label key _) as [col|] eqn:E; [by exists col|]. exfalso.
  apply lookup_label_None in E. rewrite fmap_fst_labelled in E.
  apply not_true_iff_false in E. apply E. clear E.
  set (pairs := filter (λ p, isna p.1 = false ∧ isna p.2 = false) (zip r c)).
  assert (Forall (λ v, isna v = false) pairs.*2) as Hnotna.
  { apply Forall_fmap, Forall_forall. by intros p [[? ?] _]%list_elem_of_filter. }
  assert (merge_sort value_le (uniques pairs.*2) = group_keys pairs.*2) as ->.
  { unfold group_keys. by rewrite dropna_id. }
  destruct (group_keys_spec pairs.*2) as (_ & _ & Hin & _).
  apply py_eqb_spec in Hkey as (k & Hkw & Hkk).
  assert (k ∈ identifiers (group_keys pairs.*2)) as (cj & Hcj & Hk)%elem_of_identifiers.
  { apply Hin, elem_of_identifiers. exists w. split; [|done].
    apply list_elem_of_fmap. exists (a, w). split; [done|].
    apply list_elem_of_filter. split.
    - split; [done|]. simpl. apply isna_false_key_of. by rewrite Hkw.
    - apply list_elem_of_lookup. exists i. by apply lookup_zip_Some. }
  apply label_in_spec. exists cj. split; [done|]. congruence.
Qed.

Lemma group_mean_numbers s :
  Forall (λ v, is_str v = false) s → ∃ f, group_mean s = inr (VFloat f).
Proof.
  intros Hs. unfold group_mean.
  destruct (traverse_total to_float64 (dropna s)) as [xs ->].
  { apply Forall_forall. intros v [_ Hv]%list_elem_of_filter.
    rewrite Forall_forall in Hs. specialize (Hs v Hv). destruct v; [by eexists..|done]. }
  simpl. destruct xs; by eexists.
Qed.

Lemma reset_index_mean ks cells :
  reset_index {| index_name := VStr "WINDOW"; index := ks; body := [(VStr "ICU", cells)] |}
  = inr {| nrows := length ks; columns := [(VStr "WINDOW", ks); (VStr "ICU", cells)] |}.
Proof. reflexivity. Qed.

(** The maxima of a column of zeros and ones, patient by patient. *)
Lemma icu_max_binary df ids icu icu_max :
  frame_ok df = true →
  frame_getitem df (VStr "PATIENT_VISIT_IDENTIFIER") = inr ids →
  frame_getitem df (VStr "ICU") = inr icu →
  Forall binary icu →
  Forall2 (λ k v, agg_max (group_cells ids k icu) = inr v) (group_keys ids) icu_max →
  ∀ j p, group_keys ids !! j = Some p →
    ∃ v, icu_max !! j = Some v ∧ binary v ∧
      (py_eqb v (VInt 1) = true ↔
       ∃ i q w, ids !! i = Some q ∧ py_eqb q p = true ∧
                icu !! i = Some w ∧ py_eqb w (VInt 1) = true).
Proof.
  intros Hok Hids Hicu Hbin Hmax j p Hp.
  destruct (Forall2_lookup_l _ _ _ _ _ Hmax Hp) as (v & Hv & Hagg).
  assert (p ∈ ids) as [i Hi]%list_elem_of_lookup.
  { apply group_keys_subseteq. by eapply list_elem_of_lookup_2. }
  assert (is_Some (key_of p)) as [k Hk].
  { destruct (group_keys_spec ids) as (Hall & _). rewrite Forall_forall in Hall.
    apply Hall. by eapply list_elem_of_lookup_2. }
  assert (is_Some (icu !! i)) as [w Hw].
  { apply lookup_lt_is_Some_2.
    rewrite (frame_getitem_length _ _ _ Hok Hicu), <-(frame_getitem_length _ _ _ Hok Hids).
    by eapply lookup_lt_Some. }
  destruct (agg_max_binary (group_cells ids p icu)) as (v' & Hv' & Hb & Hiff).
  - assert (w ∈ group_cells ids p icu) as Hin; [|by intros E; rewrite E in Hin; inversion Hin].
    apply elem_of_group_cells. exists i, p. split_and!; [done| |done].
    apply py_eqb_spec. eauto.
  - apply Forall_forall. intros w' (i' & q & _ & _ & Hw')%elem_of_group_cells.
    rewrite Forall_forall in Hbin. apply Hbin. by eapply list_elem_of_lookup_2.
  - assert (v' = v) as -> by congruence.
    exists v. split_and!; [done..|]. rewrite Hiff. split.
    + intros (w' & (i' & q & ? & ? & ?)%elem_of_group_cells & ?). by exists i', q, w'.
    + intros (i' & q & w' & ? & ? & ? & ?). exists w'. split; [|done].
      apply elem_of_group_cells. by exists i', q.
Qed.

(** A column of a cross-tabulation stands for a row of the two series. *)
Lemma crosstab_column_row nm r c freq key col :
  reset_index (crosstab nm r c) = inr freq →
  frame_getitem freq key = inr col →
  label_eqb key nm = false →
  ∃ i a w, r !! i = Some a ∧ c !! i = Some w ∧ isna a = false ∧ py_eqb w key = true.
Proof.
  intros Hreset Hcol Hne.
  unfold reset_index in Hreset. destruct (label_in _ _); [done|]. injection Hreset as <-.
  rewrite frame_getitem_cons, Hne in Hcol.
  unfold frame_getitem in Hcol; simpl in Hcol.
  destruct (lookup_label key _) as [col'|] eqn:E; [|done].
  apply lookup_label_fmap in E as (cj & Hcj & Hkey%label_eqb_spec & _).
  set (pairs := filter (λ p, isna p.1 = false ∧ isna p.2 = false) (zip r c)) in *.
  rewrite merge_sort_Permutation in Hcj. apply uniques_from_subseteq in Hcj.
  apply list_elem_of_fmap in Hcj as ([a w] & -> & [[Ha Hw] Hin]%list_elem_of_filter).
  apply list_elem_of_lookup in Hin as [i Hi]. apply lookup_zip_Some in Hi as [? ?].
  exists i, a, w. split_and!; [done..|]. simpl in *.
  apply isna_false_key_of in Hw as [k Hk]. apply py_eqb_spec. exists k. split; congruence.
Qed.

(** The dashboard is drawn when the table is complete, some patient was
    never in intensive care and some observation was. *)
Lemma plot_dashboard_total df ids icu ag age window :
  frame_ok df = true →
  frame_getitem df (VStr "PATIENT_VISIT_IDENTIFIER") = inr ids →
  frame_getitem df (VStr "ICU") = inr icu →
  frame_getitem df (VStr "age_group") = inr ag →
  frame_getitem df (VStr "age") = inr age →
  frame_getitem df (VStr "WINDOW") = inr window →
  Forall binary icu →
  Forall (λ v, isna v = false) ag →
  Forall (λ v, isna v = false) age →
  Forall (λ v, isna v = false) window →
  (∃ i p, ids !! i = Some p ∧ isna p = false ∧
     ∀ i' q w, ids !! i' = Some q → py_eqb q p = true → icu !! i' = Some w →
               py_eqb w (VInt 0) = true) →
  (∃ i p w, ids !! i = Some p ∧ isna p = false ∧ icu !! i = Some w ∧
            py_eqb w (VInt 1) = true) →
  ∃ fig, plot_dashboard df = inr fig.
Proof.
  intros Hok Hids Hicu Hag Hage Hwindow Hbin Hagn Hagen Hwn
    (i0 & p0 & Hi0 & Hp0 & Hnever) (i1 & p1 & w1 & Hi1 & Hp1 & Hw1 & Hw1').
  assert (Forall (λ v, is_str v = false) icu) as Hnum.
  { eapply Forall_impl; [done|]. by intros v [? _]%binary_number. }
  destruct (aggregate_patient_level_total df ids icu ag age) as (icu_max & Hout & Hmax);
    [done..|].
  pose proof (frame_getitem_length _ _ _ Hok Hids) as Lids.
  pose proof (frame_getitem_length _ _ _ Hok Hicu) as Licu.
  pose proof (frame_getitem_length _ _ _ Hok Hag) as Lag.
  pose proof (frame_getitem_length _ _ _ Hok Hage) as Lage.
  pose proof (frame_getitem_length _ _ _ Hok Hwindow) as Lwindow.
  (* the patients: every one has a row *)
  assert (∀ j p, group_keys ids !! j = Some p →
            ∃ i, ids !! i = Some p ∧ py_eqb p p = true) as Hrow.
  { intros j p Hp. assert (p ∈ ids) as [i Hi]%list_elem_of_lookup.
    { apply group_keys_subseteq. by eapply list_elem_of_lookup_2. }
    exists i. split; [done|]. apply py_eqb_spec.
    destruct (group_keys_spec ids) as (Hall & _). rewrite Forall_forall in Hall.
    destruct (Hall p) as [k Hk]; [by eapply list_elem_of_lookup_2|]. eauto. }
  (* the maxima *)
  pose proof (icu_max_binary df ids icu icu_max Hok Hids Hicu Hbin Hmax) as Hmaxima.
  (* the first values of a complete column *)
  assert (∀ s, length s = nrows df → Forall (λ v, isna v = false) s →
            ∀ j p, group_keys ids !! j = Some p →
              isna (agg_first (group_cells ids p s)) = false) as Hfirst.
  { intros s Ls Hs j p Hp. destruct (agg_first_rows ids p s) as [[Hv _]|[_ Hall]]; [done|].
    destruct (Hrow j p Hp) as (i & Hi & Hpp).
    assert (is_Some (s !! i)) as [w Hw].
    { apply lookup_lt_is_Some_2. rewrite Ls, <-Lids. by eapply lookup_lt_Some. }
    pose proof (Hall i p w Hi Hpp Hw) as Hna.
    rewrite Forall_forall in Hs. rewrite Hs in Hna; [done|].
    by eapply list_elem_of_lookup_2. }
  (* a patient for every identifier *)
  assert (∀ i p, ids !! i = Some p → isna p = false →
            ∃ j q, group_keys ids !! j = Some q ∧ key_of q = key_of p) as Hpatient.
  { intros i p Hi [k Hk]%isna_false_key_of.
    destruct (group_keys_spec ids) as (_ & _ & Hin & _).
    assert (k ∈ identifiers (group_keys ids)) as (q & [j Hj]%list_elem_of_lookup & Hq)%elem_of_identifiers.
    { apply Hin, elem_of_identifiers. exists p. split; [by eapply list_elem_of_lookup_2|done]. }
    exists j, q. split; [done|]. congruence. }
  (* a patient never in intensive care, and one who was *)
  destruct (Hpatient i0 p0 Hi0 Hp0) as (j0 & q0 & Hj0 & Hq0).
  destruct (Hmaxima j0 q0 Hj0) as (v0 & Hv0 & Hb0 & Hiff0).
  assert (py_eqb v0 (VInt 0) = true) as Hzero.
  { destruct Hb0 as [?|Hone]; [done|]. apply Hiff0 in Hone as (i & q & w & Hi & Hq & Hw & Hw').
    rewrite (py_eqb_proper_r q q0 p0 Hq0) in Hq.
    pose proof (Hnever i q w Hi Hq Hw) as H0.
    apply py_eqb_spec in H0 as (k0 & Hk0 & ?), Hw' as (k1 & Hk1 & ?). simpl in *.
    by simplify_eq. }
  destruct (Hpatient i1 p1 Hi1 Hp1) as (j1 & q1 & Hj1 & Hq1).
  destruct (Hmaxima j1 q1 Hj1) as (v1 & Hv1 & Hb1 & Hiff1).
  assert (py_eqb v1 (VInt 1) = true) as Hone.
  { apply Hiff1. exists i1, p1, w1. split_and!; [done| |done..].
    rewrite (py_eqb_proper_r p1 q1 p1 Hq1). apply py_eqb_spec.
    apply isna_false_key_of in Hp1 as [k Hk]. eauto. }
  (* no label of the patient-level ICU is a text *)
  assert (∀ nm l, l ∈ icu_max → label_eqb (VStr nm) l = false) as Hnostr.
  { intros nm l [j Hj]%list_elem_of_lookup.
    destruct (Forall2_lookup_r _ _ _ _ _ Hmax Hj) as (p & Hp & _).
    destruct (Hmaxima j p Hp) as (v & Hv & [Hs _]%binary_number & _).
    assert (v = l) as -> by congruence.
    apply not_true_iff_false. intros E%label_eqb_spec.
    destruct l as [|[[]|[]| |]|]; by simplify_eq/=. }
  assert (∀ nm l, l ∈ icu → label_eqb (VStr nm) l = false) as Hnostr'.
  { intros nm l Hl. rewrite Forall_forall in Hnum. specialize (Hnum l Hl).
    apply not_true_iff_false. intros E%label_eqb_spec.
    destruct l as [|[[]|[]| |]|]; by simplify_eq/=. }
  (* the panels *)
  unfold plot_dashboard. rewrite Hout. cbn.
  rewrite patient_table_age_group, patient_table_icu, patient_table_age. cbn.
  set (agf := (λ k, agg_first (group_cells ids k ag)) <$> group_keys ids).
  set (agef := (λ k, agg_first (group_cells ids k age)) <$> group_keys ids).
  assert (∀ j p, group_keys ids !! j = Some p →
            ∃ a, agf !! j = Some a ∧ isna a = false) as Hagf.
  { intros j p Hp. eexists. split; [unfold agf; by rewrite list_lookup_fmap, Hp|].
    by eapply Hfirst. }
  assert (∀ j p, group_keys ids !! j = Some p →
            ∃ a, agef !! j = Some a ∧ isna a = false) as Hagef.
  { intros j p Hp. eexists. split; [unfold agef; by rewrite list_lookup_fmap, Hp|].
    by eapply Hfirst. }
  (* ICU by age group *)
  rewrite (reset_index_crosstab (VStr "age_group")) by apply Hnostr. cbn.
  rewrite !frame_getitem_cons. eval_labels. cbn.
  destruct (Hagf j0 q0 Hj0) as (a0 & Ha0 & Ha0n).
  destruct (crosstab_has_column (length (index (crosstab (VStr "age_group") agf icu_max)))
              (VStr "age_group") agf icu_max (VInt 0) j0 a0 v0)
    as [y1 ->]; [done..|]. cbn.
  destruct (Hagf j1 q1 Hj1) as (a1 & Ha1 & Ha1n).
  destruct (crosstab_has_column (length (index (crosstab (VStr "age_group") agf icu_max)))
              (VStr "age_group") agf icu_max (VInt 1) j1 a1 v1)
    as [y2 ->]; [done..|]. cbn.
  (* ICU by age *)
  rewrite (reset_index_crosstab (VStr "age")) by apply Hnostr. cbn.
  rewrite !frame_getitem_cons. eval_labels. cbn.
  destruct (Hagef j1 q1 Hj1) as (b1 & Hb1' & Hb1n).
  destruct (crosstab_has_column (length (index (crosstab (VStr "age") agef icu_max)))
              (VStr "age") agef icu_max (VInt 1) j1 b1 v1)
    as [y3 ->]; [done..|]. cbn.
  (* ICU rate by window *)
  unfold DataFrame_groupby. rewrite Hwindow. cbn.
  unfold GroupBy_mean. cbn. rewrite frame_getitem_drop, Hicu by done. cbn.
  destruct (traverse_total (λ k, group_mean (group_cells window k icu)) (group_keys window))
    as [cells Hcells].
  { apply Forall_forall. intros k _.
    destruct (group_mean_numbers (group_cells window k icu)) as [f Hf]; [|by eexists].
    apply Forall_forall. intros w (i & q & _ & _ & Hw)%elem_of_group_cells.
    rewrite Forall_forall in Hnum. apply Hnum. by eapply list_elem_of_lookup_2. }
  rewrite Hcells. cbn. rewrite reset_index_mean. cbn.
  rewrite !frame_getitem_cons. eval_labels. cbn.
  destruct (Series_apply_total cells percent_text) as [t4 ->].
  { apply traverse_inr in Hcells. apply Forall_forall. intros v [j Hj]%list_elem_of_lookup.
    destruct (Forall2_lookup_r _ _ _ _ _ Hcells Hj) as (k & _ & Hk).
    destruct (group_mean_numbers (group_cells window k icu)) as [f Hf].
    - apply Forall_forall. intros w (i & q & _ & _ & Hw)%elem_of_group_cells.
      rewrite Forall_forall in Hnum. apply Hnum. by eapply list_elem_of_lookup_2.
    - assert (v = VFloat f) as -> by congruence. by eexists. }
  cbn.
  (* ICU frequency by window *)
  rewrite (reset_index_crosstab (VStr "WINDOW")) by apply Hnostr'. cbn.
  rewrite !frame_getitem_cons. eval_labels. cbn.
  assert (is_Some (window !! i1)) as [u1 Hu1].
  { apply lookup_lt_is_Some_2. rewrite Lwindow, <-Lids. by eapply lookup_lt_Some. }
  destruct (crosstab_has_column (length (index (crosstab (VStr "WINDOW") window icu)))
              (VStr "WINDOW") window icu (VInt 1) i1 u1 w1)
    as [y5 ->]; [done..| |done|].
  { rewrite Forall_forall in Hwn. apply Hwn. by eapply list_elem_of_lookup_2. }
  cbn. by eexists.
Qed.

(** X21. On a cleaned table with the five columns that are read, in which
    ICU reads 0 or 1 in every row and no identifier, age group, age or
    time window is missing, [plot_dashboard] draws its figure exactly when
    some patient has ICU equal to 0 in all rows and some row has ICU equal
    to 1; otherwise it raises. *)
Theorem plot_dashboard_returns_iff df ids icu ag age window :
  frame_ok df = true →
  frame_getitem df (VStr "PATIENT_VISIT_IDENTIFIER") = inr ids →
  frame_getitem df (VStr "ICU") = inr icu →
  frame_getitem df (VStr "age_group") = inr ag →
  frame_getitem df (VStr "age") = inr age →
  frame_getitem df (VStr "WINDOW") = inr window →
  Forall binary icu →
  Forall (λ v, isna v = false) ids →
  Forall (λ v, isna v = false) ag →
  Forall (λ v, isna v = false) age →
  Forall (λ v, isna v = false) window →
  (∃ fig, plot_dashboard df = inr fig) ↔
  (∃ i p, ids !! i = Some p ∧
     ∀ i' q w, ids !! i' = Some q → py_eqb q p = true → icu !! i' = Some w →
               py_eqb w (VInt 0) = true) ∧
  (∃ i w, icu !! i = Some w ∧ py_eqb w (VInt 1) = true).
Proof.
  intros Hok Hids Hicu Hag Hage Hwindow Hbin Hidn Hagn Hagen Hwn.
  pose proof (frame_getitem_length _ _ _ Hok Hids) as Lids.
  pose proof (frame_getitem_length _ _ _ Hok Hicu) as Licu.
  rewrite Forall_forall in Hidn.
  split.
  - intros [fig (patient_df & ag' & picu & freq_age_group & x1 & y1 & y2 & age' & freq_age
        & x3 & y3 & g & m & icu_by_window & x4 & y4 & t4 & window' & icu' & freq_window
        & x5 & y5 & H)%plot_dashboard_inr].
    destruct H as (Hout&Hag'&Hpicu&H1&_&Hy1&_&_&_&_&_&_&_&_&_&_&_&Hw'&Hicu'&H5&_&Hy5&_).
    assert (icu' = icu) as -> by congruence.
    assert (Forall (λ v, is_str v = false) icu) as Hnum.
    { eapply Forall_impl; [done|]. by intros v [? _]%binary_number. }
    destruct (aggregate_patient_level_total df ids icu ag age) as (icu_max & Hout' & Hmax);
      [done..|].
    assert (patient_df = patient_table ids icu_max ag age) as -> by congruence.
    rewrite patient_table_icu in Hpicu. injection Hpicu as <-.
    split.
    + destruct (crosstab_column_row _ _ _ _ (VInt 0) _ H1 Hy1 eq_refl)
        as (j & a & w & _ & Hw & _ & Hw0).
      assert (is_Some (group_keys ids !! j)) as [p Hp].
      { apply lookup_lt_is_Some_2. rewrite (Forall2_length _ _ _ Hmax).
        by eapply lookup_lt_Some. }
      destruct (icu_max_binary df ids icu icu_max Hok Hids Hicu Hbin Hmax j p Hp)
        as (v & Hv & _ & Hiff).
      assert (v = w) as -> by congruence.
      assert (p ∈ ids) as [i Hi]%list_elem_of_lookup.
      { apply group_keys_subseteq. by eapply list_elem_of_lookup_2. }
      exists i, p. split; [done|]. intros i' q u Hq Hqp Hu.
      rewrite Forall_forall in Hbin. destruct (Hbin u) as [?|Hu1]; [|done|].
      { by eapply list_elem_of_lookup_2. }
      assert (py_eqb w (VInt 1) = true) as Hw1 by (apply Hiff; by exists i', q, u).
      apply py_eqb_spec in Hw0 as (k0 & Hk0 & ?), Hw1 as (k1 & Hk1 & ?). simpl in *.
      by simplify_eq.
    + destruct (crosstab_column_row _ _ _ _ (VInt 1) _ H5 Hy5 eq_refl)
        as (i & a & w & _ & Hw & _ & Hw1).
      by exists i, w.
  - intros [(i0 & p0 & Hi0 & Hnever) (i1 & w1 & Hw1 & Hone)].
    apply (plot_dashboard_total df ids icu ag age window); try done.
    + exists i0, p0. split_and!; [done| |done]. apply Hidn. by eapply list_elem_of_lookup_2.
    + assert (is_Some (ids !! i1)) as [p1 Hp1].
      { apply lookup_lt_is_Some_2. rewrite Lids, <-Licu. by eapply lookup_lt_Some. }
      exists i1, p1, w1. split_and!; [done| |done..]. apply Hidn. by eapply list_elem_of_lookup_2.
Qed.

Lemma plot_dashboard_returns_iff_witness : ∃ fig, plot_dashboard two_patients = inr fig.
Proof.
  apply (proj2 (plot_dashboard_returns_iff two_patients
           [VStr "A"; VStr "A"; VStr "B"] [VInt 0; VInt 1; VInt 0]
           [VStr "+65"; VStr "+65"; VStr "<65"]
           [VFloat (float_of_Z 60); VFloat (float_of_Z 60); VFloat (float_of_Z 10)]
           [VStr "0-2"; VStr "2-4"; VStr "0-2"]
           eq_refl eq_refl eq_refl eq_refl eq_refl eq_refl
           ltac:(repeat first
             [ apply Forall_nil_2
             | apply Forall_cons_2; [first [left; reflexivity | right; reflexivity]|] ])
           ltac:(repeat constructor) ltac:(repeat constructor)
           ltac:(repeat constructor) ltac:(repeat constructor))).
  split.
  - exists 2%nat, (VStr "B"). split; [reflexivity|].
    intros [|[|[|i']]] q w; simpl; intros [= <-] Hq [= <-]; done.
  - exists 1%nat, (VInt 1). split; reflexivity.
Defined.

(** ** [main] *)

Lemma Series_map_binary s :
  Forall binary s → Forall (λ v, isna v = false) (Series_map s age_group_dict).
Proof.
  intros Hs. unfold Series_map. apply Forall_fmap. eapply Forall_impl; [done|].
  intros v [H0|H1]; simpl.
  - destruct (py_eqb v (VInt 1)); [done|]. by rewrite H0.
  - by rewrite H1.
Qed.

Section MainRuns.

Variable server : list request → request → result response.
Variable read_excel : string → result DataFrame.

(** [main] by cases on its three stages. *)
Lemma main_run p :
  main server read_excel p =
  let out := (stdout p ++ ["Starting data analysis..."])%list in
  match load_data server read_excel DATA_URL (network p) with
  | (inl e, w) => (inl e, {| network := w; heap := heap p; stdout := out; shown := shown p |})
  | (inr df, w) =>
      let r := fresh (dom (heap p)) in
      match preprocess_data r (<[r:=df]> (heap p)) with
      | (inl e, σ) => (inl e, {| network := w; heap := σ; stdout := out; shown := shown p |})
      | (inr r', σ) =>
          match σ !! r' with
          | None =>
              (inl ReferenceError,
               {| network := w; heap := σ; stdout := out; shown := shown p |})
          | Some table =>
              match plot_dashboard table with
              | inl e =>
                  (inl e, {| network := w; heap := σ; stdout := out; shown := shown p |})
              | inr fig =>
                  (inr (),
                   {| network := w; heap := σ;
                      stdout := (out ++ ["Analysis completed successfully."])%list;
                      shown := (shown p ++ [fig])%list |})
              end
          end
      end
  end.
Proof.
  unfold main. rewrite run_bind. unfold print at 1. cbn [fst snd].
  rewrite run_bind. unfold call_load_data. rewrite run_bind.
  unfold on_network at 1. cbn [network heap stdout shown].
  destruct (load_data server read_excel DATA_URL (network p)) as [[e|df] w]; [done|].
  unfold on_heap at 1, alloc. cbn [network heap stdout shown].
  rewrite run_bind. unfold on_heap at 1. cbn [network heap stdout shown].
  destruct (preprocess_data _ _) as [[e|r'] σ]; [done|].
  rewrite run_bind. unfold call_plot_dashboard.
  rewrite run_bind. unfold on_heap, deref. cbn [network heap stdout shown].
  destruct (σ !! r') as [table|]; [|done].
  rewrite run_bind. unfold lift.
  destruct (plot_dashboard table) as [e|fig]; [done|]. done.
Qed.

(** X22. [main] prints the starting line first, whatever happens next, and
    the completion line exactly when no stage has raised; it shows one
    figure when it completes and none when it does not; and it sends one
    or two requests, both to DATA_URL, the second without certificate
    verification. *)
Theorem main_outputs p :
  let res := (main server read_excel p).1 in
  let p' := (main server read_excel p).2 in
  match res with
  | inr _ =>
      stdout p' = (stdout p ++ ["Starting data analysis..."; "Analysis completed successfully."])%list ∧
      ∃ fig, shown p' = (shown p ++ [fig])%list
  | inl _ =>
      stdout p' = (stdout p ++ ["Starting data analysis..."])%list ∧
      shown p' = shown p
  end ∧
  (sent (network p') = (sent (network p) ++ [verified DATA_URL])%list ∨
   sent (network p') = (sent (network p) ++ [verified DATA_URL; unverified DATA_URL])%list).
Proof.
  cbv zeta. rewrite main_run. cbv zeta.
  pose proof (load_data_run server read_excel DATA_URL (network p)) as Hload.
  assert (sent (load_data server read_excel DATA_URL (network p)).2
            = (sent (network p) ++ [verified DATA_URL])%list ∨
          sent (load_data server read_excel DATA_URL (network p)).2
            = (sent (network p) ++ [verified DATA_URL; unverified DATA_URL])%list) as Hsent.
  { rewrite Hload. destruct (attempt _ _ _ (verified DATA_URL)); simpl; auto. }
  clear Hload.
  destruct (load_data server read_excel DATA_URL (network p)) as [[e|df] w]; simpl in *.
  { done. }
  destruct (preprocess_data _ _) as [[e|r'] σ]; simpl; [done|].
  destruct (σ !! r') as [table|]; simpl; [|done].
  destruct (plot_dashboard table) as [e|fig]; simpl; [done|].
  split; [|done]. split; [by rewrite <-(assoc_L (++))|by exists fig].
Qed.

(** X23. [main] completes when the first request is answered with a
    spreadsheet whose table is well formed and complete: text labels, the
    indicator AGE_ABOVE65 reading 0 or 1, age bands with at least one digit
    and at most one point, ICU reading 0 or 1, no time window missing, a
    patient never in intensive care and an observation in intensive care.
    It then prints both lines, shows one figure and has sent one
    request. *)
Theorem main_completes p df above65 percentil ids icu window :
  attempt server read_excel (sent (network p)) (verified DATA_URL) = inr df →
  frame_ok df = true →
  Forall (λ l, is_str l = true) (labels df) →
  frame_getitem df (VStr "AGE_ABOVE65") = inr above65 →
  frame_getitem df (VStr "AGE_PERCENTIL") = inr percentil →
  frame_getitem df (VStr "PATIENT_VISIT_IDENTIFIER") = inr ids →
  frame_getitem df (VStr "ICU") = inr icu →
  frame_getitem df (VStr "WINDOW") = inr window →
  Forall binary above65 →
  Forall (λ v, numeric_text (py_str v) = true) percentil →
  Forall binary icu →
  Forall (λ v, isna v = false) window →
  (∃ i q, ids !! i = Some q ∧ isna q = false ∧
     ∀ i' q' w, ids !! i' = Some q' → py_eqb q' q = true → icu !! i' = Some w →
                py_eqb w (VInt 0) = true) →
  (∃ i q w, ids !! i = Some q ∧ isna q = false ∧ icu !! i = Some w ∧
            py_eqb w (VInt 1) = true) →
  ∃ fig p',
    main server read_excel p = (inr (), p') ∧
    stdout p' = (stdout p ++ ["Starting data analysis..."; "Analysis completed successfully."])%list ∧
    shown p' = (shown p ++ [fig])%list ∧
    sent (network p') = (sent (network p) ++ [verified DATA_URL])%list.
Proof.
  intros Hload Hok Hs Ha Hp Hids Hicu Hwindow Hab Hnum Hbin Hwn Hnever Hone.
  rewrite main_run. cbv zeta. rewrite load_data_run, Hload.
  set (r := fresh (dom (heap p))). set (σ := <[r:=df]> (heap p)).
  assert (σ !! r = Some df) as Hr by apply lookup_insert_eq.
  pose proof (preprocess_data_run r df σ Hr) as Hrun.
  destruct (Series_apply_total percentil numeric_age) as [age Hage].
  { eapply Forall_impl; [done|]. intros v [f Hf]%numeric_age_numeric_text. by eexists. }
  assert (∃ df', preprocess_frame df = inr df') as [df' Hf].
  { rewrite (preprocess_frame_text_labels df Hs), Ha, Hp. simpl. rewrite Hage. by eexists. }
  rewrite Hf in Hrun. rewrite Hrun. rewrite lookup_insert_eq.
  pose proof (preprocess_frame_ok _ _ Hok Hf) as Hok'.
  pose proof (preprocess_frame_getitem df df' (VStr "PATIENT_VISIT_IDENTIFIER") Hf
                eq_refl eq_refl eq_refl) as Hids'.
  pose proof (preprocess_frame_getitem df df' (VStr "ICU") Hf eq_refl eq_refl eq_refl) as Hicu'.
  pose proof (preprocess_frame_getitem df df' (VStr "WINDOW") Hf eq_refl eq_refl eq_refl)
    as Hwindow'.
  rewrite Hids in Hids'. rewrite Hicu in Hicu'. rewrite Hwindow in Hwindow'.
  pose proof Hf as (rc & above65' & percentil' & age' & Hrc & Ha' & Hp' & Hage' & Hdf')%preprocess_frame_inr.
  assert (above65' = above65) as -> by congruence.
  assert (percentil' = percentil) as -> by congruence.
  assert (age' = age) as -> by congruence.
  assert (frame_getitem df' (VStr "age") = inr age) as Hgage.
  { rewrite Hdf'. unfold frame_getitem. by rewrite lookup_label_setitem_eq. }
  assert (frame_getitem df' (VStr "age_group") = inr (Series_map above65 age_group_dict)) as Hgag.
  { rewrite Hdf'. unfold frame_getitem.
    by rewrite lookup_label_setitem_ne, lookup_label_setitem_eq. }
  destruct (plot_dashboard_total df' ids icu _ age window Hok' Hids' Hicu' Hgag Hgage Hwindow')
    as [fig Hfig]; [done| | |done..|].
  - by apply Series_map_binary.
  - apply Series_apply_inr in Hage. apply Forall_forall. intros v [i Hi]%list_elem_of_lookup.
    destruct (Forall2_lookup_r _ _ _ _ _ Hage Hi) as (a & _ & Hx).
    apply numeric_age_inr in Hx as (f & Hfl & ->).
    by apply py_float_nonnegative, nonnegative_notna in Hfl.
  - rewrite Hfig. eexists fig, _. split; [reflexivity|]. simpl.
    split_and!; [|done..]. by rewrite <-(assoc_L (++)).
Qed.

End MainRuns.

Lemma main_completes_witness :
  ∃ fig p',
    main healthy spreadsheet_reader new_process = (inr (), p') ∧
    stdout p' = ["Starting data analysis..."; "Analysis completed successfully."] ∧
    shown p' = [fig] ∧
    sent (network p') = [verified DATA_URL].
Proof.
  apply (main_completes healthy spreadsheet_reader new_process raw_two_patients
           [VInt 1; VInt 1; VInt 0] [VStr "60th"; VStr "60th"; VStr "10th"]
           [VStr "A"; VStr "A"; VStr "B"] [VInt 0; VInt 1; VInt 0]
           [VStr "0-2"; VStr "2-4"; VStr "0-2"]); try reflexivity.
  - repeat constructor.
  - repeat first
      [ apply Forall_nil_2
      | apply Forall_cons_2; [first [left; reflexivity | right; reflexivity]|] ].
  - repeat constructor.
  - repeat first
      [ apply Forall_nil_2
      | apply Forall_cons_2; [first [left; reflexivity | right; reflexivity]|] ].
  - repeat constructor.
  - exists 2%nat, (VStr "B"). split_and!; [reflexivity..|].
    intros [|[|[|i']]] q w; simpl; intros [= <-] Hq [= <-]; done.
  - exists 1%nat, (VStr "A"), (VInt 1). split_and!; reflexivity.
Defined.
